(** * FormWeaver: batch synthesis, archive naming and sheet decoding

    A shallow embedding of the data path of FormWeaver:

    - [lib/excel-parser.ts]   ([parseExcelFile], [validateExcelFile])
    - [lib/pdf-generator.ts]  ([getFontBytes], [hexToRgb], [generatePDFs])
    - [lib/zip-archiver.ts]   ([createZipArchive])
    - [components/steps/Step3Generate.tsx] ([handleGenerate] and the
      completion panel)
    - [components/steps/Step2Editor.tsx] ([changePage], [resizeAndDraw],
      [addFieldToCanvas], [handleNext])
    - [app/page.tsx] (the step handlers of [Home])

    Modelling conventions.

    - JavaScript numbers are modelled by exact rationals ([Q]); rounding of
      IEEE doubles, infinities and NaN are not modelled.  Page numbers are
      integers ([Z]), as the editor produces them.
    - The collaborators (pdf-lib, fetch, the font engine, JSZip) are
      gathered in a record [Env] of total functions; an exception thrown by
      a collaborator is the result [None].
    - Mutable objects ([fontCache], [loadedFonts], the document instance) are
      threaded explicitly through the functions that mutate them.
    - A row object is a plain object: reading a property that it does not
      own reaches [Object.prototype], assigning to [__proto__] stores
      nothing, and its properties are listed with the array indices first.
      The literal [fontPaths] is read by family names that the editor
      makes ([Inter] and the like), for which only its own properties
      count.
    - [templateFile] is modelled by the bytes that [arrayBuffer()] gives.
    - Console output is not modelled. *)

From Stdlib Require Import List String Ascii Bool Arith ZArith NArith QArith Lia.
From Stdlib Require Import Qround Qabs Lqa.
From Stdlib Require Import Decimal DecimalString DecimalNat DecimalN.
From Stdlib Require Import Sorted Permutation.
Import ListNotations.

Local Open Scope string_scope.
Local Open Scope list_scope.

(** ** JavaScript values held by sheet cells and row objects *)

Inductive JsVal : Type :=
| JUndefined
| JNull
| JBool (b : bool)
| JNum (q : Q)
| JStr (s : string).

(** ToBoolean. *)
Definition truthy (v : JsVal) : bool :=
  match v with
  | JUndefined | JNull => false
  | JBool b => b
  | JNum q => negb (Qeq_bool q 0)
  | JStr s => negb (String.eqb s "")
  end.

(** [a || b]. *)
Definition jsOr (a b : JsVal) : JsVal := if truthy a then a else b.

(** Strict inequality [v !== ''] against the empty string. *)
Definition notEmptyStr (v : JsVal) : bool :=
  match v with
  | JStr s => negb (String.eqb s "")
  | _ => true
  end.

(** Byte buffers ([ArrayBuffer], [Uint8Array]). *)
Definition Bytes : Type := list Byte.byte.

(** String-keyed tables: a [Map], the file table of an archive, a literal
    read by name.  Assignment to an existing key keeps its position, a new
    key is appended.  (Row objects, which have a prototype and can have
    array indices as names, are assigned to with [rowSet] and read with
    [rowGet] below.) *)
Section Obj.
Context {V : Type}.

Definition Obj : Type := list (string * V).

Fixpoint objGet (o : Obj) (k : string) : option V :=
  match o with
  | [] => None
  | (k', v) :: o' => if String.eqb k' k then Some v else objGet o' k
  end.

Fixpoint objSet (o : Obj) (k : string) (v : V) : Obj :=
  match o with
  | [] => [(k, v)]
  | (k', v') :: o' =>
      if String.eqb k' k then (k', v) :: o' else (k', v') :: objSet o' k v
  end.

Definition objValues (o : Obj) : list V := map snd o.
Definition objKeys (o : Obj) : list string := map fst o.
End Obj.
Arguments Obj : clear implicits.

(** ** [hexToRgb] (pdf-generator.ts) *)

Module Color.

Record Rgb : Type := mkRgb { r : Q; g : Q; b : Q }.

Definition black : Rgb := mkRgb 0 0 0.

(** The class [[a-f\d]] under the [i] flag, by character code. *)
Definition isHexDigit (c : ascii) : bool :=
  let n := nat_of_ascii c in
  (((48 <=? n) && (n <=? 57)) || ((97 <=? n) && (n <=? 102))
   || ((65 <=? n) && (n <=? 70)))%nat.

(** A capture group [([a-f\d]{2})]. *)
Definition Group : Type := (ascii * ascii)%type.

(** [([a-f\d]{2})([a-f\d]{2})([a-f\d]{2})$] at the current position. *)
Definition matchGroups (s : string) : option (Group * Group * Group) :=
  match s with
  | String c1 (String c2 (String c3 (String c4 (String c5 (String c6 EmptyString))))) =>
      if forallb isHexDigit [c1; c2; c3; c4; c5; c6]
      then Some ((c1, c2), (c3, c4), (c5, c6))
      else None
  | _ => None
  end.

(** [/^#?([a-f\d]{2})([a-f\d]{2})([a-f\d]{2})$/i.exec(hex)]: the optional
    [#] is tried first, then the match without it. *)
Definition hexRe_exec (hex : string) : option (Group * Group * Group) :=
  match hex with
  | String "#" rest =>
      match matchGroups rest with
      | Some gs => Some gs
      | None => matchGroups hex
      end
  | _ => matchGroups hex
  end.

(** Value of one hexadecimal digit; the last branch is not reached on a
    captured group (see [hexRe_exec_groups]). *)
Definition hexVal (c : ascii) : Z :=
  let n := Z.of_nat (nat_of_ascii c) in
  if ((48 <=? n) && (n <=? 57))%Z then (n - 48)%Z
  else if ((97 <=? n) && (n <=? 102))%Z then (n - 87)%Z
  else if ((65 <=? n) && (n <=? 70))%Z then (n - 55)%Z
  else 0%Z.

(** [parseInt(group, 16)]. *)
Definition parseInt16 (p : Group) : Z := (16 * hexVal (fst p) + hexVal (snd p))%Z.

Definition hexToRgb (hex : option string) : Rgb :=
  let hex := match hex with Some h => h | None => "#000000" end in
  match hexRe_exec hex with
  | Some (g1, g2, g3) =>
      mkRgb (inject_Z (parseInt16 g1) / 255)
            (inject_Z (parseInt16 g2) / 255)
            (inject_Z (parseInt16 g3) / 255)
  | None => mkRgb 0 0 0
  end%Q.

(** pdf-lib's [rgb(r, g, b)]: each component is asserted to lie in
    [0, 1]; the call throws otherwise. *)
Definition inUnit (q : Q) : bool := Qle_bool 0 q && Qle_bool q 1.

Definition rgb (red green blue : Q) : option Rgb :=
  if inUnit red && inUnit green && inUnit blue
  then Some (mkRgb red green blue) else None.

(** The strings the pattern is meant to accept, stated independently of
    the matcher: an optional [#] followed by exactly six hexadecimal
    digits of either case. *)
Definition hexDigits : list ascii :=
  list_ascii_of_string "0123456789abcdefABCDEF".

Definition isHexColor (s : string) : Prop :=
  exists ds : list ascii,
    List.length ds = 6%nat /\ Forall (fun c => In c hexDigits) ds /\
    (s = string_of_list_ascii ds \/ s = String "#" (string_of_list_ascii ds)).

End Color.

(** ** Data model (types/index.ts) *)

Module Size.
(** [{ width: number; height: number }]: a preview size or the result of
    [page.getSize()]. *)
Record t : Type := mk { width : Q; height : Q }.
End Size.

Inductive TextAlign : Type := AlignLeft | AlignCenter | AlignRight.
Inductive FontWeight : Type := WeightNormal | WeightBold.
Inductive FontStyle : Type := StyleNormal | StyleItalic.

Module PDFField.
Record t : Type := mk {
  id : string;
  columnName : string;
  isQRCode : bool;
  pageIndex : Z;              (* which page the field is on, from 1 *)
  x : Q;
  y : Q;
  width : Q;
  height : Q;
  scaleX : option Q;
  scaleY : option Q;
  angle : option Q;
  fontSize : Q;
  fill : option string;
  color : option string;
  fontFamily : string;
  textAlign : TextAlign;
  fontWeight : FontWeight;
  fontStyle : FontStyle;
  textDecoration : option string
}.
End PDFField.

(** The field [field] with its [isQRCode] flag set to [flag]. *)
Definition withIsQRCode (flag : bool) (field : PDFField.t) : PDFField.t :=
  PDFField.mk (PDFField.id field) (PDFField.columnName field) flag
    (PDFField.pageIndex field) (PDFField.x field) (PDFField.y field)
    (PDFField.width field) (PDFField.height field) (PDFField.scaleX field)
    (PDFField.scaleY field) (PDFField.angle field) (PDFField.fontSize field)
    (PDFField.fill field) (PDFField.color field) (PDFField.fontFamily field)
    (PDFField.textAlign field) (PDFField.fontWeight field)
    (PDFField.fontStyle field) (PDFField.textDecoration field).

Module ExcelData.
(** [headers] and [columns] are declared [string[]]; they hold whatever
    the header cells of the sheet hold. *)
Record t : Type := mk {
  headers : list JsVal;
  columns : list JsVal;
  rows : list (Obj JsVal)
}.
End ExcelData.

(** [{ [pageIndex: number]: { width; height } }]. *)
Definition PreviewSizes : Type := list (Z * Size.t).

Fixpoint sizesGet (ps : PreviewSizes) (k : Z) : option Size.t :=
  match ps with
  | [] => None
  | (k', s) :: ps' => if Z.eqb k' k then Some s else sizesGet ps' k
  end.

(** ** The document writer and the other collaborators *)

(** A font handle returned by [pdfDoc.embedFont]. *)
Record Font : Type := mkFont {
  fontData : Bytes;
  heightAtSize : Q -> Q
}.

(** The arguments of one [page.drawText(value, options)] call. *)
Record TextOp : Type := mkTextOp {
  opPage : nat;                 (* index into [pdfDoc.getPages()] *)
  opText : string;
  opX : Q;
  opY : Q;
  opFont : Font;
  opSize : Q;
  opColor : Color.Rgb;
  opRotate : Q                  (* degrees *)
}.

(** What a page can be asked to draw. *)
Inductive DrawOp : Type :=
| DrawText (t : TextOp)
| DrawImage (page : nat) (image : Bytes) (ix iy iw ih : Q).

(** A document instance: its pages, the fonts embedded in it and the draw
    operations applied to it, oldest first. *)
Record PdfDoc : Type := mkDoc {
  docPages : list Size.t;
  docFonts : list Font;
  docOps : list DrawOp
}.

(** What a [catch] clause receives: an [Error] with its message, or some
    other value. *)
Inductive Thrown : Type :=
| ThrownError (message : string)
| ThrownOther.

Record Env : Type := mkEnv {
  (** [String(n)] for a number. *)
  numToString : Q -> string;
  (** [String(f)] for the function that [Object.prototype] holds under a
      name: its source text, which the engine chooses. *)
  builtinToString : string -> string;
  (** [fetch(path)] followed by [response.ok] and [arrayBuffer()]. *)
  fetchFont : string -> option Bytes;
  (** [PDFDocument.load(bytes, { ignoreEncryption: true })], then
      [getPages()] with each page's [getSize()]. *)
  load : Bytes -> option (list Size.t);
  (** [pdfDoc.embedFont(bytes)]. *)
  embedFont : Bytes -> option Font;
  (** whether [page.drawText] accepts the call. *)
  drawTextOk : TextOp -> bool;
  (** [pdfDoc.save()]. *)
  save : PdfDoc -> option Bytes;
  (** the imported [QRCode] service, string to image. *)
  qrImage : string -> option Bytes;
  (** [zip.generateAsync({ type: 'blob' })]. *)
  zipGenerate : Obj Bytes -> option Bytes;
  (** what [generateAsync] rejects with, when it does. *)
  zipRejects : Obj Bytes -> Thrown
}.

(** [String(v)]. *)
Definition toString (env : Env) (v : JsVal) : string :=
  match v with
  | JUndefined => "undefined"
  | JNull => "null"
  | JBool true => "true"
  | JBool false => "false"
  | JNum q => numToString env q
  | JStr s => s
  end.

(** ** Row objects

    A row object is created by [{}] and holds primitives (the cells that
    [sheet_to_json] gives); its prototype is [Object.prototype], which the
    program leaves as the language defines it.  The list holds the own
    properties of the object in the order in which [Object.keys] and
    [Object.values] list them: the names that are array indices in
    ascending order, then the other names in order of creation. *)

(** The properties of [Object.prototype]: the accessor [__proto__] and
    eleven functions. *)
Definition prototypeNames : list string :=
  [ "constructor"; "__defineGetter__"; "__defineSetter__"; "hasOwnProperty";
    "__lookupGetter__"; "__lookupSetter__"; "isPrototypeOf";
    "propertyIsEnumerable"; "toString"; "valueOf"; "__proto__";
    "toLocaleString" ].

(** What reading a property of a row object gives: a primitive,
    [Object.prototype] itself (under [__proto__]), or the function that
    [Object.prototype] holds under [name]. *)
Inductive Value : Type :=
| Prim (v : JsVal)
| ObjectPrototype
| Builtin (name : string).

(** ToBoolean: an object or a function is truthy. *)
Definition truthyValue (v : Value) : bool :=
  match v with
  | Prim p => truthy p
  | ObjectPrototype | Builtin _ => true
  end.

(** [v || d]. *)
Definition valueOr (v : Value) (d : JsVal) : Value :=
  if truthyValue v then v else Prim d.

(** [String(v)]. *)
Definition valueToString (env : Env) (v : Value) : string :=
  match v with
  | Prim p => toString env p
  | ObjectPrototype => "[object Object]"
  | Builtin name => builtinToString env name
  end.

(** [Object.prototype[k]]. *)
Definition protoGet (k : string) : Value :=
  if String.eqb k "__proto__" then ObjectPrototype
  else if existsb (String.eqb k) prototypeNames then Builtin k
  else Prim JUndefined.

(** [o[k]] on a row object: an own property, or what the prototype
    holds. *)
Definition rowGet (o : Obj JsVal) (k : string) : Value :=
  match objGet o k with
  | Some v => Prim v
  | None => protoGet k
  end.

(** A name that is an array index: the decimal digits, without a leading
    zero, of an integer below 2^32 - 1. *)
Definition arrayIndex (k : string) : option N :=
  match NilEmpty.uint_of_string k with
  | Some digits =>
      let n := N.of_uint digits in
      if String.eqb (NilEmpty.string_of_uint (N.to_uint n)) k
         && (n <? 4294967295)%N
      then Some n else None
  | None => None
  end.

Definition isArrayIndex (k : string) : bool :=
  match arrayIndex k with
  | Some _ => true
  | None => false
  end.

(** A new property named by the array index [n] goes before the first
    property that is no array index or a greater one. *)
Fixpoint insertIndex (n : N) (k : string) (v : JsVal) (o : Obj JsVal)
    : Obj JsVal :=
  match o with
  | [] => [(k, v)]
  | (k', v') :: o' =>
      match arrayIndex k' with
      | Some n' =>
          if (n' <? n)%N then (k', v') :: insertIndex n k v o'
          else (k, v) :: o
      | None => (k, v) :: o
      end
  end.

(** [o[k] = v] on a row object, for a primitive [v]: an own property is
    overwritten where it is; otherwise the setter of [__proto__] ignores
    the primitive, and any other name becomes a new property. *)
Definition rowSet (o : Obj JsVal) (k : string) (v : JsVal) : Obj JsVal :=
  match objGet o k with
  | Some _ => objSet o k v
  | None =>
      if String.eqb k "__proto__" then o
      else
        match arrayIndex k with
        | Some n => insertIndex n k v o
        | None => o ++ [(k, v)]
        end
  end.

(** [n || d] on numbers, and on an optional numeric property. *)
Definition numOr (n d : Q) : Q := if Qeq_bool n 0 then d else n.

Definition optNumOr (n : option Q) (d : Q) : Q :=
  match n with
  | Some q => numOr q d
  | None => d
  end.

(** ** [getFontBytes] (pdf-generator.ts) *)

(** [fontCache]: family name to font bytes. *)
Definition FontCache : Type := Obj Bytes.

Definition fontPaths : Obj string :=
  [ ("Inter", "/fonts/Inter-Regular.ttf");
    ("Inter-Bold", "/fonts/Inter-Regular.ttf");
    ("Roboto", "/fonts/Inter-Regular.ttf");
    ("Arial", "/fonts/Inter-Regular.ttf") ].

(** [fontPaths[fontFamily] || fontPaths['Inter']]. *)
Definition fontPath (fontFamily : string) : string :=
  match objGet fontPaths fontFamily with
  | Some p => p
  | None =>
      match objGet fontPaths "Inter" with
      | Some p => p
      | None => "undefined"
      end
  end.

(** One activation of [getFontBytes]; [fallback] is the recursive call
    [getFontBytes('Inter')] of the [catch] branch. *)
Definition getFontBytesWith (env : Env)
    (fallback : FontCache -> FontCache * option Bytes)
    (fontFamily : string) (cache : FontCache) : FontCache * option Bytes :=
  match objGet cache fontFamily with
  | Some bytes => (cache, Some bytes)
  | None =>
      match fetchFont env (fontPath fontFamily) with
      | Some bytes => (objSet cache fontFamily bytes, Some bytes)
      | None =>
          if negb (String.eqb fontFamily "Inter")
          then fallback cache
          else (cache, None)
      end
  end.

(** The recursion of [getFontBytes] is at most one call deep: the inner
    call is made with ['Inter'], for which the [catch] branch throws
    instead of calling again. *)
Definition getFontBytes (env : Env) (fontFamily : string) (cache : FontCache)
    : FontCache * option Bytes :=
  getFontBytesWith env
    (getFontBytesWith env (fun c => (c, None)) "Inter")
    fontFamily cache.

(** ** [generatePDFs] (pdf-generator.ts) *)

(** What the body of the field loop reads and mutates: the module-level
    [fontCache], this row's [loadedFonts] and this row's [pdfDoc]. *)
Record State : Type := mkState {
  stCache : FontCache;
  stFonts : Obj Font;
  stDoc : PdfDoc
}.

Definition withCache (st : State) (c : FontCache) : State :=
  mkState c (stFonts st) (stDoc st).

(** A successful [embedFont] registers the font in the document. *)
Definition withFont (st : State) (fontName : string) (f : Font) : State :=
  mkState (stCache st) (objSet (stFonts st) fontName f)
          (mkDoc (docPages (stDoc st)) (docFonts (stDoc st) ++ [f])
                 (docOps (stDoc st))).

Definition withOp (st : State) (op : DrawOp) : State :=
  mkState (stCache st) (stFonts st)
          (mkDoc (docPages (stDoc st)) (docFonts (stDoc st))
                 (docOps (stDoc st) ++ [op])).

Section Generate.
Variable env : Env.

(** "Font yukleme ve cache": the font for [fontName], from [loadedFonts]
    or loaded and embedded.  [None] is an exception, raised after the
    mutations recorded in the returned state. *)
Definition resolveFont (fontName : string) (st : State) : State * option Font :=
  match objGet (stFonts st) fontName with
  | Some customFont => (st, Some customFont)
  | None =>
      let (cache', fontBytes) := getFontBytes env fontName (stCache st) in
      let st1 := withCache st cache' in
      match fontBytes with
      | None => (st1, None)
      | Some bytes =>
          match embedFont env bytes with
          | None => (st1, None)
          | Some customFont => (withFont st1 fontName customFont, Some customFont)
          end
      end
  end.

(** [field.fontFamily || 'Inter']. *)
Definition fontNameOf (field : PDFField.t) : string :=
  if String.eqb (PDFField.fontFamily field) "" then "Inter"
  else PDFField.fontFamily field.

(** The arguments that the [try] block computes for [page.drawText], from
    [pdfX] to the options object; [None] when [rgb] throws. *)
Definition textArgs (field : PDFField.t) (pageIndex : nat) (page : Size.t)
    (scaleFactor : Q) (value : string) (customFont : Font) : option TextOp :=
  let pdfX := (PDFField.x field * scaleFactor)%Q in
  let pdfFontSize :=
    (numOr (PDFField.fontSize field) 12
     * optNumOr (PDFField.scaleX field) 1 * scaleFactor)%Q in
  let fontHeightInPdf := heightAtSize customFont pdfFontSize in
  let pdfY :=
    (Size.height page - (PDFField.y field * scaleFactor)
     - fontHeightInPdf * 0.8)%Q in
  let color := Color.hexToRgb (PDFField.fill field) in
  match Color.rgb (Color.r color) (Color.g color) (Color.b color) with
  | None => None
  | Some c =>
      Some (mkTextOp pageIndex value pdfX pdfY customFont pdfFontSize c
                     (- optNumOr (PDFField.angle field) 0)%Q)
  end.

(** The [try] block of the field loop; a [catch] leaves the state as the
    block had mutated it so far. *)
Definition tryDrawField (field : PDFField.t) (pageIndex : nat)
    (page : Size.t) (scaleFactor : Q) (value : string) (st : State) : State :=
  match resolveFont (fontNameOf field) st with
  | (st1, None) => st1
  | (st1, Some customFont) =>
      match textArgs field pageIndex page scaleFactor value customFont with
      | None => st1
      | Some op =>
          if drawTextOk env op then withOp st1 (DrawText op) else st1
      end
  end.

(** [String(row[field.columnName] || '')]. *)
Definition valueOf (row : Obj JsVal) (field : PDFField.t) : string :=
  valueToString env (valueOr (rowGet row (PDFField.columnName field)) (JStr "")).

(** The body of [for (const field of fields)]; every [continue] returns
    the state unchanged. *)
Definition drawField (previewSizes : PreviewSizes) (row : Obj JsVal)
    (field : PDFField.t) (st : State) : State :=
  let pages := docPages (stDoc st) in
  let pageIndex := (PDFField.pageIndex field - 1)%Z in
  if (pageIndex <? 0)%Z || (Z.of_nat (List.length pages) <=? pageIndex)%Z
  then st
  else
    match nth_error pages (Z.to_nat pageIndex) with
    | None => st
    | Some page =>
        match sizesGet previewSizes (PDFField.pageIndex field) with
        | None => st
        | Some previewSize =>
            let scaleFactor := (Size.width page / Size.width previewSize)%Q in
            let value := valueOf row field in
            if String.eqb value "" || String.eqb value "undefined"
            then st
            else tryDrawField field (Z.to_nat pageIndex) page scaleFactor value st
        end
    end.

Definition drawFields (previewSizes : PreviewSizes) (row : Obj JsVal)
    (fields : list PDFField.t) (st : State) : State :=
  fold_left (fun st field => drawField previewSizes row field st) fields st.

(** The body of the row loop: the [try] block up to [pdfDoc.save()].
    [None] is a row that ended in the [catch]; the font cache keeps what
    the row added to it. *)
Definition processRow (templateBytes : Bytes) (fields : list PDFField.t)
    (previewSizes : PreviewSizes) (row : Obj JsVal) (cache : FontCache)
    : FontCache * option Bytes :=
  match load env templateBytes with
  | None => (cache, None)
  | Some pages =>
      let st := drawFields previewSizes row fields
                  (mkState cache [] (mkDoc pages [] [])) in
      (stCache st, save env (stDoc st))
  end.

(** The row loop, with the accumulator [pdfs] that [push] extends. *)
Fixpoint generateLoop (templateBytes : Bytes) (fields : list PDFField.t)
    (previewSizes : PreviewSizes) (rows : list (Obj JsVal))
    (cache : FontCache) (pdfs : list Bytes) : FontCache * list Bytes :=
  match rows with
  | [] => (cache, pdfs)
  | row :: rest =>
      match processRow templateBytes fields previewSizes row cache with
      | (cache', Some pdfBytes) =>
          generateLoop templateBytes fields previewSizes rest cache'
                       (pdfs ++ [pdfBytes])
      | (cache', None) =>
          generateLoop templateBytes fields previewSizes rest cache' pdfs
      end
  end.

(** [generatePDFs]; [cache] is the content of [fontCache] at the call. *)
Definition generatePDFs (templateFile : Bytes) (excelData : ExcelData.t)
    (fields : list PDFField.t) (previewSizes : PreviewSizes)
    (cache : FontCache) : list Bytes :=
  snd (generateLoop templateFile fields previewSizes
                    (ExcelData.rows excelData) cache []).

End Generate.

(** ** [createZipArchive] (zip-archiver.ts) *)

(** [String(n)] for a non-negative integer. *)
Definition natToString (n : nat) : string :=
  NilEmpty.string_of_uint (Nat.to_uint n).

(** The first [k] characters of [fill] repeated. *)
Definition fillTo (k : nat) (fill : string) : string :=
  substring 0 k (String.concat "" (repeat fill k)).

(** [s.padStart(targetLength, fill)]. *)
Definition padStart (s : string) (targetLength : nat) (fill : string) : string :=
  if (targetLength <=? String.length s)%nat || String.eqb fill ""
  then s
  else fillTo (targetLength - String.length s) fill ++ s.

(** The template literal of the [forEach] callback. *)
Definition zipFileName (baseFileName : string) (index : nat) : string :=
  baseFileName ++ "_" ++ padStart (natToString (index + 1)) 3 "0" ++ ".pdf".

(** [pdfBuffers.forEach((pdfBytes, index) => zip.file(fileName, pdfBytes))]
    from position [index] on; [zip.file] assigns into the archive's file
    table.  A name made by [zipFileName] ends in [.pdf], so it is neither
    an array index nor a member of [Object.prototype].  The folder entries
    that JSZip adds for a name with a slash in it are not modelled. *)
Fixpoint zipForEach (zip : Obj Bytes) (baseFileName : string) (index : nat)
    (pdfBuffers : list Bytes) : Obj Bytes :=
  match pdfBuffers with
  | [] => zip
  | pdfBytes :: rest =>
      zipForEach (objSet zip (zipFileName baseFileName index) pdfBytes)
                 baseFileName (S index) rest
  end.

(** The file table of the archive when [generateAsync] is called. *)
Definition zipEntries (pdfBuffers : list Bytes) (baseFileName : string) : Obj Bytes :=
  zipForEach [] baseFileName 0 pdfBuffers.

Definition createZipArchive (env : Env) (pdfBuffers : list Bytes)
    (baseFileName : option string) : option Bytes :=
  let baseFileName :=
    match baseFileName with Some n => n | None => "document" end in
  zipGenerate env (zipEntries pdfBuffers baseFileName).

(** The number that a string of decimal digits denotes, leading zeros
    allowed; [None] when a character is not a digit. *)
Definition readNat (s : string) : option nat :=
  option_map Nat.of_uint (NilEmpty.uint_of_string s).

(** ** [parseExcelFile] (excel-parser.ts) *)

(** [XLSX.utils.sheet_to_json(worksheet, { header: 1 })]: an array of rows,
    each an array of cell values. *)
Definition Sheet : Type := list (list JsVal).

(** The errors thrown inside [reader.onload]: "Sheet ... not found in the
    Excel file." and "Selected Excel sheet is empty.". *)
Inductive ParseError : Type :=
| SheetNotFound (sheetName : string)
| SheetEmpty.

(** [row[index]] on an array. *)
Definition cellAt (row : list JsVal) (index : nat) : JsVal :=
  nth index row JUndefined.

Section Parse.
Variable env : Env.

(** The [forEach] over [headers] that fills [rowObj], from position
    [index] on. *)
Fixpoint fillRow (rowObj : Obj JsVal) (row : list JsVal) (index : nat)
    (headers : list JsVal) : Obj JsVal :=
  match headers with
  | [] => rowObj
  | header :: rest =>
      fillRow (rowSet rowObj (toString env header)
                      (jsOr (cellAt row index) (JStr "")))
              row (S index) rest
  end.

(** The callback of [map]. *)
Definition toRowObj (headers : list JsVal) (row : list JsVal) : Obj JsVal :=
  fillRow [] row 0 headers.

(** The callback of the final [filter]. *)
Definition keepRow (row : Obj JsVal) : bool :=
  existsb notEmptyStr (objValues row).

(** The [try] block of [reader.onload], from the decoded workbook on;
    [inl] is the rejection. *)
Definition parseExcelFile (workbook : Obj Sheet) (sheetName : string)
    : ParseError + ExcelData.t :=
  match objGet workbook sheetName with
  | None => inl (SheetNotFound sheetName)
  | Some jsonData =>
      match jsonData with
      | [] => inl SheetEmpty
      | first :: others =>
          let headers := filter truthy first in
          let rows := filter keepRow (map (toRowObj headers) others) in
          inr (ExcelData.mk headers headers rows)
      end
  end.

End Parse.

(** ** [Step3Generate] (components/steps/Step3Generate.tsx) *)

Module Step3.

(** The component state that [handleGenerate] sets. *)
Record UiState : Type := mkUi {
  isGenerating : bool;
  progress : nat;
  isComplete : bool;
  error : option string
}.

(** [err instanceof Error ? err.message : 'An unknown error occurred']. *)
Definition errorText (err : Thrown) : string :=
  match err with
  | ThrownError message => message
  | ThrownOther => "An unknown error occurred"
  end.

(** What [handleGenerate] leaves behind: the state, and the archive
    handed to [downloadZipFile], if any.  [generatePDFs] catches every
    exception of its collaborators, so the [catch] is reached from
    [createZipArchive] only. *)
Definition handleGenerate (env : Env) (pdfFile : Bytes)
    (excelData : ExcelData.t) (fields : list PDFField.t)
    (previewSizes : PreviewSizes) (cache : FontCache)
    : UiState * option Bytes :=
  let pdfBuffers := generatePDFs env pdfFile excelData fields previewSizes cache in
  match createZipArchive env pdfBuffers (Some "FormWeaver_Documents") with
  | Some zipBlob => (mkUi false 100 true None, Some zipBlob)
  | None =>
      let err := zipRejects env (zipEntries pdfBuffers "FormWeaver_Documents") in
      (mkUi false 80 false (Some (errorText err)), None)
  end.

(** The number rendered above "Documents Created" and in
    "... PDF documents have been created" once [isComplete] holds. *)
Definition documentsCreated (excelData : ExcelData.t) : nat :=
  List.length (ExcelData.rows excelData).

End Step3.

(** ** [Step2Editor] (components/steps/Step2Editor.tsx)

    A canvas object is modelled by the properties that
    [toObject(['data', 'fill', 'fontSize', 'fontFamily'])] gives for it, and
    [enlivenObjects] by the identity on them.  fabric's [toObject] gives
    the position, the size, the scales and the angle rounded to two
    decimals ([toFixed2] below).  The selection, the page images and the
    rendering are not modelled. *)

Module Editor.

(** [obj.data], as [addFieldToCanvas] sets it. *)
Record FieldData : Type := mkData {
  id : string;
  columnName : string;
  isQRCode : bool;
  pageIndex : nat
}.

Record FabricObject : Type := mkObject {
  data : option FieldData;
  left : Q;
  top : Q;
  width : Q;
  height : Q;
  scaleX : Q;
  scaleY : Q;
  angle : Q;
  fontSize : Q;
  fill : string;
  fontFamily : string;
  textAlign : option TextAlign;
  fontWeight : option FontWeight;
  fontStyle : option FontStyle
}.

(** The canvas: [getObjects()], [getWidth()], [getHeight()]. *)
Record Canvas : Type := mkCanvas {
  getObjects : list FabricObject;
  getWidth : Q;
  getHeight : Q
}.

End Editor.

Module PageState.
(** An entry of [canvasStates]. *)
Record t : Type := mk {
  objects : list Editor.FabricObject;
  width : Q;
  height : Q
}.
End PageState.

(** [canvasStates]: an object keyed by page number. *)
Definition CanvasStates : Type := list (nat * PageState.t).

Fixpoint statesGet (states : CanvasStates) (k : nat) : option PageState.t :=
  match states with
  | [] => None
  | (k', st) :: rest => if Nat.eqb k' k then Some st else statesGet rest k
  end.

(** [{ ...prev, [k]: st }]. *)
Fixpoint statesSet (states : CanvasStates) (k : nat) (st : PageState.t)
    : CanvasStates :=
  match states with
  | [] => [(k, st)]
  | (k', st') :: rest =>
      if Nat.eqb k' k then (k', st) :: rest else (k', st') :: statesSet rest k st
  end.

(** The page numbers that [Object.keys] lists, which for integer keys is
    in ascending order. *)
Definition stateKeys (states : CanvasStates) : list nat :=
  filter (fun k => match statesGet states k with Some _ => true | None => false end)
         (seq 0 (S (list_max (map fst states)))).

(** [Object.keys(finalCanvasStates)]. *)
Definition objectKeys (states : CanvasStates) : list string :=
  map natToString (stateKeys states).

(** [previewSizesMap[k] = size]. *)
Fixpoint sizesSet (ps : PreviewSizes) (k : Z) (size : Size.t) : PreviewSizes :=
  match ps with
  | [] => [(k, size)]
  | (k', s') :: rest =>
      if Z.eqb k' k then (k', size) :: rest else (k', s') :: sizesSet rest k size
  end.

(** [s || d] on strings. *)
Definition strOr (s d : string) : string := if String.eqb s "" then d else s.

(** Whether a number is truthy. *)
Definition nonZero (q : Q) : bool := negb (Qeq_bool q 0).

Section EditorOps.
Import Editor.

(** [obj.data && obj.data.columnName && obj.data.pageIndex === currentPage]. *)
Definition onPage (currentPage : nat) (obj : FabricObject) : bool :=
  match data obj with
  | Some d => negb (String.eqb (columnName d) "") && Nat.eqb (pageIndex d) currentPage
  | None => false
  end.

(** [objData.data && objData.data.pageIndex === currentPage]. *)
Definition taggedFor (currentPage : nat) (objData : FabricObject) : bool :=
  match data objData with
  | Some d => Nat.eqb (pageIndex d) currentPage
  | None => false
  end.

(** The id that the template literal makes. *)
Definition freshId (page : nat) (column : string) (now : nat) : string :=
  "field_" ++ natToString page ++ "_" ++ column ++ "_" ++ natToString now.

(** The [PDFField] literal of [handleNext]; [now] is [Date.now()]. *)
Definition toField (page : nat) (now : nat) (obj : FabricObject)
    (d : FieldData) : PDFField.t :=
  PDFField.mk
    (strOr (id d) (freshId page (columnName d) now))
    (columnName d)
    (isQRCode d)
    (Z.of_nat page)
    (numOr (left obj) 0)
    (numOr (top obj) 0)
    (numOr (width obj) 100)
    (numOr (height obj) 20)
    (Some (numOr (scaleX obj) 1))
    (Some (numOr (scaleY obj) 1))
    (Some (numOr (angle obj) 0))
    (numOr (fontSize obj) 12)
    (Some (strOr (fill obj) "#000000"))
    None
    (strOr (fontFamily obj) "Inter")
    (match textAlign obj with Some a => a | None => AlignLeft end)
    (match fontWeight obj with Some w => w | None => WeightNormal end)
    (match fontStyle obj with Some f => f | None => StyleNormal end)
    None.

(** [state.objects.forEach(...)]: the fields pushed for one page. *)
Definition fieldsOf (page : nat) (now : nat) (objs : list FabricObject)
    : list PDFField.t :=
  flat_map (fun obj =>
              match data obj with
              | Some d =>
                  if negb (String.eqb (columnName d) "")
                  then [toField page now obj d] else []
              | None => []
              end) objs.

(** The callback of [Object.keys(finalCanvasStates).forEach]. *)
Definition nextStep (canvas : Canvas) (currentPage : nat)
    (finalCanvasStates : CanvasStates) (now : nat)
    (acc : list PDFField.t * PreviewSizes) (pageIndexStr : string)
    : list PDFField.t * PreviewSizes :=
  match readNat pageIndexStr with
  | None => acc
  | Some page =>
      let state := statesGet finalCanvasStates page in
      let finalFields :=
        match state with
        | Some st => fst acc ++ fieldsOf page now (PageState.objects st)
        | None => fst acc
        end in
      let previewSizesMap :=
        if Nat.eqb page currentPage
        then sizesSet (snd acc) (Z.of_nat page)
                      (Size.mk (getWidth canvas) (getHeight canvas))
        else
          match state with
          | Some st =>
              if nonZero (PageState.width st) && nonZero (PageState.height st)
              then sizesSet (snd acc) (Z.of_nat page)
                            (Size.mk (PageState.width st) (PageState.height st))
              else snd acc
          | None => snd acc
          end in
      (finalFields, previewSizesMap)
  end.

(** The preview size that the callback records for [page], if any. *)
Definition sizeChoice (canvas : Canvas) (currentPage : nat)
    (finalCanvasStates : CanvasStates) (page : nat) : option Size.t :=
  if Nat.eqb page currentPage
  then Some (Size.mk (getWidth canvas) (getHeight canvas))
  else
    match statesGet finalCanvasStates page with
    | Some st =>
        if nonZero (PageState.width st) && nonZero (PageState.height st)
        then Some (Size.mk (PageState.width st) (PageState.height st))
        else None
    | None => None
    end.

(** The fields that the callback pushes for [page]. *)
Definition pageFields (finalCanvasStates : CanvasStates) (now : nat)
    (page : nat) : list PDFField.t :=
  match statesGet finalCanvasStates page with
  | Some st => fieldsOf page now (PageState.objects st)
  | None => []
  end.

(** The snapshot of the current page that [changePage] and [handleNext]
    take of the canvas. *)
Definition snapshot (canvas : Canvas) (currentPage : nat) : PageState.t :=
  PageState.mk (filter (onPage currentPage) (getObjects canvas))
               (getWidth canvas) (getHeight canvas).

(** [handleNext]: what is handed to [onFieldsConfigured], or [None] when
    the handler returns at once. *)
Definition handleNext (fabricCanvas : option Canvas) (currentPage : nat)
    (canvasStates : CanvasStates) (now : nat)
    : option (list PDFField.t * PreviewSizes) :=
  match fabricCanvas with
  | None => None
  | Some canvas =>
      let finalCanvasStates :=
        statesSet canvasStates currentPage (snapshot canvas currentPage) in
      Some (fold_left (nextStep canvas currentPage finalCanvasStates now)
                      (objectKeys finalCanvasStates) ([], []))
  end.

(** The component state that the handlers below read and set. *)
Record EditorState : Type := mkEditor {
  fabricCanvas : option Canvas;
  currentPage : nat;
  canvasStates : CanvasStates
}.

(** [changePage]. *)
Definition changePage (newPage : nat) (s : EditorState) : EditorState :=
  match fabricCanvas s with
  | None => s
  | Some canvas =>
      if Nat.eqb newPage (currentPage s) then s
      else
        mkEditor (Some (mkCanvas [] (getWidth canvas) (getHeight canvas)))
                 newPage
                 (statesSet (canvasStates s) (currentPage s)
                            (snapshot canvas (currentPage s)))
  end.

(** A run of [resizeAndDraw] that is not cancelled; [img] is the size of
    the page image, [None] when there is no image for the page or it does
    not load.  The objects come back in the order of the snapshot. *)
Definition resizeAndDraw (containerWidth : Q) (img : option Size.t)
    (s : EditorState) : EditorState :=
  match fabricCanvas s, img with
  | Some canvas, Some image =>
      if nonZero (Size.width image) && nonZero (Size.height image) then
        let scale := (containerWidth / Size.width image)%Q in
        let canvasHeight := (Size.height image * scale)%Q in
        if Qle_bool containerWidth 0 || Qle_bool canvasHeight 0 then s
        else
          let restored :=
            match statesGet (canvasStates s) (currentPage s) with
            | Some st => filter (taggedFor (currentPage s)) (PageState.objects st)
            | None => []
            end in
          mkEditor (Some (mkCanvas restored containerWidth canvasHeight))
                   (currentPage s) (canvasStates s)
      else s
  | _, _ => s
  end.

(** [handleDragStart]: what the drag carries. *)
Definition handleDragStart (column : string) (qr : bool) : Obj string :=
  objSet (objSet [] "columnName" column) "isQRCode"
         (if qr then "true" else "false").

(** [e.dataTransfer.getData(key)]. *)
Definition getData (dataTransfer : Obj string) (key : string) : string :=
  match objGet dataTransfer key with
  | Some v => v
  | None => ""
  end.

(** fabric's [toFixed(number, 2)], that is
    [parseFloat(Number(number).toFixed(2))]: the multiple of 1/100 nearest
    to [q], a tie going away from zero. *)
Definition toFixed2 (q : Q) : Q :=
  let n := inject_Z (Qfloor (Qabs q * 100 + (1 # 2))) in
  if Qle_bool 0 q then n / 100 else - (n / 100).

(** [addFieldToCanvas]: a drop at [(x, y)] relative to the canvas.  The
    text box has the properties given in [options] and fabric's defaults
    (scale 1, angle 0) for the others; [laidOut] is the size that fabric
    gives it.  What is recorded is the [toObject] form of the box. *)
Definition addFieldToCanvas (dataTransfer : Obj string) (x y : Q) (now : nat)
    (laidOut : Size.t) (s : EditorState) : EditorState :=
  match fabricCanvas s with
  | None => s
  | Some canvas =>
      let column := getData dataTransfer "columnName" in
      let qr := String.eqb (getData dataTransfer "isQRCode") "true" in
      let textObject :=
        mkObject
          (Some (mkData (freshId (currentPage s) column now) column qr
                        (currentPage s)))
          (toFixed2 x) (toFixed2 y)
          (toFixed2 (Size.width laidOut)) (toFixed2 (Size.height laidOut))
          1 1 0
          12 "#000000" "Inter"
          (Some AlignLeft) (Some WeightNormal) (Some StyleNormal) in
      mkEditor (Some (mkCanvas (getObjects canvas ++ [textObject])
                               (getWidth canvas) (getHeight canvas)))
               (currentPage s) (canvasStates s)
  end.

(** What can happen while a page stays the current one: a field is
    dropped, or the page is redrawn. *)
Inductive PageEvent : Type :=
| DropField (dataTransfer : Obj string) (x y : Q) (now : nat) (laidOut : Size.t)
| Redraw (containerWidth : Q) (img : option Size.t).

Definition pageEvent (s : EditorState) (e : PageEvent) : EditorState :=
  match e with
  | DropField dataTransfer x y now laidOut =>
      addFieldToCanvas dataTransfer x y now laidOut s
  | Redraw containerWidth img => resizeAndDraw containerWidth img s
  end.

(** A page image that loads, in a container in which it shows. *)
Definition drawable (containerWidth : Q) (image : Size.t) : Prop :=
  nonZero (Size.width image) && nonZero (Size.height image) = true /\
  Qle_bool containerWidth 0 = false /\
  Qle_bool (Size.height image * (containerWidth / Size.width image)) 0 = false.

End EditorOps.

(** ** [Home] (app/page.tsx)

    The step handlers and what the component renders.  The asynchronous
    [handleFilesUploaded] runs in two parts, before and after its [await];
    the calls that wait for [parseExcelFile] are kept beside the component
    state.  The storage and garbage collection calls of [handleReset] are
    not modelled. *)

Module Wizard.

Record App : Type := mkApp {
  currentStep : nat;
  pdfFile : option Bytes;
  excelData : option ExcelData.t;
  fields : list PDFField.t;
  previewSizes : PreviewSizes;
  isLoading : bool
}.

(** The initial values of the [useState] calls. *)
Definition initial : App := mkApp 1 None None [] [] false.

(** [handleFilesUploaded] up to its [await]: [setIsLoading(true)]. *)
Definition handleFilesUploaded_start (app : App) : App :=
  mkApp (currentStep app) (pdfFile app) (excelData app) (fields app)
        (previewSizes app) true.

(** [handleFilesUploaded] from its [await] on, once [parseExcelFile] has
    settled: the [try] block or the [catch], then the [finally]. *)
Definition handleFilesUploaded_resume (env : Env) (excel : Obj Sheet)
    (pdf : Bytes) (sheet : string) (app : App) : App :=
  match parseExcelFile env excel sheet with
  | inr data =>
      mkApp 2 (Some pdf) (Some data) (fields app) (previewSizes app) false
  | inl _ =>
      mkApp (currentStep app) (pdfFile app) (excelData app) (fields app)
            (previewSizes app) false
  end.

Definition handleFieldsConfigured (configuredFields : list PDFField.t)
    (sizes : PreviewSizes) (app : App) : App :=
  mkApp 3 (pdfFile app) (excelData app) configuredFields sizes (isLoading app).

Definition handleBackToUpload (app : App) : App :=
  mkApp 1 (pdfFile app) (excelData app) (fields app) (previewSizes app)
        (isLoading app).

Definition handleBackToEditor (app : App) : App :=
  mkApp 2 (pdfFile app) (excelData app) (fields app) (previewSizes app)
        (isLoading app).

Definition handleReset (app : App) : App := mkApp 1 None None [] [] false.

(** What [Home] returns. *)
Inductive Screen : Type :=
| Processing
| Upload
| EditorScreen (excelData : ExcelData.t) (pdfFile : Bytes)
| Generate (excelData : ExcelData.t) (pdfFile : Bytes)
           (fields : list PDFField.t) (previewSizes : PreviewSizes)
| Blank.

Definition render (app : App) : Screen :=
  if isLoading app then Processing
  else
    match currentStep app, excelData app, pdfFile app with
    | 1%nat, _, _ => Upload
    | 2%nat, Some data, Some pdf => EditorScreen data pdf
    | 3%nat, Some data, Some pdf =>
        Generate data pdf (fields app) (previewSizes app)
    | _, _, _ => Blank
    end.

(** A call of [handleFilesUploaded] that waits at its [await]. *)
Record Waiting : Type := mkWaiting {
  excel : Obj Sheet;
  pdf : Bytes;
  sheet : string
}.

(** The component state and the calls that wait. *)
Record Session : Type := mkSession {
  app : App;
  awaiting : list Waiting
}.

Definition start : Session := mkSession initial [].

(** The callbacks that the rendered step component can call
    ([onFilesUploaded] of [Step1Upload], [onFieldsConfigured] and [onBack]
    of [Step2Editor], [onReset] of [Step3Generate]), and the settling of
    the [i]-th waiting call.  [handleBackToEditor] is passed to no
    component. *)
Inductive Event : Type :=
| FilesUploaded (excel : Obj Sheet) (pdf : Bytes) (sheet : string)
| Settled (i : nat)
| FieldsConfigured (configuredFields : list PDFField.t) (sizes : PreviewSizes)
| Back
| Reset.

(** A callback reaches its handler only when the component that raises it
    is on screen; a waiting call resumes whatever is on screen. *)
Definition step (env : Env) (s : Session) (e : Event) : Session :=
  match e with
  | Settled i =>
      match nth_error (awaiting s) i with
      | Some call =>
          mkSession (handleFilesUploaded_resume env (excel call) (pdf call)
                                                (sheet call) (app s))
                    (firstn i (awaiting s) ++ skipn (S i) (awaiting s))
      | None => s
      end
  | FilesUploaded excel pdf sheet =>
      match render (app s) with
      | Upload =>
          mkSession (handleFilesUploaded_start (app s))
                    (awaiting s ++ [mkWaiting excel pdf sheet])
      | _ => s
      end
  | FieldsConfigured configuredFields sizes =>
      match render (app s) with
      | EditorScreen _ _ =>
          mkSession (handleFieldsConfigured configuredFields sizes (app s))
                    (awaiting s)
      | _ => s
      end
  | Back =>
      match render (app s) with
      | EditorScreen _ _ => mkSession (handleBackToUpload (app s)) (awaiting s)
      | _ => s
      end
  | Reset =>
      match render (app s) with
      | Generate _ _ _ _ => mkSession (handleReset (app s)) (awaiting s)
      | _ => s
      end
  end.

Definition run (env : Env) (events : list Event) : Session :=
  fold_left (step env) events start.

(** What every session reached from the start satisfies: a call waits
    exactly while [isLoading] is set, and then it is the only one; the
    step is 1, 2 or 3, and past step 1 the sheet and the template are
    there. *)
Definition sessionOk (s : Session) : Prop :=
  ((awaiting s = [] /\ isLoading (app s) = false) \/
   (exists call, awaiting s = [call] /\ isLoading (app s) = true)) /\
  (currentStep (app s) = 1 \/ currentStep (app s) = 2
   \/ currentStep (app s) = 3)%nat /\
  (currentStep (app s) <> 1%nat ->
   excelData (app s) <> None /\ pdfFile (app s) <> None).

End Wizard.

(** ** [validateExcelFile] (excel-parser.ts) *)

Module File.
(** What the validation reads of a [File]. *)
Record t : Type := mk { name : string; type : string; size : N }.
End File.

Definition validTypes : list string :=
  [ "application/vnd.openxmlformats-officedocument.spreadsheetml.sheet";
    "application/vnd.ms-excel" ].

(** The message returned, or [None] for [null]. *)
Definition validateExcelFile (file : File.t) : option string :=
  if negb (existsb (String.eqb (File.type file)) validTypes)
  then Some "Please select a valid Excel file (.xlsx or .xls)"
  else if (10 * 1024 * 1024 <? File.size file)%N
       then Some "File size must be less than 10MB"
       else None.

(** The two rows of hexadecimal digits, by value. *)
Definition lowerDigits : list ascii := list_ascii_of_string "0123456789abcdef".
Definition upperDigits : list ascii := list_ascii_of_string "0123456789ABCDEF".

(** ** Font cache and row state: auxiliary notions *)

(** The one font file that [fontPaths] names. *)
Definition interFile : string := "/fonts/Inter-Regular.ttf".

(** A font cache that holds, under each family, what fetching that family's
    file gives. *)
Definition cacheOk (env : Env) (cache : FontCache) : Prop :=
  forall fontFamily bytes,
    objGet cache fontFamily = Some bytes ->
    fetchFont env (fontPath fontFamily) = Some bytes.

(** The state of a row before its first field. *)
Definition rowStart (cache : FontCache) (pages : list Size.t) : State :=
  mkState cache [] (mkDoc pages [] []).

(** The text operations among [ops]. *)
Fixpoint textOps (ops : list DrawOp) : list TextOp :=
  match ops with
  | [] => []
  | DrawText t :: rest => t :: textOps rest
  | DrawImage _ _ _ _ _ _ :: rest => textOps rest
  end.

(** What a text operation drawn for [field] on a document of [pageCount]
    pages looks like: the text is the row's value for the field's column,
    which is neither empty nor "undefined", the page is the field's page
    and exists, and the writer accepted the call. *)
Definition drawnFor (env : Env) (row : Obj JsVal) (pageCount : nat)
    (field : PDFField.t) (t : TextOp) : Prop :=
  opText t = valueOf env row field /\
  opText t <> "" /\ opText t <> "undefined" /\
  Z.of_nat (opPage t) = (PDFField.pageIndex field - 1)%Z /\
  (opPage t < pageCount)%nat /\
  drawTextOk env t = true.

(** Two states of the field loop that differ at most in the font cache,
    both caches agreeing with [fetch]. *)
Definition sameRow (env : Env) (a b : State) : Prop :=
  stFonts a = stFonts b /\ stDoc a = stDoc b /\
  cacheOk env (stCache a) /\ cacheOk env (stCache b).

(** No font can be had: the font file cannot be fetched, or what is
    fetched cannot be embedded. *)
Definition noFont (env : Env) : Prop :=
  match fetchFont env interFile with
  | Some bytes => embedFont env bytes = None
  | None => True
  end.





(** The draw operations of a field loop that drew [drawn], a list with one
    entry per field: the text drawn for the field, if any. *)
Definition drawnOps (drawn : list (option TextOp)) : list DrawOp :=
  flat_map (fun o => match o with
                     | Some t => [DrawText t]
                     | None => []
                     end) drawn.

(** The order in which the properties of an object are listed: array
    indices in ascending order, before every other name. *)
Definition keyBefore (a b : string) : Prop :=
  match arrayIndex a, arrayIndex b with
  | Some m, Some n => (m < n)%N
  | Some _, None => True
  | None, Some _ => False
  | None, None => True
  end.

(** ** Row outcomes

    The outcome of each row of a batch, in input order: [Some] buffer for a
    row that reached [pdfs.push], [None] for a row that ended in the
    [catch].  Each row runs with the font cache the rows before it left. *)

Fixpoint rowOutcomes (env : Env) (templateBytes : Bytes)
    (fields : list PDFField.t) (previewSizes : PreviewSizes)
    (rows : list (Obj JsVal)) (cache : FontCache) : list (option Bytes) :=
  match rows with
  | [] => []
  | row :: rest =>
      let (cache', out) := processRow env templateBytes fields previewSizes row cache in
      out :: rowOutcomes env templateBytes fields previewSizes rest cache'
  end.

(** The buffers of the rows that produced one, order kept. *)
Fixpoint produced (outs : list (option Bytes)) : list Bytes :=
  match outs with
  | [] => []
  | Some pdfBytes :: rest => pdfBytes :: produced rest
  | None :: rest => produced rest
  end.

(** ** Sample collaborators and data *)

Module Sample.

(** Bytes that stand for a document to which [ops] were applied. *)
Definition render (ops : list DrawOp) : Bytes :=
  flat_map (fun op => match op with
                      | DrawText t => list_byte_of_string (opText t)
                      | DrawImage _ image _ _ _ _ => image
                      end) ops.

Definition isText (bad : option string) (text : string) : bool :=
  match bad with
  | Some b => String.eqb text b
  | None => false
  end.

Definition drawsText (bad : option string) (op : DrawOp) : bool :=
  match op with
  | DrawText t => isText bad (opText t)
  | DrawImage _ _ _ _ _ _ => false
  end.

(** The text of a built-in function as V8 prints it; the function under
    [constructor] is [Object]. *)
Definition builtinText (name : string) : string :=
  "function "
  ++ (if String.eqb name "constructor" then "Object" else name)
  ++ "() { [native code] }".

(** Collaborators that accept everything, except that [drawText] rejects
    the text [badDraw] and [save] rejects a document showing [badSave]. *)
Definition env (badDraw badSave : option string) : Env :=
  mkEnv (fun _ => "7")
        builtinText
        (fun _ => Some [Byte.x46])
        (fun _ => Some [Size.mk 600 800])
        (fun bytes => Some (mkFont bytes (fun size => size)))
        (fun t => negb (isText badDraw (opText t)))
        (fun doc => if existsb (drawsText badSave) (docOps doc)
                    then None else Some (render (docOps doc)))
        (fun _ => Some [Byte.x51])
        (fun files => Some (List.concat (objValues files)))
        (fun _ => ThrownError "Can't pack the files.").

Definition field (columnName : string) (pageIndex : Z) (isQRCode : bool)
    : PDFField.t :=
  PDFField.mk "field-1" columnName isQRCode pageIndex
              100 50 80 20 None None (Some 90) 16 (Some "#ff0000") None
              "Inter" AlignLeft WeightNormal StyleNormal None.

Definition previewSizes : PreviewSizes := [(1%Z, Size.mk 300 400)].

Definition row (name : string) : Obj JsVal := [("Name", JStr name)].

Definition excelData (names : list string) : ExcelData.t :=
  ExcelData.mk [JStr "Name"] [JStr "Name"] (map row names).

Definition template : Bytes := [Byte.x25; Byte.x50; Byte.x44; Byte.x46].

Definition state0 : State := mkState [] [] (mkDoc [Size.mk 600 800] [] []).

End Sample.

(** ** Sample editor data *)

Module Sample2.

(** A text box as [addFieldToCanvas] makes it, moved to [(x, y)]. *)
Definition box (column : string) (page : nat) (x y : Q) : Editor.FabricObject :=
  Editor.mkObject
    (Some (Editor.mkData "" column false page))
    x y 150 20 1 1 0 12 "#000000" "Inter"
    (Some AlignLeft) (Some WeightNormal) (Some StyleNormal).

(** An object that the editor did not create. *)
Definition plain : Editor.FabricObject :=
  Editor.mkObject None 0 0 10 10 1 1 0 12 "" "" None None None.

(** Page 1 live: a field of page 1, a field tagged with page 2, a foreign
    object. *)
Definition canvas : Editor.Canvas :=
  Editor.mkCanvas [box "Name" 1 10 20; box "Qty" 2 30 40; plain] 300 400.

(** Page 1 stored earlier with another field; page 2 stored with a field
    of its own and one tagged with page 3; page 3 stored with no height. *)
Definition states : CanvasStates :=
  [ (2%nat, PageState.mk [box "City" 2 50 60; box "Zip" 3 70 80] 320 440);
    (1%nat, PageState.mk [box "Old" 1 1 1] 280 380);
    (3%nat, PageState.mk [box "Note" 3 5 5] 300 0) ].

Definition editor : EditorState := mkEditor (Some canvas) 1 states.

(** Collaborators for which no template opens. *)
Definition envNoTemplate : Env :=
  mkEnv (fun _ => "7")
        Sample.builtinText
        (fun _ => Some [Byte.x46])
        (fun _ => None)
        (fun bytes => Some (mkFont bytes (fun size => size)))
        (fun _ => true)
        (fun doc => Some (Sample.render (docOps doc)))
        (fun _ => None)
        (fun files => Some (List.concat (objValues files)))
        (fun _ => ThrownOther).

(** Collaborators for which the font file is missing. *)
Definition envNoFont : Env :=
  mkEnv (fun _ => "7")
        Sample.builtinText
        (fun _ => None)
        (fun _ => Some [Size.mk 600 800])
        (fun bytes => Some (mkFont bytes (fun size => size)))
        (fun _ => true)
        (fun doc => Some (Byte.x25 :: Sample.render (docOps doc)))
        (fun _ => None)
        (fun files => Some (List.concat (objValues files)))
        (fun _ => ThrownOther).

End Sample2.

(** * Properties *)

(** ** [hexToRgb] *)

Section ColorFacts.
Import Color.

Lemma isHexDigit_mem (c : ascii) :
  isHexDigit c = existsb (Ascii.eqb c) hexDigits.
Proof.
  destruct c as [[] [] [] [] [] [] [] []]; reflexivity.
Qed.

Lemma isHexDigit_In (c : ascii) : isHexDigit c = true <-> In c hexDigits.
Proof.
  rewrite isHexDigit_mem, existsb_exists. split.
  - intros [d [Hd He]]. apply Ascii.eqb_eq in He. now subst.
  - intros H. exists c. split; [exact H | apply Ascii.eqb_refl].
Qed.

Lemma forallb_isHexDigit (ds : list ascii) :
  forallb isHexDigit ds = true <-> Forall (fun c => In c hexDigits) ds.
Proof.
  rewrite forallb_forall, Forall_forall.
  split; intros H c Hc; apply isHexDigit_In, H, Hc.
Qed.

(** The groups come from six hexadecimal digits that make up the whole
    string. *)
Lemma matchGroups_Some (s : string) gs :
  matchGroups s = Some gs ->
  exists ds, List.length ds = 6%nat /\ forallb isHexDigit ds = true /\
             s = string_of_list_ascii ds.
Proof.
  destruct s as [|c1 [|c2 [|c3 [|c4 [|c5 [|c6 [|c7 s]]]]]]]; try discriminate.
  cbn [matchGroups].
  destruct (forallb isHexDigit [c1; c2; c3; c4; c5; c6]) eqn:E; [|discriminate].
  intros _. exists [c1; c2; c3; c4; c5; c6]. repeat split. exact E.
Qed.

Lemma matchGroups_complete (ds : list ascii) :
  List.length ds = 6%nat -> forallb isHexDigit ds = true ->
  matchGroups (string_of_list_ascii ds) <> None.
Proof.
  destruct ds as [|c1 [|c2 [|c3 [|c4 [|c5 [|c6 [|c7 ds]]]]]]]; try discriminate.
  intros _ H. cbn [string_of_list_ascii matchGroups]. rewrite H. discriminate.
Qed.

Lemma matchGroups_hash (rest : string) : matchGroups (String "#" rest) = None.
Proof.
  destruct rest as [|c2 [|c3 [|c4 [|c5 [|c6 [|c7 s]]]]]]; reflexivity.
Qed.

(** The matcher accepts exactly the strings of [isHexColor]. *)
Lemma hexRe_exec_spec (s : string) : hexRe_exec s <> None <-> isHexColor s.
Proof.
  split.
  - intros H.
    assert (Hm : forall t gs, matchGroups t = Some gs ->
              exists ds, List.length ds = 6%nat /\
                         Forall (fun c => In c hexDigits) ds /\
                         t = string_of_list_ascii ds).
    { intros t gs Ht. destruct (matchGroups_Some _ _ Ht) as [ds [Hl [Hf He]]].
      exists ds. repeat split; trivial. now apply forallb_isHexDigit. }
    unfold hexRe_exec in H.
    destruct s as [|c s].
    + now contradiction H.
    + destruct (Ascii.eqb_spec c "#") as [->|Hc].
      * destruct (matchGroups s) as [gs|] eqn:E.
        -- destruct (Hm _ _ E) as [ds [Hl [Hf He]]].
           exists ds. repeat split; trivial. right. now rewrite He.
        -- now rewrite matchGroups_hash in H.
      * assert (H' : matchGroups (String c s) <> None).
        { destruct c as [[] [] [] [] [] [] [] []]; try exact H.
          now contradiction Hc. }
        destruct (matchGroups (String c s)) as [gs|] eqn:E; [|now contradiction H'].
        destruct (Hm _ _ E) as [ds [Hl [Hf He]]].
        exists ds. repeat split; trivial. now left.
  - intros [ds [Hl [Hf [->| ->]]]].
    + apply forallb_isHexDigit in Hf.
      pose proof (matchGroups_complete ds Hl Hf) as Hm.
      unfold hexRe_exec.
      destruct (string_of_list_ascii ds) as [|c s] eqn:E; [exact Hm|].
      destruct (Ascii.eqb_spec c "#") as [->|Hc].
      * now rewrite matchGroups_hash in Hm.
      * destruct c as [[] [] [] [] [] [] [] []]; try exact Hm.
        now contradiction Hc.
    + apply forallb_isHexDigit in Hf.
      pose proof (matchGroups_complete ds Hl Hf) as Hm.
      unfold hexRe_exec.
      destruct (matchGroups (string_of_list_ascii ds)); [discriminate|].
      now contradiction Hm.
Qed.

(** The captured groups hold hexadecimal digits only. *)
Lemma hexRe_exec_groups (hex : string) (g1 g2 g3 : Group) :
  hexRe_exec hex = Some (g1, g2, g3) ->
  forallb isHexDigit [fst g1; snd g1; fst g2; snd g2; fst g3; snd g3] = true.
Proof.
  assert (Hm : forall t, matchGroups t = Some (g1, g2, g3) ->
            forallb isHexDigit [fst g1; snd g1; fst g2; snd g2; fst g3; snd g3]
            = true).
  { intros t.
    destruct t as [|c1 [|c2 [|c3 [|c4 [|c5 [|c6 [|c7 t]]]]]]]; try discriminate.
    cbn [matchGroups].
    destruct (forallb isHexDigit [c1; c2; c3; c4; c5; c6]) eqn:E; [|discriminate].
    intros [= <- <- <-]. exact E. }
  unfold hexRe_exec. destruct hex as [|c rest]; [discriminate|].
  destruct (Ascii.eqb_spec c "#") as [->|Hc].
  - destruct (matchGroups rest) as [gs|] eqn:E.
    + intros [= ->]. now apply (Hm rest).
    + now rewrite matchGroups_hash.
  - intros H. apply (Hm (String c rest)).
    destruct c as [[] [] [] [] [] [] [] []]; try exact H.
    now contradiction Hc.
Qed.

Lemma hexVal_range (c : ascii) : (0 <= hexVal c <= 15)%Z.
Proof.
  unfold hexVal.
  repeat match goal with
         | |- context [(?a <=? ?b)%Z] => destruct (Z.leb_spec a b)
         end; cbn [andb]; lia.
Qed.

Lemma parseInt16_range (p : Group) : (0 <= parseInt16 p <= 255)%Z.
Proof.
  unfold parseInt16.
  pose proof (hexVal_range (fst p)). pose proof (hexVal_range (snd p)). lia.
Qed.

Lemma channel_unit (n : Z) :
  (0 <= n <= 255)%Z -> 0 <= inject_Z n / 255 /\ inject_Z n / 255 <= 1.
Proof.
  intros H. unfold Qle, Qdiv, Qmult, Qinv, inject_Z. cbn. lia.
Qed.

Lemma inUnit_true (q : Q) : 0 <= q /\ q <= 1 -> inUnit q = true.
Proof.
  intros [H0 H1]. unfold inUnit.
  apply andb_true_intro. split; now apply Qle_bool_iff.
Qed.

Lemma hexToRgb_unit (hex : option string) :
  (0 <= r (hexToRgb hex) /\ r (hexToRgb hex) <= 1) /\
  (0 <= g (hexToRgb hex) /\ g (hexToRgb hex) <= 1) /\
  (0 <= b (hexToRgb hex) /\ b (hexToRgb hex) <= 1).
Proof.
  unfold hexToRgb.
  destruct (hexRe_exec _) as [[[g1 g2] g3]|]; cbn [r g b].
  - repeat split; apply channel_unit, parseInt16_range.
  - repeat split; discriminate.
Qed.

Lemma rgb_hexToRgb (hex : option string) :
  rgb (r (hexToRgb hex)) (g (hexToRgb hex)) (b (hexToRgb hex))
  = Some (hexToRgb hex).
Proof.
  unfold rgb.
  destruct (hexToRgb_unit hex) as [Hr [Hg Hb]].
  rewrite (inUnit_true _ Hr), (inUnit_true _ Hg), (inUnit_true _ Hb).
  now destruct (hexToRgb hex).
Qed.

End ColorFacts.

(** C10.  [hexToRgb] returns a colour for every input.  A string that is not
    an optional [#] followed by exactly six hexadecimal digits (a three
    digit colour, a malformed one) gives black; for every input, absent
    included, each component lies between 0 and 1, so that pdf-lib's
    [rgb], which asserts that range, never throws on the fill colour. *)
Theorem hexToRgb_black_or_unit :
  (forall s : string,
      ~ Color.isHexColor s -> Color.hexToRgb (Some s) = Color.black) /\
  (forall hex : option string,
      let c := Color.hexToRgb hex in
      (0 <= Color.r c /\ Color.r c <= 1) /\
      (0 <= Color.g c /\ Color.g c <= 1) /\
      (0 <= Color.b c /\ Color.b c <= 1)) /\
  (forall hex : option string,
      let c := Color.hexToRgb hex in
      Color.rgb (Color.r c) (Color.g c) (Color.b c) = Some c).
Proof.
  split; [|split].
  - intros s Hs. unfold Color.hexToRgb.
    destruct (Color.hexRe_exec s) as [gs|] eqn:E; [|reflexivity].
    exfalso. apply Hs, hexRe_exec_spec. rewrite E. discriminate.
  - intros hex c. apply hexToRgb_unit.
  - intros hex c. apply rgb_hexToRgb.
Qed.

Lemma hexToRgb_black_or_unit_witness :
  ~ Color.isHexColor "#fff" /\ Color.hexToRgb (Some "#fff") = Color.black.
Proof.
  assert (H : ~ Color.isHexColor "#fff").
  { intros H. apply hexRe_exec_spec in H. now apply H. }
  split; [exact H | exact (proj1 hexToRgb_black_or_unit "#fff" H)].
Defined.


(** ** The field loop of [generatePDFs] *)

Section FieldFacts.
Variable env : Env.

(** [getFontBytes] throws exactly when the family is neither cached nor
    fetched and the fallback to Inter, if there is one, fares the same. *)
Lemma getFontBytes_None fontFamily cache :
  snd (getFontBytes env fontFamily cache) = None <->
  objGet cache fontFamily = None /\
  fetchFont env (fontPath fontFamily) = None /\
  (fontFamily = "Inter" \/
   (objGet cache "Inter" = None /\ fetchFont env (fontPath "Inter") = None)).
Proof.
  unfold getFontBytes, getFontBytesWith.
  destruct (objGet cache fontFamily) as [bytes|].
  { cbn. split; [discriminate | now intros [H _]]. }
  destruct (fetchFont env (fontPath fontFamily)) as [bytes|].
  { cbn. split; [discriminate | now intros [_ [H _]]]. }
  destruct (String.eqb_spec fontFamily "Inter") as [->|Hne]; cbn [negb].
  { cbn. split; auto. }
  destruct (objGet cache "Inter") as [bytes|].
  { cbn. split; [discriminate|].
    intros [_ [_ [H|[H _]]]]; [now contradiction Hne | discriminate]. }
  destruct (fetchFont env (fontPath "Inter")) as [bytes|]; cbn.
  - split; [discriminate|].
    intros [_ [_ [H|[_ H]]]]; [now contradiction Hne | discriminate].
  - split; auto.
Qed.



Lemma textArgs_eq field pageIndex page scaleFactor value customFont :
  textArgs field pageIndex page scaleFactor value customFont =
  Some (mkTextOp pageIndex value
          (PDFField.x field * scaleFactor)
          (Size.height page - PDFField.y field * scaleFactor
           - heightAtSize customFont
               (numOr (PDFField.fontSize field) 12
                * optNumOr (PDFField.scaleX field) 1 * scaleFactor) * 0.8)
          customFont
          (numOr (PDFField.fontSize field) 12
           * optNumOr (PDFField.scaleX field) 1 * scaleFactor)
          (Color.hexToRgb (PDFField.fill field))
          (- optNumOr (PDFField.angle field) 0))%Q.
Proof.
  unfold textArgs. now rewrite rgb_hexToRgb.
Qed.

(** What the [try] block does, by the outcome of its steps. *)
Lemma tryDrawField_eq field pageIndex page scaleFactor value st st1 o :
  resolveFont env (fontNameOf field) st = (st1, o) ->
  tryDrawField env field pageIndex page scaleFactor value st =
  match o with
  | None => st1
  | Some customFont =>
      match textArgs field pageIndex page scaleFactor value customFont with
      | None => st1
      | Some op => if drawTextOk env op then withOp st1 (DrawText op) else st1
      end
  end.
Proof.
  intros H. unfold tryDrawField. rewrite H. now destruct o.
Qed.

(** [drawField] past its three guards. *)
Lemma drawField_eq previewSizes row field st page previewSize :
  (1 <= PDFField.pageIndex field)%Z ->
  nth_error (docPages (stDoc st)) (Z.to_nat (PDFField.pageIndex field - 1))
    = Some page ->
  sizesGet previewSizes (PDFField.pageIndex field) = Some previewSize ->
  valueOf env row field <> "" -> valueOf env row field <> "undefined" ->
  drawField env previewSizes row field st =
  tryDrawField env field (Z.to_nat (PDFField.pageIndex field - 1)) page
    (Size.width page / Size.width previewSize) (valueOf env row field) st.
Proof.
  intros Hp Hn Hs Hv1 Hv2. unfold drawField.
  assert (Hlt : (Z.to_nat (PDFField.pageIndex field - 1)
                 < List.length (docPages (stDoc st)))%nat).
  { apply nth_error_Some. rewrite Hn. discriminate. }
  destruct (Z.ltb_spec (PDFField.pageIndex field - 1) 0); [lia|].
  destruct (Z.leb_spec (Z.of_nat (List.length (docPages (stDoc st))))
                       (PDFField.pageIndex field - 1)); [lia|].
  cbn [orb]. rewrite Hn, Hs.
  apply String.eqb_neq in Hv1, Hv2. now rewrite Hv1, Hv2.
Qed.




Lemma drawFields_cons previewSizes row field rest st :
  drawFields env previewSizes row (field :: rest) st =
  drawFields env previewSizes row rest (drawField env previewSizes row field st).
Proof. reflexivity. Qed.

Lemma drawFields_app previewSizes row before rest st :
  drawFields env previewSizes row (before ++ rest) st =
  drawFields env previewSizes row rest (drawFields env previewSizes row before st).
Proof. unfold drawFields. apply fold_left_app. Qed.

(** A field whose value is missing is skipped at the value guard or at an
    earlier one. *)
Lemma drawField_no_value previewSizes row field st :
  valueOf env row field = "" \/ valueOf env row field = "undefined" ->
  drawField env previewSizes row field st = st.
Proof.
  intros Hv. unfold drawField.
  destruct (_ || _); [reflexivity|].
  destruct (nth_error _ _) as [page|]; [|reflexivity].
  destruct (sizesGet _ _) as [previewSize|]; [|reflexivity].
  destruct Hv as [-> | ->]; reflexivity.
Qed.

End FieldFacts.

(** A name that the row lacks and that [Object.prototype] lacks as well
    reads as [undefined]. *)
Lemma rowGet_absent (row : Obj JsVal) (k : string) :
  objGet row k = None -> ~ In k prototypeNames ->
  rowGet row k = Prim JUndefined.
Proof.
  intros Hget Hnot. unfold rowGet, protoGet. rewrite Hget.
  destruct (String.eqb_spec k "__proto__") as [->|_].
  { exfalso. apply Hnot. cbn. tauto. }
  destruct (existsb (String.eqb k) prototypeNames) eqn:E; [|reflexivity].
  exfalso. apply Hnot. apply existsb_exists in E.
  destruct E as [k' [Hin E]]. apply String.eqb_eq in E. now subst.
Qed.

(** C4.  When the row holds the empty string or the token "undefined" for
    the column a field is bound to, or holds nothing for it (the column
    not being named like a member of [Object.prototype], which every
    object has), the field loop leaves the document, the embedded fonts
    and the font cache as they were: the field is skipped without an
    error.  The other fields of the row are processed as if the field were
    not in the list. *)
Theorem missing_value_skips_field
    (env : Env) (previewSizes : PreviewSizes) (row : Obj JsVal)
    (field : PDFField.t) :
  rowGet row (PDFField.columnName field) = Prim (JStr "") \/
  rowGet row (PDFField.columnName field) = Prim (JStr "undefined") \/
  (objGet row (PDFField.columnName field) = None /\
   ~ In (PDFField.columnName field) prototypeNames) ->
  (forall st, drawField env previewSizes row field st = st) /\
  (forall before rest st,
      drawFields env previewSizes row (before ++ field :: rest) st =
      drawFields env previewSizes row (before ++ rest) st).
Proof.
  intros H.
  assert (Hv : valueOf env row field = "" \/ valueOf env row field = "undefined").
  { unfold valueOf.
    destruct H as [H | [H | [H Hnot]]].
    - rewrite H. now left.
    - rewrite H. now right.
    - rewrite (rowGet_absent _ _ H Hnot). now left. }
  split.
  - intros st. now apply drawField_no_value.
  - intros before rest st.
    rewrite !drawFields_app, drawFields_cons.
    now rewrite drawField_no_value.
Qed.

Lemma missing_value_skips_field_witness :
  rowGet [("Name", JStr "undefined"); ("City", JStr "Paris")] "Name"
  = Prim (JStr "undefined") /\
  List.length
    (docOps (stDoc (drawFields (Sample.env None None) Sample.previewSizes
                      [("Name", JStr "undefined"); ("City", JStr "Paris")]
                      ([Sample.field "City" 1 false]
                         ++ Sample.field "Name" 1 false
                         :: [Sample.field "City" 1 false])
                      Sample.state0)))
  = 2%nat.
Proof.
  split; [reflexivity|].
  rewrite (proj2 (missing_value_skips_field (Sample.env None None)
                    Sample.previewSizes
                    [("Name", JStr "undefined"); ("City", JStr "Paris")]
                    (Sample.field "Name" 1 false)
                    (or_intror (or_introl eq_refl)))).
  reflexivity.
Defined.

(** The sample writer serializes every document when no text is marked
    as bad. *)
Lemma sample_save_total badDraw (doc : PdfDoc) :
  save (Sample.env badDraw None) doc <> None.
Proof.
  cbn.
  assert (E : existsb (Sample.drawsText None) (docOps doc) = false).
  { induction (docOps doc) as [|[t|] ops IH]; cbn; auto. }
  rewrite E. discriminate.
Qed.

(** C2.  For a field that gets past the guards of the field loop on a page
    whose preview size has a positive width, the arguments handed to
    [page.drawText] are

    - [scaleFactor = nativeWidth / previewWidth],
    - [x = field.x * scaleFactor],
    - [size = fontSize * scaleX * scaleFactor], with 12 for a font size
      that is zero and 1 for a horizontal scale that is absent or zero,
    - [y = nativeHeight - field.y * scaleFactor - heightAtSize(size) * 0.8],
    - [rotate] = the negative of the field's angle (of 0 when absent),

    and the field loop returns the state with that call recorded, or the
    state after font resolution when the writer rejects the call. *)
Theorem native_geometry
    (env : Env) (previewSizes : PreviewSizes) (row : Obj JsVal)
    (field : PDFField.t) (st st1 : State) (page previewSize : Size.t)
    (customFont : Font) :
  (1 <= PDFField.pageIndex field)%Z ->
  nth_error (docPages (stDoc st)) (Z.to_nat (PDFField.pageIndex field - 1))
    = Some page ->
  sizesGet previewSizes (PDFField.pageIndex field) = Some previewSize ->
  0 < Size.width previewSize ->
  valueOf env row field <> "" -> valueOf env row field <> "undefined" ->
  resolveFont env (fontNameOf field) st = (st1, Some customFont) ->
  let fontSize :=
    if Qeq_bool (PDFField.fontSize field) 0 then 12 else PDFField.fontSize field in
  let scaleX :=
    match PDFField.scaleX field with
    | Some s => if Qeq_bool s 0 then 1 else s
    | None => 1
    end in
  let angle :=
    match PDFField.angle field with
    | Some a => if Qeq_bool a 0 then 0 else a
    | None => 0
    end in
  let scaleFactor := Size.width page / Size.width previewSize in
  let nativeX := PDFField.x field * scaleFactor in
  let nativeFontSize := fontSize * scaleX * scaleFactor in
  let nativeY :=
    Size.height page - PDFField.y field * scaleFactor
    - heightAtSize customFont nativeFontSize * 0.8 in
  exists op : TextOp,
    opX op = nativeX /\ opSize op = nativeFontSize /\ opY op = nativeY /\
    opRotate op = - angle /\
    opText op = valueOf env row field /\ opFont op = customFont /\
    opPage op = Z.to_nat (PDFField.pageIndex field - 1) /\
    drawField env previewSizes row field st =
    if drawTextOk env op then withOp st1 (DrawText op) else st1.
Proof.
  intros Hp Hn Hs _ Hv1 Hv2 Hf. cbv zeta.
  pose proof (textArgs_eq field (Z.to_nat (PDFField.pageIndex field - 1)) page
                (Size.width page / Size.width previewSize)
                (valueOf env row field) customFont) as Ha.
  match type of Ha with _ = Some ?t => exists t end.
  cbn [opX opSize opY opRotate opText opFont opPage].
  repeat (split; [reflexivity|]).
  rewrite (drawField_eq env _ _ _ _ _ _ Hp Hn Hs Hv1 Hv2).
  now rewrite (tryDrawField_eq env _ _ _ _ _ _ _ _ Hf), Ha.
Qed.

Lemma native_geometry_witness :
  exists op : TextOp,
    opX op == 200 /\ opSize op == 32 /\ opY op == 674.4 /\ opRotate op == -90 /\
    docOps (stDoc (drawField (Sample.env None None) Sample.previewSizes
                     (Sample.row "Ada") (Sample.field "Name" 1 false)
                     Sample.state0))
    = [DrawText op].
Proof.
  assert (Hp : (1 <= PDFField.pageIndex (Sample.field "Name" 1 false))%Z)
    by (cbn; lia).
  assert (Hw : 0 < Size.width (Size.mk 300 400)) by reflexivity.
  assert (Hv1 : valueOf (Sample.env None None) (Sample.row "Ada")
                  (Sample.field "Name" 1 false) <> "") by discriminate.
  assert (Hv2 : valueOf (Sample.env None None) (Sample.row "Ada")
                  (Sample.field "Name" 1 false) <> "undefined") by discriminate.
  destruct (native_geometry (Sample.env None None) Sample.previewSizes
              (Sample.row "Ada") (Sample.field "Name" 1 false) Sample.state0
              (withFont (withCache Sample.state0 [("Inter", [Byte.x46])])
                        "Inter" (mkFont [Byte.x46] (fun size => size)))
              (Size.mk 600 800) (Size.mk 300 400)
              (mkFont [Byte.x46] (fun size => size))
              Hp eq_refl eq_refl Hw Hv1 Hv2 eq_refl)
    as [op (Hx & Hs & Hy & Hr & _ & _ & _ & Hd)].
  exists op. rewrite Hx, Hs, Hy, Hr, Hd.
  repeat split; reflexivity.
Defined.

(** C1 (the code departs from it).  [generatePDFs] never reads [isQRCode]:
    a field is processed in the same way whatever the flag says, and a
    field flagged as a code has its value drawn as text.  No image is
    placed. *)
Theorem qr_flag_is_ignored :
  (forall env previewSizes row field st flag,
      drawField env previewSizes row (withIsQRCode flag field) st =
      drawField env previewSizes row field st) /\
  (exists op : TextOp,
      opText op = "Ada" /\
      docOps (stDoc (drawField (Sample.env None None) Sample.previewSizes
                       (Sample.row "Ada") (Sample.field "Name" 1 true)
                       Sample.state0))
      = [DrawText op]).
Proof.
  split.
  - reflexivity.
  - eexists. split; [|vm_compute; reflexivity]. reflexivity.
Qed.

(** ** The row loop of [generatePDFs] *)

Section RowFacts.
Variable env : Env.
Variable templateBytes : Bytes.
Variable fields : list PDFField.t.
Variable previewSizes : PreviewSizes.

Lemma rowOutcomes_length rows cache :
  List.length (rowOutcomes env templateBytes fields previewSizes rows cache)
  = List.length rows.
Proof.
  revert cache. induction rows as [|row rest IH]; intros cache; cbn.
  - reflexivity.
  - destruct (processRow env templateBytes fields previewSizes row cache)
      as [cache' out].
    cbn. now rewrite IH.
Qed.

(** The accumulator of the loop grows by the buffers of the rows that
    produced one, in the order of the rows. *)
Lemma generateLoop_produced rows cache pdfs :
  snd (generateLoop env templateBytes fields previewSizes rows cache pdfs)
  = pdfs ++ produced (rowOutcomes env templateBytes fields previewSizes rows cache).
Proof.
  revert cache pdfs. induction rows as [|row rest IH]; intros cache pdfs; cbn.
  - now rewrite app_nil_r.
  - destruct (processRow env templateBytes fields previewSizes row cache)
      as [cache' [pdfBytes|]]; rewrite IH; cbn.
    + now rewrite <- app_assoc.
    + reflexivity.
Qed.

Lemma produced_app outs1 outs2 :
  produced (outs1 ++ outs2) = produced outs1 ++ produced outs2.
Proof.
  induction outs1 as [|[pdfBytes|] outs1 IH]; cbn; now rewrite ?IH.
Qed.

Lemma produced_skip outs k :
  nth_error outs k = Some None ->
  produced outs = produced (firstn k outs) ++ produced (skipn (S k) outs).
Proof.
  revert k. induction outs as [|o outs IH]; intros [|k] H; try discriminate.
  - cbn in H. injection H as ->. reflexivity.
  - cbn in H. cbn [firstn skipn]. destruct o as [pdfBytes|]; cbn.
    + f_equal. now apply IH.
    + now apply IH.
Qed.

Lemma produced_length outs :
  List.length (produced outs)
  = List.length (filter (fun o : option Bytes =>
                           match o with Some _ => true | None => false end) outs).
Proof.
  induction outs as [|[pdfBytes|] outs IH]; cbn; now rewrite ?IH.
Qed.

(** A row ends in the [catch] exactly when the template does not open or
    the document does not serialize. *)
Lemma processRow_None row cache :
  snd (processRow env templateBytes fields previewSizes row cache) = None <->
  load env templateBytes = None \/
  exists pages,
    load env templateBytes = Some pages /\
    save env (stDoc (drawFields env previewSizes row fields
                       (mkState cache [] (mkDoc pages [] [])))) = None.
Proof.
  unfold processRow.
  destruct (load env templateBytes) as [pages|]; cbn [snd]; split.
  - intros H. right. now exists pages.
  - intros [H | [pages' [[= <-] H]]]; [discriminate | exact H].
  - now left.
  - reflexivity.
Qed.

End RowFacts.

(** C3.  The result of [generatePDFs] holds one buffer for each row that
    reached [pdfs.push], in the order of the rows, and nothing for a row
    that ended in the [catch].  A row ends there exactly when the template
    fails to open or the document fails to serialize; the rows after it
    are processed, and their buffers follow directly those of the rows
    before it. *)
Theorem failed_rows_are_skipped
    (env : Env) (templateFile : Bytes) (excelData : ExcelData.t)
    (fields : list PDFField.t) (previewSizes : PreviewSizes)
    (cache : FontCache) :
  let outs := rowOutcomes env templateFile fields previewSizes
                (ExcelData.rows excelData) cache in
  let pdfs := generatePDFs env templateFile excelData fields previewSizes cache in
  List.length outs = List.length (ExcelData.rows excelData) /\
  pdfs = produced outs /\
  List.length pdfs
  = List.length (filter (fun o : option Bytes =>
                           match o with Some _ => true | None => false end) outs) /\
  (forall k, nth_error outs k = Some None ->
             pdfs = produced (firstn k outs) ++ produced (skipn (S k) outs)) /\
  (forall row c,
      snd (processRow env templateFile fields previewSizes row c) = None <->
      load env templateFile = None \/
      exists pages,
        load env templateFile = Some pages /\
        save env (stDoc (drawFields env previewSizes row fields
                           (mkState c [] (mkDoc pages [] [])))) = None).
Proof.
  intros outs pdfs.
  assert (E : pdfs = produced outs).
  { unfold pdfs, generatePDFs. now rewrite generateLoop_produced. }
  split; [apply rowOutcomes_length|].
  split; [exact E|].
  split; [rewrite E; apply produced_length|].
  split.
  - intros k Hk. rewrite E. now apply produced_skip.
  - intros row c. apply processRow_None.
Qed.

(** Five rows, the third of which does not serialize: four buffers, those
    of rows 1, 2, 4 and 5 in that order. *)
Lemma failed_rows_are_skipped_witness :
  generatePDFs (Sample.env None (Some "C")) Sample.template
    (Sample.excelData ["A"; "B"; "C"; "D"; "E"])
    [Sample.field "Name" 1 false] Sample.previewSizes []
  = [[Byte.x41]; [Byte.x42]; [Byte.x44]; [Byte.x45]].
Proof.
  pose proof (failed_rows_are_skipped (Sample.env None (Some "C"))
                Sample.template (Sample.excelData ["A"; "B"; "C"; "D"; "E"])
                [Sample.field "Name" 1 false] Sample.previewSizes []) as T.
  cbv zeta in T. destruct T as (_ & _ & _ & Skip & _).
  rewrite (Skip 2%nat); reflexivity.
Defined.

(** C8 (the code departs from it).  On a batch of five rows of which one
    fails, [handleGenerate] completes, four documents are produced and
    archived, and the completion panel shows five. *)
Theorem completion_shows_row_count :
  let env := Sample.env None (Some "C") in
  let excelData := Sample.excelData ["A"; "B"; "C"; "D"; "E"] in
  let fields := [Sample.field "Name" 1 false] in
  Step3.isComplete
    (fst (Step3.handleGenerate env Sample.template excelData fields
            Sample.previewSizes [])) = true /\
  List.length (generatePDFs env Sample.template excelData fields
                 Sample.previewSizes []) = 4%nat /\
  Step3.documentsCreated excelData = 5%nat.
Proof.
  repeat split.
Qed.

(** ** [createZipArchive] *)

Section ObjFacts.
Context {V : Type}.

Lemma objGet_app (o1 o2 : Obj V) (k : string) :
  objGet (o1 ++ o2) k =
  match objGet o1 k with
  | Some v => Some v
  | None => objGet o2 k
  end.
Proof.
  induction o1 as [|[k' v'] o1 IH]; cbn; [reflexivity|].
  now destruct (String.eqb k' k).
Qed.

(** Assigning to a key that the object does not have appends it. *)
Lemma objSet_fresh (o : Obj V) (k : string) (v : V) :
  objGet o k = None -> objSet o k v = o ++ [(k, v)].
Proof.
  induction o as [|[k' v'] o IH]; cbn; [reflexivity|].
  destruct (String.eqb k' k); [discriminate|].
  intros H. now rewrite IH.
Qed.

End ObjFacts.

Lemma objGet_objSet_same {V : Type} (o : Obj V) (k : string) (v : V) :
  objGet (objSet o k v) k = Some v.
Proof.
  induction o as [|[k' v'] o IH]; cbn.
  - now rewrite String.eqb_refl.
  - destruct (String.eqb k' k) eqn:E; cbn; now rewrite E.
Qed.

Lemma objGet_objSet_other {V : Type} (o : Obj V) (k k' : string) (v : V) :
  k <> k' -> objGet (objSet o k v) k' = objGet o k'.
Proof.
  intros Hk. induction o as [|[k0 v0] o IH]; cbn.
  - apply String.eqb_neq in Hk. now rewrite Hk.
  - destruct (String.eqb_spec k0 k) as [->|Hk0]; cbn.
    + apply String.eqb_neq in Hk. now rewrite Hk.
    + now rewrite IH.
Qed.

Lemma objGet_objSet_fresh {V : Type} (o : Obj V) (k k' : string) (v v' : V) :
  objGet o k = None -> objGet o k' = Some v' -> objGet (objSet o k v) k' = Some v'.
Proof.
  intros Hk Hk'. destruct (String.eqb_spec k k') as [->|Hne].
  - congruence.
  - now rewrite objGet_objSet_other.
Qed.

Lemma objGet_None_keys {V : Type} (o : Obj V) (k : string) :
  objGet o k = None -> ~ In k (objKeys o).
Proof.
  induction o as [|[k' v] o IH]; cbn; [tauto|].
  destruct (String.eqb_spec k' k) as [->|Hne]; [discriminate|].
  intros H [E|Hin]; [now apply Hne | now apply IH].
Qed.

Lemma objGet_Some_values {V : Type} (o : Obj V) (k : string) (v : V) :
  objGet o k = Some v -> In v (objValues o).
Proof.
  induction o as [|[k' v'] o IH]; cbn; [discriminate|].
  destruct (String.eqb k' k).
  - intros [= ->]. now left.
  - intros H. right. now apply IH.
Qed.

Section ObjMore.
Context {V : Type}.

Lemma objSet_keys (o : Obj V) (k : string) (v : V) :
  objKeys (objSet o k v)
  = match objGet o k with
    | Some _ => objKeys o
    | None => objKeys o ++ [k]
    end.
Proof.
  unfold objKeys.
  induction o as [|[k' v'] o IH]; cbn; [reflexivity|].
  destruct (String.eqb k' k); cbn; [reflexivity|].
  rewrite IH. now destruct (objGet o k).
Qed.

Lemma objGet_Some_keys (o : Obj V) (k : string) (v : V) :
  objGet o k = Some v -> In k (objKeys o).
Proof.
  induction o as [|[k' v'] o IH]; cbn; [discriminate|].
  destruct (String.eqb_spec k' k) as [->|Hne]; [now left|].
  intros H. right. now apply IH.
Qed.

Lemma objSet_values (o : Obj V) (k : string) (v v0 : V) :
  In v0 (objValues (objSet o k v)) -> In v0 (objValues o) \/ v0 = v.
Proof.
  induction o as [|[k' v'] o IH]; cbn.
  - intros [<-|[]]. now right.
  - destruct (String.eqb k' k); cbn.
    + intros [<-|H]; [now right | left; now right].
    + intros [<-|H]; [left; now left|].
      destruct (IH H) as [H'|H']; [left; now right | now right].
Qed.

Lemma objSet_length (o : Obj V) (k : string) (v : V) :
  (List.length (objSet o k v) <= S (List.length o))%nat.
Proof.
  induction o as [|[k' v'] o IH]; cbn; [lia|].
  destruct (String.eqb k' k); cbn; lia.
Qed.

End ObjMore.

Lemma objGet_notin {V : Type} (o : Obj V) (k : string) :
  ~ In k (objKeys o) -> objGet o k = None.
Proof.
  intros H. destruct (objGet o k) as [v|] eqn:E; [|reflexivity].
  exfalso. apply H. now apply objGet_Some_keys in E.
Qed.

Section NameFacts.
Local Open Scope string_scope.

Lemma length_append (s t : string) :
  String.length (s ++ t) = (String.length s + String.length t)%nat.
Proof. induction s as [|c s IH]; cbn; [reflexivity | now rewrite IH]. Qed.

Lemma append_inv_head (s a b : string) : s ++ a = s ++ b -> a = b.
Proof.
  induction s as [|c s IH]; cbn; [trivial|].
  intros [= H]. now apply IH.
Qed.

Lemma append_inv_tail (t a b : string) : a ++ t = b ++ t -> a = b.
Proof.
  revert b. induction a as [|c a IH]; intros [|d b] H.
  - reflexivity.
  - apply (f_equal String.length) in H. cbn in H.
    rewrite length_append in H. lia.
  - apply (f_equal String.length) in H. cbn in H.
    rewrite length_append in H. lia.
  - cbn in H. injection H as -> H. f_equal. now apply IH.
Qed.

(** [padStart(3, '0')] by the length of the string. *)
Lemma padStart3 (s : string) :
  padStart s 3 "0" =
  match String.length s with
  | 0 => "000" ++ s
  | 1 => "00" ++ s
  | 2 => "0" ++ s
  | _ => s
  end%nat.
Proof. destruct s as [|a [|b [|c s]]]; reflexivity. Qed.

Lemma padStart3_length (s : string) :
  String.length (padStart s 3 "0") = Nat.max 3 (String.length s).
Proof. destruct s as [|a [|b [|c s]]]; cbn; try reflexivity. Qed.

Lemma readNat_zero (s : string) : readNat (String "0" s) = readNat s.
Proof.
  unfold readNat. cbn [NilEmpty.uint_of_string].
  destruct (NilEmpty.uint_of_string s) as [d|]; reflexivity.
Qed.

Lemma readNat_natToString (n : nat) : readNat (natToString n) = Some n.
Proof.
  unfold readNat, natToString.
  rewrite NilEmpty.usu. cbn. now rewrite DecimalNat.Unsigned.of_to.
Qed.

(** Padding does not change the number that the digits denote. *)
Lemma readNat_padStart3 (n : nat) :
  readNat (padStart (natToString n) 3 "0") = Some n.
Proof.
  rewrite padStart3.
  destruct (String.length (natToString n)) as [|[|[|l]]];
    cbn [append]; rewrite ?readNat_zero; apply readNat_natToString.
Qed.

Lemma zipFileName_inj (baseFileName : string) (i j : nat) :
  zipFileName baseFileName i = zipFileName baseFileName j -> i = j.
Proof.
  unfold zipFileName. intros H.
  apply append_inv_head, append_inv_head, append_inv_tail in H.
  apply (f_equal readNat) in H.
  rewrite !readNat_padStart3 in H. injection H as H.
  now apply Nat.add_cancel_r in H.
Qed.

(** From position [index] on, [forEach] appends one entry per buffer,
    provided that the names still to come are not in the archive yet. *)
Lemma zipForEach_spec (baseFileName : string) (pdfBuffers : list Bytes) :
  forall (zip : Obj Bytes) (index : nat),
    (forall j, (index <= j)%nat -> objGet zip (zipFileName baseFileName j) = None) ->
    zipForEach zip baseFileName index pdfBuffers =
    (zip ++ combine (map (zipFileName baseFileName)
                         (seq index (List.length pdfBuffers)))
                    pdfBuffers)%list.
Proof.
  induction pdfBuffers as [|pdfBytes rest IH]; intros zip index Hfresh; cbn.
  - now rewrite app_nil_r.
  - rewrite objSet_fresh by (apply Hfresh; lia).
    rewrite IH.
    + now rewrite <- app_assoc.
    + intros j Hj. rewrite objGet_app, Hfresh by lia. cbn.
      destruct (String.eqb_spec (zipFileName baseFileName index)
                                (zipFileName baseFileName j)) as [E|]; [|reflexivity].
      apply zipFileName_inj in E. lia.
Qed.

Lemma nth_error_named {A B : Type} (f : nat -> A) (l : list B) :
  forall (start i : nat) (b : B),
    nth_error l i = Some b ->
    nth_error (combine (map f (seq start (List.length l))) l) i
    = Some (f (start + i)%nat, b).
Proof.
  induction l as [|a l IH]; intros start [|i] b H; try discriminate.
  - cbn in *. injection H as ->. now rewrite Nat.add_0_r.
  - cbn [List.length seq map combine nth_error] in *.
    replace (start + S i)%nat with (S start + i)%nat by lia.
    now apply IH.
Qed.

End NameFacts.

(** The file table that [createZipArchive] hands to [generateAsync]: one
    entry per buffer, named by position. *)
Lemma zipEntries_named (pdfBuffers : list Bytes) (baseFileName : string) :
  zipEntries pdfBuffers baseFileName
  = combine (map (zipFileName baseFileName) (seq 0 (List.length pdfBuffers)))
            pdfBuffers.
Proof. unfold zipEntries. now rewrite zipForEach_spec. Qed.

(** C6.  [createZipArchive] packs the archive whose file table holds one
    entry per buffer, in the order of the buffers; the entry of the buffer
    at position [index] (from 0) is named [baseFileName] (or [document]
    when no name is given), [_], the decimal digits of [index + 1] padded
    with zeros on the left to three characters, [.pdf].  The numbering
    follows the positions in the list handed over, whatever rows the
    buffers came from; the call fails exactly when the packing of that
    table fails. *)
Theorem zip_names_are_dense
    (env : Env) (pdfBuffers : list Bytes) (baseFileName : option string) :
  let base := match baseFileName with Some name => name | None => "document" end in
  let files :=
    combine (map (fun index =>
                    (base ++ "_" ++ padStart (natToString (index + 1)) 3 "0"
                     ++ ".pdf")%string)
                 (seq 0 (List.length pdfBuffers)))
            pdfBuffers in
  createZipArchive env pdfBuffers baseFileName = zipGenerate env files /\
  List.length files = List.length pdfBuffers /\
  (forall index pdfBytes,
      nth_error pdfBuffers index = Some pdfBytes ->
      exists digits : string,
        nth_error files index
        = Some ((base ++ "_" ++ digits ++ ".pdf")%string, pdfBytes) /\
        readNat digits = Some (index + 1)%nat /\
        String.length digits
        = Nat.max 3 (String.length (natToString (index + 1)))).
Proof.
  intros base files.
  assert (E : zipEntries pdfBuffers base = files)
    by apply zipEntries_named.
  split; [|split].
  - unfold createZipArchive. fold base. now rewrite E.
  - unfold files. rewrite length_combine, length_map, length_seq.
    apply Nat.min_id.
  - intros index pdfBytes H.
    exists (padStart (natToString (index + 1)) 3 "0"). split; [|split].
    + unfold files.
      now rewrite (nth_error_named _ _ 0%nat index pdfBytes H).
    + apply readNat_padStart3.
    + apply padStart3_length.
Qed.

(** Three buffers and the base name "Doc"; no base name. *)
Lemma zip_names_are_dense_witness :
  createZipArchive (Sample.env None None)
    [[Byte.x01]; [Byte.x02]; [Byte.x04]] (Some "Doc")
  = zipGenerate (Sample.env None None)
      [("Doc_001.pdf", [Byte.x01]); ("Doc_002.pdf", [Byte.x02]);
       ("Doc_003.pdf", [Byte.x04])] /\
  createZipArchive (Sample.env None None) [[Byte.x01]] None
  = zipGenerate (Sample.env None None) [("document_001.pdf", [Byte.x01])].
Proof.
  split.
  - exact (proj1 (zip_names_are_dense (Sample.env None None)
                    [[Byte.x01]; [Byte.x02]; [Byte.x04]] (Some "Doc"))).
  - exact (proj1 (zip_names_are_dense (Sample.env None None)
                    [[Byte.x01]] None)).
Defined.

(** ** Row objects *)

Section RowSetFacts.

Lemma arrayIndex_name (k : string) (n : N) :
  arrayIndex k = Some n -> k = NilEmpty.string_of_uint (N.to_uint n).
Proof.
  unfold arrayIndex.
  destruct (NilEmpty.uint_of_string k) as [digits|]; [|discriminate].
  destruct (String.eqb_spec
              (NilEmpty.string_of_uint (N.to_uint (N.of_uint digits))) k)
    as [E|]; cbn [andb]; [|discriminate].
  destruct (N.of_uint digits <? 4294967295)%N; [|discriminate].
  intros [= <-]. now symmetry.
Qed.

(** Two names with the same index are the same name. *)
Lemma arrayIndex_inj (a b : string) (n : N) :
  arrayIndex a = Some n -> arrayIndex b = Some n -> a = b.
Proof.
  intros Ha Hb. apply arrayIndex_name in Ha, Hb. congruence.
Qed.

Lemma objGet_insertIndex (n : N) (k : string) (v : JsVal) (o : Obj JsVal)
    (k' : string) :
  objGet o k = None ->
  objGet (insertIndex n k v o) k'
  = if String.eqb k k' then Some v else objGet o k'.
Proof.
  induction o as [|[k0 v0] o IH]; cbn [insertIndex objGet]; [reflexivity|].
  destruct (String.eqb_spec k0 k) as [->|Hne]; [discriminate|].
  intros Hget.
  assert (Hhead : objGet ((k, v) :: (k0, v0) :: o) k'
                  = if String.eqb k k' then Some v
                    else if String.eqb k0 k' then Some v0 else objGet o k')
    by reflexivity.
  destruct (arrayIndex k0) as [n'|]; [|exact Hhead].
  destruct (n' <? n)%N; [|exact Hhead].
  cbn [objGet]. rewrite (IH Hget).
  destruct (String.eqb_spec k0 k') as [->|_]; [|reflexivity].
  destruct (String.eqb_spec k k') as [->|_]; [now contradiction Hne | reflexivity].
Qed.

Lemma insertIndex_perm (n : N) (k : string) (v : JsVal) (o : Obj JsVal) :
  Permutation (insertIndex n k v o) ((k, v) :: o).
Proof.
  induction o as [|[k0 v0] o IH]; cbn [insertIndex]; [reflexivity|].
  destruct (arrayIndex k0) as [n'|]; [|reflexivity].
  destruct (n' <? n)%N; [|reflexivity].
  rewrite IH. apply perm_swap.
Qed.

(** The three ways through an assignment. *)
Lemma rowSet_cases (o : Obj JsVal) (k : string) (v : JsVal) :
  (exists v0, objGet o k = Some v0 /\ rowSet o k v = objSet o k v) \/
  (objGet o k = None /\ k = "__proto__" /\ rowSet o k v = o) \/
  (objGet o k = None /\ k <> "__proto__" /\
   Permutation (rowSet o k v) ((k, v) :: o)).
Proof.
  unfold rowSet. destruct (objGet o k) as [v0|] eqn:Hget.
  { left. now exists v0. }
  right. destruct (String.eqb_spec k "__proto__") as [->|Hne].
  { left. now repeat split. }
  right. repeat split; trivial.
  destruct (arrayIndex k) as [n|].
  - apply insertIndex_perm.
  - symmetry. apply Permutation_cons_append.
Qed.

Lemma objGet_rowSet_same (o : Obj JsVal) (k : string) (v : JsVal) :
  k <> "__proto__" -> objGet (rowSet o k v) k = Some v.
Proof.
  intros Hne. unfold rowSet. destruct (objGet o k) as [v0|] eqn:Hget.
  { apply objGet_objSet_same. }
  apply String.eqb_neq in Hne. rewrite Hne.
  destruct (arrayIndex k) as [n|].
  - rewrite objGet_insertIndex by exact Hget. now rewrite String.eqb_refl.
  - rewrite objGet_app, Hget. cbn. now rewrite String.eqb_refl.
Qed.

Lemma objGet_rowSet_other (o : Obj JsVal) (k k' : string) (v : JsVal) :
  k <> k' -> objGet (rowSet o k v) k' = objGet o k'.
Proof.
  intros Hne. unfold rowSet. destruct (objGet o k) as [v0|] eqn:Hget.
  { now apply objGet_objSet_other. }
  destruct (String.eqb k "__proto__"); [reflexivity|].
  apply String.eqb_neq in Hne.
  destruct (arrayIndex k) as [n|].
  - rewrite objGet_insertIndex by exact Hget. now rewrite Hne.
  - rewrite objGet_app. cbn. rewrite Hne. now destruct (objGet o k').
Qed.

(** Assigning a primitive to [__proto__] leaves the object as it is. *)
Lemma rowSet_proto (o : Obj JsVal) (v : JsVal) :
  objGet o "__proto__" = None -> rowSet o "__proto__" v = o.
Proof. intros H. unfold rowSet. now rewrite H. Qed.

Lemma rowSet_keys_In (o : Obj JsVal) (k : string) (v : JsVal) (k' : string) :
  In k' (objKeys (rowSet o k v)) <->
  In k' (objKeys o) \/ (k' = k /\ k <> "__proto__").
Proof.
  destruct (rowSet_cases o k v)
    as [(v0 & Hget & ->) | [(Hget & -> & ->) | (Hget & Hne & Hperm)]].
  - rewrite objSet_keys, Hget. split; [tauto|].
    intros [H|[-> _]]; [exact H|]. now apply objGet_Some_keys in Hget.
  - split; [tauto|]. intros [H|[_ H]]; [exact H | now contradiction H].
  - assert (Hk : Permutation (objKeys (rowSet o k v)) (k :: objKeys o)).
    { unfold objKeys. now rewrite Hperm. }
    split.
    + intros H. apply (Permutation_in _ Hk) in H.
      destruct H as [<-|H]; [right; now split | now left].
    + intros H. apply (Permutation_in _ (Permutation_sym Hk)).
      destruct H as [H|[-> _]]; [now right | now left].
Qed.

Lemma rowSet_NoDup (o : Obj JsVal) (k : string) (v : JsVal) :
  NoDup (objKeys o) -> NoDup (objKeys (rowSet o k v)).
Proof.
  intros Hnd.
  destruct (rowSet_cases o k v)
    as [(v0 & Hget & ->) | [(Hget & -> & ->) | (Hget & Hne & Hperm)]].
  - now rewrite objSet_keys, Hget.
  - exact Hnd.
  - assert (Hk : Permutation (k :: objKeys o) (objKeys (rowSet o k v))).
    { unfold objKeys. now rewrite Hperm. }
    apply (Permutation_NoDup Hk). constructor; [|exact Hnd].
    now apply objGet_None_keys.
Qed.

Lemma rowSet_values (o : Obj JsVal) (k : string) (v v0 : JsVal) :
  In v0 (objValues (rowSet o k v)) -> In v0 (objValues o) \/ v0 = v.
Proof.
  destruct (rowSet_cases o k v)
    as [(v1 & Hget & ->) | [(Hget & -> & ->) | (Hget & Hne & Hperm)]].
  - apply objSet_values.
  - now left.
  - intros H.
    assert (Hv : Permutation (objValues (rowSet o k v)) (v :: objValues o)).
    { unfold objValues. now rewrite Hperm. }
    apply (Permutation_in _ Hv) in H. destruct H as [<-|H]; [now right | now left].
Qed.

Lemma rowSet_length (o : Obj JsVal) (k : string) (v : JsVal) :
  (List.length (rowSet o k v) <= S (List.length o))%nat.
Proof.
  destruct (rowSet_cases o k v)
    as [(v1 & Hget & ->) | [(Hget & -> & ->) | (Hget & Hne & Hperm)]].
  - apply objSet_length.
  - lia.
  - apply Permutation_length in Hperm. cbn in Hperm. lia.
Qed.

(** A pair of a key is found under the key when the keys differ from each
    other, and what is found under a key is a pair of the object. *)
Lemma objGet_In (o : Obj JsVal) (k : string) (v : JsVal) :
  objGet o k = Some v -> In (k, v) o.
Proof.
  induction o as [|[k0 v0] o IH]; cbn; [discriminate|].
  destruct (String.eqb_spec k0 k) as [->|_].
  - intros [= ->]. now left.
  - intros H. right. now apply IH.
Qed.

Lemma In_objGet (o : Obj JsVal) (k : string) (v : JsVal) :
  NoDup (objKeys o) -> In (k, v) o -> objGet o k = Some v.
Proof.
  induction o as [|[k0 v0] o IH]; cbn; [tauto|].
  intros Hnd [[= -> ->]|Hin].
  - now rewrite String.eqb_refl.
  - inversion Hnd as [|? ? Hnotin Hnd']; subst.
    destruct (String.eqb_spec k0 k) as [->|_]; [|now apply IH].
    exfalso. apply Hnotin. change k with (fst (k, v)). now apply in_map.
Qed.

(** *** The order of the properties *)

Lemma keyBefore_index (a b : string) (m : N) :
  arrayIndex a = Some m ->
  (match arrayIndex b with Some n => (m < n)%N | None => True end) ->
  keyBefore a b.
Proof. unfold keyBefore. intros ->. now destruct (arrayIndex b). Qed.

Lemma insertIndex_sorted (n : N) (k : string) (v : JsVal) (o : Obj JsVal) :
  arrayIndex k = Some n -> ~ In k (objKeys o) ->
  StronglySorted keyBefore (objKeys o) ->
  StronglySorted keyBefore (objKeys (insertIndex n k v o)).
Proof.
  intros Hk. induction o as [|[k0 v0] o IH]; intros Hnotin Hs.
  { cbn. constructor; constructor. }
  cbn [objKeys map fst] in Hs, Hnotin.
  inversion Hs as [|? ? Hs' Hall]; subst.
  assert (Hne : k0 <> k) by (intros E; apply Hnotin; now left).
  assert (Hnotin' : ~ In k (objKeys o)) by (intros H; apply Hnotin; now right).
  assert (Hfront : forall b, In b (objKeys o) -> keyBefore k0 b)
    by now apply Forall_forall.
  cbn [insertIndex].
  destruct (arrayIndex k0) as [n'|] eqn:Hk0.
  - destruct (N.ltb_spec n' n) as [Hlt|Hge].
    + cbn [objKeys map fst]. constructor; [now apply IH|].
      apply Forall_forall. intros b Hb.
      assert (Hb' : In b (k :: objKeys o)).
      { apply (Permutation_in b
                 (Permutation_map fst (insertIndex_perm n k v o))). exact Hb. }
      destruct Hb' as [<-|Hb'].
      * apply (keyBefore_index _ _ n' Hk0). now rewrite Hk.
      * now apply Hfront.
    + cbn [objKeys map fst]. constructor; [exact Hs|].
      assert (Hlt : (n < n')%N).
      { destruct (N.eq_dec n n') as [E|]; [|lia].
        subst n'. exfalso. apply Hne. now apply (arrayIndex_inj _ _ n). }
      constructor.
      * apply (keyBefore_index _ _ n Hk). now rewrite Hk0.
      * apply Forall_forall. intros b Hb.
        apply (keyBefore_index _ _ n Hk).
        specialize (Hfront b Hb). unfold keyBefore in Hfront.
        rewrite Hk0 in Hfront. destruct (arrayIndex b); [lia | exact I].
  - cbn [objKeys map fst]. constructor; [exact Hs|].
    constructor.
    + apply (keyBefore_index _ _ n Hk). now rewrite Hk0.
    + apply Forall_forall. intros b Hb.
      apply (keyBefore_index _ _ n Hk).
      specialize (Hfront b Hb). unfold keyBefore in Hfront.
      rewrite Hk0 in Hfront. destruct (arrayIndex b); [now contradiction | exact I].
Qed.

Lemma append_sorted (l : list string) (k : string) :
  arrayIndex k = None ->
  StronglySorted keyBefore l -> StronglySorted keyBefore (l ++ [k]).
Proof.
  intros Hk. induction 1 as [|a l Hs IH Hall]; cbn.
  - constructor; constructor.
  - constructor; [exact IH|].
    apply Forall_app. split; [exact Hall|].
    constructor; [|constructor].
    unfold keyBefore. rewrite Hk. now destruct (arrayIndex a).
Qed.

(** An assignment keeps the properties in the order in which they are
    listed. *)
Lemma rowSet_sorted (o : Obj JsVal) (k : string) (v : JsVal) :
  StronglySorted keyBefore (objKeys o) ->
  StronglySorted keyBefore (objKeys (rowSet o k v)).
Proof.
  intros Hs. unfold rowSet. destruct (objGet o k) as [v0|] eqn:Hget.
  { now rewrite objSet_keys, Hget. }
  destruct (String.eqb k "__proto__"); [exact Hs|].
  destruct (arrayIndex k) as [n|] eqn:Hk.
  - apply insertIndex_sorted; trivial. now apply objGet_None_keys.
  - unfold objKeys. rewrite map_app. cbn [map fst]. now apply append_sorted.
Qed.

(** The names that are no array indices stay in order of creation. *)
Lemma rowSet_created (o : Obj JsVal) (k : string) (v : JsVal) :
  objGet o k = None ->
  filter (fun a => negb (isArrayIndex a)) (objKeys (rowSet o k v))
  = filter (fun a => negb (isArrayIndex a)) (objKeys o)
    ++ (if negb (isArrayIndex k) && negb (String.eqb k "__proto__")
        then [k] else []).
Proof.
  intros Hget. unfold rowSet. rewrite Hget.
  destruct (String.eqb k "__proto__").
  { rewrite andb_false_r. now rewrite app_nil_r. }
  rewrite andb_true_r. unfold isArrayIndex at 3.
  destruct (arrayIndex k) as [n|] eqn:Hk; cbn [negb].
  - rewrite app_nil_r. clear Hget.
    induction o as [|[k0 v0] o IH]; cbn [insertIndex].
    + cbn. unfold isArrayIndex. now rewrite Hk.
    + assert (Hhead : filter (fun a => negb (isArrayIndex a))
                        (objKeys ((k, v) :: (k0, v0) :: o))
                      = filter (fun a => negb (isArrayIndex a))
                          (objKeys ((k0, v0) :: o))).
      { cbn [objKeys map fst filter]. unfold isArrayIndex at 1.
        now rewrite Hk. }
      destruct (arrayIndex k0) as [n'|] eqn:Hk0; [|exact Hhead].
      destruct (n' <? n)%N; [|exact Hhead].
      cbn [objKeys map fst filter]. unfold objKeys in IH. now rewrite IH.
  - unfold objKeys. rewrite map_app, filter_app. cbn [map fst filter].
    unfold isArrayIndex at 2. now rewrite Hk.
Qed.

End RowSetFacts.

(** ** [parseExcelFile] *)

Section ParseFacts.
Variable env : Env.

(** Headers with other keys leave the property [key] alone. *)
Lemma fillRow_other (headers : list JsVal) :
  forall (rowObj : Obj JsVal) (row : list JsVal) (index : nat) (key : string),
    (forall h, In h headers -> toString env h <> key) ->
    objGet (fillRow env rowObj row index headers) key = objGet rowObj key.
Proof.
  induction headers as [|header rest IH]; intros rowObj row index key H; cbn.
  - reflexivity.
  - rewrite IH by (intros h Hh; apply H; now right).
    apply objGet_rowSet_other, H. now left.
Qed.

(** The property named by a header holds the cell at the header's position,
    or [''] when that cell is falsy, unless a later header has the same
    name or the name is [__proto__]. *)
Lemma fillRow_get (headers : list JsVal) :
  forall (rowObj : Obj JsVal) (row : list JsVal) (start i : nat) (header : JsVal),
    nth_error headers i = Some header ->
    toString env header <> "__proto__" ->
    (forall j h, (i < j)%nat -> nth_error headers j = Some h ->
                 toString env h <> toString env header) ->
    objGet (fillRow env rowObj row start headers) (toString env header)
    = Some (jsOr (cellAt row (start + i)) (JStr "")).
Proof.
  induction headers as [|h0 rest IH];
    intros rowObj row start [|i] header Hn Hproto Hlast; try discriminate.
  - cbn in Hn. injection Hn as ->. cbn [fillRow].
    rewrite fillRow_other.
    + rewrite Nat.add_0_r. now apply objGet_rowSet_same.
    + intros h Hh. apply In_nth_error in Hh. destruct Hh as [j Hj].
      apply (Hlast (S j)); [lia | exact Hj].
  - cbn in Hn. cbn [fillRow].
    replace (start + S i)%nat with (S start + i)%nat by lia.
    apply IH; [exact Hn | exact Hproto |].
    intros j h Hj Hh. apply (Hlast (S j)); [lia | exact Hh].
Qed.

(** No header makes an own property [__proto__]. *)
Lemma fillRow_proto (headers : list JsVal) :
  forall (rowObj : Obj JsVal) (row : list JsVal) (index : nat),
    objGet rowObj "__proto__" = None ->
    objGet (fillRow env rowObj row index headers) "__proto__" = None.
Proof.
  induction headers as [|header rest IH]; intros rowObj row index H; cbn [fillRow].
  - exact H.
  - apply IH.
    destruct (String.eqb_spec (toString env header) "__proto__") as [->|Hne].
    + now rewrite rowSet_proto.
    + now rewrite objGet_rowSet_other.
Qed.

Lemma notEmptyStr_true (v : JsVal) : notEmptyStr v = true <-> v <> JStr "".
Proof.
  destruct v as [| |b|q|s]; cbn; try (split; [discriminate | reflexivity]).
  rewrite negb_true_iff. split.
  - intros H [= ->]. discriminate.
  - intros H. apply String.eqb_neq. intros ->. now apply H.
Qed.

Lemma keepRow_true (row : Obj JsVal) :
  keepRow row = true <-> exists v, In v (objValues row) /\ v <> JStr "".
Proof.
  unfold keepRow. rewrite existsb_exists.
  split; intros [v [Hv H]]; exists v; (split; [exact Hv|]);
    now apply notEmptyStr_true.
Qed.

(** What a successful parse returns. *)
Lemma parseExcelFile_inr workbook sheetName data :
  parseExcelFile env workbook sheetName = inr data ->
  exists first others,
    objGet workbook sheetName = Some (first :: others) /\
    data = ExcelData.mk (filter truthy first) (filter truthy first)
             (filter keepRow (map (toRowObj env (filter truthy first)) others)).
Proof.
  unfold parseExcelFile.
  destruct (objGet workbook sheetName) as [[|first others]|]; try discriminate.
  intros [= <-]. now exists first, others.
Qed.

Lemma truthy_JStr (s : string) : truthy (JStr s) = true -> s <> "".
Proof. cbn. rewrite negb_true_iff. intros H ->. discriminate. Qed.

Lemma jsOr_empty (v : JsVal) :
  truthy (jsOr v (JStr "")) = true \/ jsOr v (JStr "") = JStr "".
Proof.
  unfold jsOr. destruct (truthy v) eqn:E; [now left | now right].
Qed.

Lemma notEmptyStr_jsOr (v : JsVal) :
  notEmptyStr (jsOr v (JStr "")) = truthy v.
Proof.
  unfold jsOr. destruct (truthy v) eqn:E; [|reflexivity].
  destruct v as [| |b|q|s]; try reflexivity; try discriminate. exact E.
Qed.

(** What the [forEach] keeps of a row object under construction. *)
Lemma fillRow_keeps (headers : list JsVal) :
  forall (rowObj : Obj JsVal) (row : list JsVal) (index : nat),
    NoDup (objKeys rowObj) ->
    StronglySorted keyBefore (objKeys rowObj) ->
    (forall v, In v (objValues rowObj) -> truthy v = true \/ v = JStr "") ->
    let result := fillRow env rowObj row index headers in
    NoDup (objKeys result) /\
    StronglySorted keyBefore (objKeys result) /\
    (forall k, In k (objKeys result) <->
               In k (objKeys rowObj) \/
               (In k (map (toString env) headers) /\ k <> "__proto__")) /\
    (forall v, In v (objValues result) -> truthy v = true \/ v = JStr "") /\
    (List.length result <= List.length rowObj + List.length headers)%nat.
Proof.
  induction headers as [|header rest IH];
    intros rowObj row index Hnd Hs Hval result.
  - subst result. cbn. repeat split; trivial; try tauto. lia.
  - subst result. cbn [fillRow].
    set (o1 := rowSet rowObj (toString env header)
                 (jsOr (cellAt row index) (JStr ""))).
    assert (Hval1 : forall v, In v (objValues o1) -> truthy v = true \/ v = JStr "").
    { intros v Hv. apply rowSet_values in Hv. destruct Hv as [Hv| ->].
      - now apply Hval.
      - apply jsOr_empty. }
    destruct (IH o1 row (S index)) as (Hnd' & Hs' & Hk' & Hv' & Hl');
      [now apply rowSet_NoDup | now apply rowSet_sorted | exact Hval1 |].
    split; [exact Hnd'|]. split; [exact Hs'|]. split; [|split; [exact Hv'|]].
    + intros k. rewrite Hk'. unfold o1. rewrite rowSet_keys_In.
      cbn [map In]. split.
      * intros [[H|[-> H]]|[H1 H2]]; auto.
      * intros [H|[[H|H] H2]]; auto. subst k. auto.
    + pose proof (rowSet_length rowObj (toString env header)
                    (jsOr (cellAt row index) (JStr ""))) as Hl1.
      fold o1 in Hl1. cbn [List.length]. lia.
Qed.

(** With column names that differ, the names that are no array indices
    come in the order of the headers. *)
Lemma fillRow_created (headers : list JsVal) :
  forall (rowObj : Obj JsVal) (row : list JsVal) (index : nat),
    NoDup (map (toString env) headers) ->
    (forall h, In h headers -> objGet rowObj (toString env h) = None) ->
    filter (fun a => negb (isArrayIndex a))
           (objKeys (fillRow env rowObj row index headers))
    = filter (fun a => negb (isArrayIndex a)) (objKeys rowObj)
      ++ filter (fun a => negb (isArrayIndex a) && negb (String.eqb a "__proto__"))
                (map (toString env) headers).
Proof.
  induction headers as [|header rest IH]; intros rowObj row index Hnd Hfresh;
    cbn [fillRow map filter].
  - now rewrite app_nil_r.
  - inversion Hnd as [|? ? Hnotin Hnd']; subst.
    rewrite IH; [|exact Hnd'|].
    + rewrite rowSet_created by (apply Hfresh; now left).
      rewrite <- app_assoc. f_equal.
      now destruct (negb (isArrayIndex (toString env header))
                    && negb (String.eqb (toString env header) "__proto__")).
    + intros h Hh. rewrite objGet_rowSet_other.
      * apply Hfresh. now right.
      * intros E. apply Hnotin. rewrite E. now apply in_map.
Qed.

Lemma nth_error_filter {A : Type} (p : A -> bool) (l : list A) :
  forall (j : nat) (a : A),
    nth_error l j = Some a -> p a = true ->
    nth_error (filter p l) (List.length (filter p (firstn j l))) = Some a.
Proof.
  induction l as [|b l IH]; intros [|j] a Hn Hp; try discriminate.
  - cbn in Hn. injection Hn as ->. cbn. now rewrite Hp.
  - cbn in Hn. cbn [firstn filter].
    destruct (p b); cbn; now apply IH.
Qed.

Lemma filter_all {A : Type} (p : A -> bool) (l : list A) :
  (forall a, In a l -> p a = true) -> filter p l = l.
Proof.
  induction l as [|a l IH]; intros H; cbn; [reflexivity|].
  rewrite (H a) by now left. f_equal. apply IH. intros b Hb. apply H. now right.
Qed.

Lemma filter_none {A : Type} (p : A -> bool) (l : list A) :
  (forall a, In a l -> p a = false) -> filter p l = [].
Proof.
  induction l as [|a l IH]; intros H; cbn; [reflexivity|].
  rewrite (H a) by now left. apply IH. intros b Hb. apply H. now right.
Qed.


End ParseFacts.

(** C7, as the code has it.  A successful parse returns as columns the
    truthy cells of the first sheet row, in sheet order: no column name is
    empty, and a name that occurs twice in the sheet occurs twice in the
    list.  The rows are the row objects built from the other sheet rows,
    in sheet order, without those whose values are all the empty string:
    every row returned has a value that is not the empty string, and every
    row object with such a value is returned. *)
Theorem parse_columns_and_rows
    (env : Env) (workbook : Obj Sheet) (sheetName : string)
    (data : ExcelData.t) :
  parseExcelFile env workbook sheetName = inr data ->
  exists first others,
    objGet workbook sheetName = Some (first :: others) /\
    ExcelData.columns data = filter truthy first /\
    (forall h, In h (ExcelData.columns data) -> truthy h = true) /\
    (forall s, In (JStr s) (ExcelData.columns data) -> s <> "") /\
    ExcelData.rows data
    = filter keepRow (map (toRowObj env (ExcelData.columns data)) others) /\
    (forall row, In row (ExcelData.rows data) ->
                 exists v, In v (objValues row) /\ v <> JStr "") /\
    (forall raw, In raw others ->
                 (exists v, In v (objValues (toRowObj env (ExcelData.columns data) raw))
                            /\ v <> JStr "") ->
                 In (toRowObj env (ExcelData.columns data) raw)
                    (ExcelData.rows data)).
Proof.
  intros H. apply parseExcelFile_inr in H.
  destruct H as (first & others & Hget & ->). cbn [ExcelData.columns ExcelData.rows].
  exists first, others.
  assert (Htruthy : forall h, In h (filter truthy first) -> truthy h = true).
  { intros h Hh. now apply filter_In in Hh. }
  repeat (split; [first [exact Hget | reflexivity | exact Htruthy]|]).
  split; [|split; [reflexivity|split]].
  - intros s Hs. now apply truthy_JStr, Htruthy.
  - intros row Hrow. apply filter_In in Hrow. now apply keepRow_true.
  - intros raw Hraw Hv. apply filter_In. split.
    + now apply in_map.
    + now apply keepRow_true.
Qed.

Lemma parse_columns_and_rows_witness :
  exists data,
    parseExcelFile (Sample.env None None)
      [("Sheet1", [[JStr "Name"; JStr ""; JStr "City"];
                   [JStr "Ada"; JStr "London"];
                   [JNum 0; JStr ""]])] "Sheet1" = inr data /\
    List.length (ExcelData.rows data) = 1%nat /\
    forall row, In row (ExcelData.rows data) ->
                exists v, In v (objValues row) /\ v <> JStr "".
Proof.
  eexists. split; [reflexivity|]. split; [reflexivity|].
  destruct (parse_columns_and_rows (Sample.env None None)
              [("Sheet1", [[JStr "Name"; JStr ""; JStr "City"];
                           [JStr "Ada"; JStr "London"];
                           [JNum 0; JStr ""]])] "Sheet1" _ eq_refl)
    as (first & others & _ & _ & _ & _ & _ & Hrows & _).
  exact Hrows.
Defined.

(** C7, as stated, fails: a sheet whose first row names two columns "A"
    parses to a columns list that holds "A" twice. *)
Lemma parse_columns_repeated :
  exists data,
    parseExcelFile (Sample.env None None)
      [("Sheet1", [[JStr "A"; JStr "A"]; [JNum 1; JNum 2]])] "Sheet1"
    = inr data /\
    ~ NoDup (map (toString (Sample.env None None)) (ExcelData.columns data)).
Proof.
  eexists. split; [reflexivity|].
  cbn. intros H. inversion H as [|? ? Hin _]; subst.
  apply Hin. now left.
Qed.

(** ** Falsy cells *)






(** * Further properties *)

(** ** The font cache *)

Section FontFacts.
Variable env : Env.

(** Every family is served from the same file. *)
Lemma fontPath_inter (fontFamily : string) : fontPath fontFamily = interFile.
Proof.
  unfold fontPath, fontPaths. cbn [objGet].
  repeat match goal with
         | |- context [String.eqb ?a fontFamily] => destruct (String.eqb a fontFamily)
         end; reflexivity.
Qed.

Lemma getFontBytes_cases (fontFamily : string) (cache : FontCache) :
  getFontBytes env fontFamily cache =
  match objGet cache fontFamily with
  | Some bytes => (cache, Some bytes)
  | None =>
      match fetchFont env (fontPath fontFamily) with
      | Some bytes => (objSet cache fontFamily bytes, Some bytes)
      | None =>
          if String.eqb fontFamily "Inter" then (cache, None)
          else
            match objGet cache "Inter" with
            | Some bytes => (cache, Some bytes)
            | None =>
                match fetchFont env (fontPath "Inter") with
                | Some bytes => (objSet cache "Inter" bytes, Some bytes)
                | None => (cache, None)
                end
            end
      end
  end.
Proof.
  unfold getFontBytes, getFontBytesWith.
  destruct (objGet cache fontFamily); [reflexivity|].
  destruct (fetchFont env (fontPath fontFamily)); [reflexivity|].
  destruct (String.eqb fontFamily "Inter"); cbn [negb]; [reflexivity|].
  destruct (objGet cache "Inter"); [reflexivity|].
  destruct (fetchFont env (fontPath "Inter")); reflexivity.
Qed.

(** X1.  A call of [getFontBytes] never removes or replaces what the cache
    holds, and calling it again for the same family, on the cache that the
    first call left, gives the same result and leaves that cache as it
    is. *)
Theorem getFontBytes_settles (fontFamily : string) (cache : FontCache) :
  (forall k bytes,
      objGet cache k = Some bytes ->
      objGet (fst (getFontBytes env fontFamily cache)) k = Some bytes) /\
  getFontBytes env fontFamily (fst (getFontBytes env fontFamily cache))
  = getFontBytes env fontFamily cache.
Proof.
  rewrite (getFontBytes_cases fontFamily cache).
  destruct (objGet cache fontFamily) as [b|] eqn:Hc.
  { cbn [fst]. split; [auto|]. rewrite getFontBytes_cases. now rewrite Hc. }
  destruct (fetchFont env (fontPath fontFamily)) as [b|] eqn:Hf.
  { cbn [fst]. split.
    - intros k bytes Hk. now apply objGet_objSet_fresh.
    - rewrite getFontBytes_cases. now rewrite objGet_objSet_same. }
  destruct (String.eqb_spec fontFamily "Inter") as [->|Hne].
  { cbn [fst]. split; [auto|].
    rewrite getFontBytes_cases. now rewrite Hc, Hf, String.eqb_refl. }
  assert (Hneb : String.eqb fontFamily "Inter" = false) by now apply String.eqb_neq.
  destruct (objGet cache "Inter") as [b|] eqn:Hi.
  { cbn [fst]. split; [auto|].
    rewrite getFontBytes_cases. now rewrite Hc, Hf, Hneb, Hi. }
  destruct (fetchFont env (fontPath "Inter")) as [b|] eqn:Hfi.
  - cbn [fst]. split.
    + intros k bytes Hk. now apply objGet_objSet_fresh.
    + rewrite getFontBytes_cases.
      rewrite objGet_objSet_other by (intros E; now apply Hne).
      now rewrite Hc, Hf, Hneb, objGet_objSet_same.
  - cbn [fst]. split; [auto|].
    rewrite getFontBytes_cases. now rewrite Hc, Hf, Hneb, Hi, Hfi.
Qed.

End FontFacts.

Lemma getFontBytes_settles_witness :
  objGet (fst (getFontBytes (Sample.env None None) "Arial"
                 [("Roboto", [Byte.x01])])) "Roboto"
  = Some [Byte.x01].
Proof.
  apply (proj1 (getFontBytes_settles (Sample.env None None) "Arial"
                  [("Roboto", [Byte.x01])])).
  reflexivity.
Defined.

Section CacheFacts.
Variable env : Env.

Lemma cacheOk_nil : cacheOk env [].
Proof. intros k b H. discriminate H. Qed.

Lemma cacheOk_set (cache : FontCache) (fontFamily : string) (bytes : Bytes) :
  cacheOk env cache ->
  fetchFont env (fontPath fontFamily) = Some bytes ->
  cacheOk env (objSet cache fontFamily bytes).
Proof.
  intros Hok Hf k b Hk.
  destruct (String.eqb_spec fontFamily k) as [<-|Hne].
  - rewrite objGet_objSet_same in Hk. congruence.
  - rewrite objGet_objSet_other in Hk by exact Hne. now apply Hok.
Qed.

(** What [getFontBytes] gives on a cache that agrees with [fetch]. *)
Lemma getFontBytes_ok (fontFamily : string) (cache : FontCache) :
  cacheOk env cache ->
  snd (getFontBytes env fontFamily cache) = fetchFont env interFile /\
  cacheOk env (fst (getFontBytes env fontFamily cache)).
Proof.
  intros Hok. rewrite getFontBytes_cases.
  pose proof (fontPath_inter fontFamily) as Hp.
  pose proof (fontPath_inter "Inter") as Hi.
  destruct (objGet cache fontFamily) as [b|] eqn:Hc.
  { cbn. split; [|exact Hok]. apply Hok in Hc. congruence. }
  destruct (fetchFont env (fontPath fontFamily)) as [b|] eqn:Hf.
  { cbn. split; [congruence|]. now apply cacheOk_set. }
  destruct (String.eqb fontFamily "Inter").
  { cbn. split; [congruence | exact Hok]. }
  destruct (objGet cache "Inter") as [b|] eqn:Hci.
  { apply Hok in Hci. congruence. }
  destruct (fetchFont env (fontPath "Inter")) as [b|] eqn:Hfi.
  - congruence.
  - cbn. split; [congruence | exact Hok].
Qed.

(** X2.  On a cache that holds what fetching gave (the empty cache, or a
    cache that only [getFontBytes] filled, with a [fetch] that answers the
    same every time), [getFontBytes] gives for every family exactly what
    fetching [/fonts/Inter-Regular.ttf] gives, bytes or failure, and leaves
    such a cache.  The family asked for changes nothing, and the fallback
    to Inter never turns a failure into a font. *)
Theorem getFontBytes_is_inter (fontFamily : string) (cache : FontCache) :
  cacheOk env cache ->
  snd (getFontBytes env fontFamily cache) = fetchFont env interFile /\
  (forall otherFamily,
      snd (getFontBytes env fontFamily cache)
      = snd (getFontBytes env otherFamily [])) /\
  cacheOk env (fst (getFontBytes env fontFamily cache)).
Proof.
  intros Hok.
  destruct (getFontBytes_ok fontFamily cache Hok) as [Hres Hcache].
  split; [exact Hres|]. split; [|exact Hcache].
  intros otherFamily.
  destruct (getFontBytes_ok otherFamily [] cacheOk_nil) as [Hother _].
  now rewrite Hres, Hother.
Qed.

End CacheFacts.

Lemma getFontBytes_is_inter_witness :
  snd (getFontBytes (Sample.env None None) "Roboto" [])
  = fetchFont (Sample.env None None) interFile.
Proof.
  apply (proj1 (getFontBytes_is_inter (Sample.env None None) "Roboto" []
                  (cacheOk_nil (Sample.env None None)))).
Defined.

(** ** One row of [generatePDFs]: what the field loop keeps *)

Section LoopFacts.
Variable env : Env.
Variable previewSizes : PreviewSizes.
Variable row : Obj JsVal.

(** Font resolution either leaves [loadedFonts] and the embedded fonts as
    they were, or embeds one font and records it under a name that was not
    loaded. *)
Lemma resolveFont_outcome fontName st st1 r :
  resolveFont env fontName st = (st1, r) ->
  docPages (stDoc st1) = docPages (stDoc st) /\
  docOps (stDoc st1) = docOps (stDoc st) /\
  ((stFonts st1 = stFonts st /\
    docFonts (stDoc st1) = docFonts (stDoc st) /\
    (r = None \/ objGet (stFonts st) fontName = r)) \/
   (exists f,
       objGet (stFonts st) fontName = None /\ r = Some f /\
       stFonts st1 = stFonts st ++ [(fontName, f)] /\
       docFonts (stDoc st1) = docFonts (stDoc st) ++ [f])).
Proof.
  unfold resolveFont.
  destruct (objGet (stFonts st) fontName) as [f|] eqn:Hg.
  - intros [= <- <-]. repeat split. left. repeat split. now right.
  - destruct (getFontBytes env fontName (stCache st)) as [cache' [bytes|]].
    + destruct (embedFont env bytes) as [f|]; intros [= <- <-].
      * repeat split. right. exists f. cbn.
        repeat split. now apply objSet_fresh.
      * repeat split. left. repeat split. now left.
    + intros [= <- <-]. repeat split. left. repeat split. now left.
Qed.

Lemma textArgs_fields field pageIndex page scaleFactor value customFont t :
  textArgs field pageIndex page scaleFactor value customFont = Some t ->
  opPage t = pageIndex /\ opText t = value /\ opFont t = customFont.
Proof.
  rewrite textArgs_eq. intros [= <-]. now repeat split.
Qed.

(** Every way through the body of the field loop, with what the guards
    established on the way. *)
Lemma drawField_outcome field st :
  drawField env previewSizes row field st = st \/
  exists page previewSize st1 r,
    (1 <= PDFField.pageIndex field)%Z /\
    nth_error (docPages (stDoc st)) (Z.to_nat (PDFField.pageIndex field - 1))
      = Some page /\
    sizesGet previewSizes (PDFField.pageIndex field) = Some previewSize /\
    valueOf env row field <> "" /\ valueOf env row field <> "undefined" /\
    resolveFont env (fontNameOf field) st = (st1, r) /\
    (drawField env previewSizes row field st = st1 \/
     exists customFont t,
       r = Some customFont /\
       textArgs field (Z.to_nat (PDFField.pageIndex field - 1)) page
         (Size.width page / Size.width previewSize) (valueOf env row field)
         customFont = Some t /\
       drawTextOk env t = true /\
       drawField env previewSizes row field st = withOp st1 (DrawText t)).
Proof.
  unfold drawField.
  destruct (Z.ltb_spec (PDFField.pageIndex field - 1) 0) as [|Hlo]; [now left|].
  destruct (Z.leb_spec (Z.of_nat (List.length (docPages (stDoc st))))
                       (PDFField.pageIndex field - 1)); [now left|].
  cbn [orb].
  destruct (nth_error _ _) as [page|] eqn:Hn; [|now left].
  destruct (sizesGet _ _) as [previewSize|] eqn:Hs; [|now left].
  destruct (String.eqb_spec (valueOf env row field) "") as [|Hv1]; [now left|].
  destruct (String.eqb_spec (valueOf env row field) "undefined") as [|Hv2];
    [now left|].
  cbn [orb]. right.
  destruct (resolveFont env (fontNameOf field) st) as [st1 r] eqn:Hr.
  exists page, previewSize, st1, r.
  repeat (split; [first [lia | assumption | reflexivity]|]).
  rewrite (tryDrawField_eq env _ _ _ _ _ _ _ _ Hr).
  destruct r as [customFont|]; [|now left].
  destruct (textArgs _ _ _ _ _ _) as [t|] eqn:Ha; [|now left].
  destruct (drawTextOk env t) eqn:Hd; [|now left].
  right. now exists customFont, t.
Qed.

End LoopFacts.

Section RowInvariant.
Variable env : Env.
Variable previewSizes : PreviewSizes.
Variable row : Obj JsVal.

(** One field: [loadedFonts] keeps distinct names and lists the embedded
    fonts; at most one text is drawn. *)
Lemma drawField_step field st :
  NoDup (objKeys (stFonts st)) ->
  docFonts (stDoc st) = objValues (stFonts st) ->
  let st' := drawField env previewSizes row field st in
  NoDup (objKeys (stFonts st')) /\
  docFonts (stDoc st') = objValues (stFonts st') /\
  docPages (stDoc st') = docPages (stDoc st) /\
  (exists more, docFonts (stDoc st') = docFonts (stDoc st) ++ more) /\
  (forall name, In name (objKeys (stFonts st')) ->
                In name (objKeys (stFonts st)) \/ name = fontNameOf field) /\
  (docOps (stDoc st') = docOps (stDoc st) \/
   exists t,
     docOps (stDoc st') = docOps (stDoc st) ++ [DrawText t] /\
     drawnFor env row (List.length (docPages (stDoc st))) field t /\
     In (opFont t) (docFonts (stDoc st'))).
Proof.
  intros Hnd Hfonts st'.
  destruct (drawField_outcome env previewSizes row field st)
    as [E | (page & pv & st1 & r & Hp & Hn & Hs & Hv1 & Hv2 & Hr & Hout)];
    fold st' in E || idtac.
  { rewrite E. repeat split; trivial.
    - exists []. now rewrite app_nil_r.
    - intros name H. now left.
    - now left. }
  destruct (resolveFont_outcome env _ _ _ _ Hr) as (Hpages & Hops & Hcase).
  assert (H1 : NoDup (objKeys (stFonts st1)) /\
               docFonts (stDoc st1) = objValues (stFonts st1) /\
               (exists more, docFonts (stDoc st1) = docFonts (stDoc st) ++ more) /\
               (forall name, In name (objKeys (stFonts st1)) ->
                  In name (objKeys (stFonts st)) \/ name = fontNameOf field) /\
               (forall f, r = Some f -> In f (docFonts (stDoc st1)))).
  { destruct Hcase as [(Hf & Hd & Hres) | (f & Hg & -> & Hf & Hd)].
    - rewrite Hf, Hd. repeat split; trivial.
      + exists []. now rewrite app_nil_r.
      + intros name H. now left.
      + intros f ->. destruct Hres as [Hres|Hres]; [discriminate|].
        rewrite Hfonts. now apply objGet_Some_values in Hres.
    - rewrite Hf, Hd. unfold objKeys, objValues in *.
      rewrite !map_app. cbn [map fst snd]. repeat split.
      + apply NoDup_app_remove_l with (l := []). cbn.
        apply NoDup_app; [exact Hnd | constructor; [tauto | constructor] |].
        intros k Hk [<-|[]]. now apply (objGet_None_keys _ _ Hg).
      + now rewrite Hfonts.
      + now exists [f].
      + intros name H. apply in_app_or in H. destruct H as [H|[<-|[]]]; auto.
      + intros f' [= <-]. apply in_or_app. right. now left. }
  destruct H1 as (Hnd1 & Hfonts1 & Hmore & Hkeys & Hfont).
  destruct Hout as [E | (customFont & t & -> & Ha & Hd & E)]; fold st' in E.
  - rewrite E. repeat split; trivial. left. exact Hops.
  - rewrite E. unfold withOp. cbn [stFonts stDoc docFonts docPages docOps].
    repeat split; trivial. right. exists t.
    destruct (textArgs_fields _ _ _ _ _ _ _ Ha) as (Hpg & Htx & Hft).
    split; [now rewrite Hops|]. split.
    + unfold drawnFor. rewrite Hpg, Htx. repeat split; trivial.
      * rewrite Z2Nat.id; lia.
      * apply nth_error_Some. rewrite Hn. discriminate.
    + rewrite Hft. now apply Hfont.
Qed.

End RowInvariant.

Section RowInvariantLoop.
Variable env : Env.
Variable previewSizes : PreviewSizes.
Variable row : Obj JsVal.

(** The whole field loop, from any state in which [loadedFonts] lists the
    embedded fonts under distinct names. *)
Lemma drawFields_keeps fields :
  forall st,
    NoDup (objKeys (stFonts st)) ->
    docFonts (stDoc st) = objValues (stFonts st) ->
    let st' := drawFields env previewSizes row fields st in
    NoDup (objKeys (stFonts st')) /\
    docFonts (stDoc st') = objValues (stFonts st') /\
    docPages (stDoc st') = docPages (stDoc st) /\
    (exists more, docFonts (stDoc st') = docFonts (stDoc st) ++ more) /\
    (forall name, In name (objKeys (stFonts st')) ->
                  In name (objKeys (stFonts st)) \/
                  exists field, In field fields /\ fontNameOf field = name) /\
    (exists new,
        docOps (stDoc st') = docOps (stDoc st) ++ map DrawText new /\
        (List.length new <= List.length fields)%nat /\
        forall t, In t new ->
                  (exists field,
                      In field fields /\
                      drawnFor env row (List.length (docPages (stDoc st))) field t) /\
                  In (opFont t) (docFonts (stDoc st'))).
Proof.
  induction fields as [|field rest IH]; intros st Hnd Hfonts st'.
  - cbn in st'. subst st'. repeat split; trivial.
    + exists []. now rewrite app_nil_r.
    + intros name H. now left.
    + exists []. cbn. rewrite app_nil_r.
      split; [reflexivity|]. split; [lia|]. intros t [].
  - pose proof (drawField_step env previewSizes row field st Hnd Hfonts) as Hstep.
    cbv zeta in Hstep.
    set (st1 := drawField env previewSizes row field st) in *.
    destruct Hstep as (Hnd1 & Hfonts1 & Hpages1 & [more1 Hmore1] & Hkeys1 & Hops1).
    specialize (IH st1 Hnd1 Hfonts1). cbv zeta in IH.
    change (drawFields env previewSizes row rest st1) with st' in IH.
    destruct IH as (Hnd' & Hfonts' & Hpages' & [more' Hmore'] & Hkeys'
                    & (new' & Hops' & Hlen' & Hall')).
    split; [exact Hnd'|]. split; [exact Hfonts'|].
    split; [congruence|]. split.
    { exists (more1 ++ more'). now rewrite Hmore', Hmore1, app_assoc. }
    split.
    { intros name H. destruct (Hkeys' name H) as [H1|[f [Hf E]]].
      - destruct (Hkeys1 name H1) as [H0 | ->]; [now left|].
        right. exists field. split; [now left | reflexivity].
      - right. exists f. split; [now right | exact E]. }
    assert (Hlift : forall t, In t new' ->
              (exists f, In f (field :: rest) /\
                         drawnFor env row (List.length (docPages (stDoc st))) f t) /\
              In (opFont t) (docFonts (stDoc st'))).
    { intros t Ht. destruct (Hall' t Ht) as [[f [Hf Hd]] Hfont].
      split; [|exact Hfont]. exists f. split; [now right|].
      now rewrite <- Hpages1. }
    destruct Hops1 as [E | (t1 & E & Hd & Hfont)].
    + exists new'. split; [now rewrite Hops', E|]. split; [cbn; lia|exact Hlift].
    + exists (t1 :: new'). split.
      { rewrite Hops', E, <- app_assoc. reflexivity. }
      split; [cbn; lia|].
      intros t0 [<-|Ht0]; [|now apply Hlift].
      split.
      * exists field. split; [now left | exact Hd].
      * rewrite Hmore'. apply in_or_app. now left.
Qed.

End RowInvariantLoop.

(** X3.  In the document of a row, each font family that the row's fields
    use is embedded at most once: when the field loop ends, [loadedFonts]
    holds pairwise distinct names, each the family of one of the fields,
    and the fonts embedded in the document are exactly the fonts under
    those names, in the order of embedding. *)
Theorem fonts_embedded_once
    (env : Env) (previewSizes : PreviewSizes) (row : Obj JsVal)
    (fields : list PDFField.t) (cache : FontCache) (pages : list Size.t) :
  let st := drawFields env previewSizes row fields (rowStart cache pages) in
  NoDup (objKeys (stFonts st)) /\
  docFonts (stDoc st) = objValues (stFonts st) /\
  (forall name, In name (objKeys (stFonts st)) ->
                exists field, In field fields /\ fontNameOf field = name) /\
  (List.length (docFonts (stDoc st)) <= List.length fields)%nat.
Proof.
  intros st.
  destruct (drawFields_keeps env previewSizes row fields (rowStart cache pages))
    as (Hnd & Hfonts & _ & _ & Hkeys & _); [constructor | reflexivity |].
  fold st in Hnd, Hfonts, Hkeys.
  assert (Hnames : forall name, In name (objKeys (stFonts st)) ->
            exists field, In field fields /\ fontNameOf field = name).
  { intros name H. destruct (Hkeys name H) as [[]|H']. exact H'. }
  repeat split; trivial.
  rewrite Hfonts. unfold objValues. rewrite length_map.
  rewrite <- (length_map fst (stFonts st)).
  rewrite <- (length_map fontNameOf fields).
  apply NoDup_incl_length; [exact Hnd|].
  intros name H. destruct (Hnames name H) as [f [Hf <-]]. now apply in_map.
Qed.

Section RowDrawn.
Variable env : Env.
Variable previewSizes : PreviewSizes.
Variable row : Obj JsVal.

(** The field loop field by field: what each field drew, if anything. *)
Lemma drawFields_drawn fields :
  forall st,
    NoDup (objKeys (stFonts st)) ->
    docFonts (stDoc st) = objValues (stFonts st) ->
    let st' := drawFields env previewSizes row fields st in
    exists drawn : list (option TextOp),
      docOps (stDoc st') = docOps (stDoc st) ++ drawnOps drawn /\
      Forall2 (fun field o =>
                 match o with
                 | Some t =>
                     drawnFor env row (List.length (docPages (stDoc st))) field t /\
                     In (opFont t) (docFonts (stDoc st'))
                 | None => True
                 end) fields drawn.
Proof.
  induction fields as [|field rest IH]; intros st Hnd Hfonts st'.
  - exists []. cbn. split; [now rewrite app_nil_r | constructor].
  - pose proof (drawField_step env previewSizes row field st Hnd Hfonts) as Hstep.
    cbv zeta in Hstep.
    set (st1 := drawField env previewSizes row field st) in *.
    destruct Hstep as (Hnd1 & Hfonts1 & Hpages1 & _ & _ & Hops1).
    destruct (drawFields_keeps env previewSizes row rest st1 Hnd1 Hfonts1)
      as (_ & _ & _ & [more Hmore] & _).
    destruct (IH st1 Hnd1 Hfonts1) as (drawn & Hops & Hall).
    change (drawFields env previewSizes row rest st1) with st' in Hmore, Hops, Hall.
    rewrite Hpages1 in Hall.
    destruct Hops1 as [E | (t & E & Hd & Hfont)].
    + exists (None :: drawn). split.
      * unfold drawnOps in *. cbn [flat_map app]. now rewrite Hops, E.
      * constructor; [exact I | exact Hall].
    + exists (Some t :: drawn). split.
      * unfold drawnOps in *. cbn [flat_map].
        rewrite Hops, E, <- app_assoc. reflexivity.
      * constructor; [|exact Hall].
        split; [exact Hd|]. rewrite Hmore. apply in_or_app. now left.
Qed.

End RowDrawn.

(** X4.  All that the field loop draws on the document of a row is text:
    at most one operation per field, in the order of the fields.  The
    operation of a field shows the row's value for the field's column, a
    value that is neither empty nor "undefined", on the field's page,
    which exists in the template, with a font embedded in the same
    document.  The pages of the document are those of the template. *)
Theorem row_draws_only_values
    (env : Env) (previewSizes : PreviewSizes) (row : Obj JsVal)
    (fields : list PDFField.t) (cache : FontCache) (pages : list Size.t) :
  let st := drawFields env previewSizes row fields (rowStart cache pages) in
  docPages (stDoc st) = pages /\
  exists drawn : list (option TextOp),
    docOps (stDoc st) = drawnOps drawn /\
    Forall2 (fun field o =>
               match o with
               | Some t =>
                   drawnFor env row (List.length pages) field t /\
                   In (opFont t) (docFonts (stDoc st))
               | None => True
               end) fields drawn.
Proof.
  intros st.
  destruct (drawFields_keeps env previewSizes row fields (rowStart cache pages))
    as (_ & _ & Hpages & _); [constructor | reflexivity |].
  destruct (drawFields_drawn env previewSizes row fields (rowStart cache pages))
    as (drawn & Hops & Hall); [constructor | reflexivity |].
  fold st in Hpages, Hops, Hall.
  split; [exact Hpages|].
  exists drawn. split; [exact Hops | exact Hall].
Qed.

Lemma fonts_embedded_once_witness :
  exists field,
    In field [Sample.field "Name" 1 false; Sample.field "Name" 1 true] /\
    fontNameOf field = "Inter".
Proof.
  apply (proj1 (proj2 (proj2
           (fonts_embedded_once (Sample.env None None) Sample.previewSizes
              (Sample.row "Ada")
              [Sample.field "Name" 1 false; Sample.field "Name" 1 true]
              [] [Size.mk 600 800])))).
  left. reflexivity.
Defined.

Lemma row_draws_only_values_witness :
  exists t,
    docOps (stDoc (drawFields (Sample.env None None) Sample.previewSizes
                     [("Name", JStr "Ada"); ("City", JStr "")]
                     [Sample.field "City" 1 false; Sample.field "Name" 1 false]
                     (rowStart [] [Size.mk 600 800])))
    = [DrawText t] /\
    opText t = "Ada" /\
    In (opFont t)
       (docFonts (stDoc (drawFields (Sample.env None None) Sample.previewSizes
                           [("Name", JStr "Ada"); ("City", JStr "")]
                           [Sample.field "City" 1 false;
                            Sample.field "Name" 1 false]
                           (rowStart [] [Size.mk 600 800])))).
Proof.
  pose proof (row_draws_only_values (Sample.env None None) Sample.previewSizes
                [("Name", JStr "Ada"); ("City", JStr "")]
                [Sample.field "City" 1 false; Sample.field "Name" 1 false] []
                [Size.mk 600 800]) as T.
  cbv zeta in T. destruct T as (_ & drawn & Hops & Hall).
  inversion Hall as [|f1 o1 fs1 os1 _ Hrest E1 E2]; subst.
  inversion Hrest as [|f2 o2 fs2 os2 H2 Hnil E3 E4]; subst.
  inversion Hnil; subst.
  remember (docOps (stDoc (drawFields (Sample.env None None)
                             Sample.previewSizes
                             [("Name", JStr "Ada"); ("City", JStr "")]
                             [Sample.field "City" 1 false;
                              Sample.field "Name" 1 false]
                             (rowStart [] [Size.mk 600 800])))) as ops eqn:Eops.
  vm_compute in Eops. subst ops.
  destruct o1 as [t1|], o2 as [t2|]; cbn in Hops; try discriminate Hops.
  - injection Hops as <-. eexists. split; [reflexivity|].
    split; [reflexivity|].
    vm_compute. now left.
  - injection Hops as <-. cbv beta iota in H2. destruct H2 as [_ Hfont].
    eexists. split; [reflexivity|]. split; [reflexivity | exact Hfont].
Defined.

(** ** Rows do not influence each other *)

Section Independence.
Variable env : Env.
Variable previewSizes : PreviewSizes.
Variable row : Obj JsVal.

Lemma resolveFont_sim fontName a b :
  sameRow env a b ->
  snd (resolveFont env fontName a) = snd (resolveFont env fontName b) /\
  sameRow env (fst (resolveFont env fontName a)) (fst (resolveFont env fontName b)).
Proof.
  intros (Hf & Hd & Ha & Hb). unfold resolveFont. rewrite <- Hf.
  destruct (objGet (stFonts a) fontName) as [f|].
  { cbn. repeat split; trivial. }
  destruct (getFontBytes_ok env fontName _ Ha) as [Hra Hca].
  destruct (getFontBytes_ok env fontName _ Hb) as [Hrb Hcb].
  destruct (getFontBytes env fontName (stCache a)) as [ca ra].
  destruct (getFontBytes env fontName (stCache b)) as [cb rb].
  cbn [fst snd] in *. rewrite Hra, Hrb.
  destruct (fetchFont env interFile) as [bytes|].
  - destruct (embedFont env bytes) as [f|]; cbn.
    + unfold sameRow, withFont, withCache. cbn. rewrite Hf, Hd. now repeat split.
    + unfold sameRow, withCache. cbn. now repeat split.
  - cbn. unfold sameRow, withCache. cbn. now repeat split.
Qed.

Lemma drawField_sim field a b :
  sameRow env a b ->
  sameRow env (drawField env previewSizes row field a)
              (drawField env previewSizes row field b).
Proof.
  intros Hab. pose proof Hab as (Hf & Hd & Ha & Hb).
  unfold drawField. rewrite <- Hd.
  destruct (_ || _); [exact Hab|].
  destruct (nth_error _ _) as [page|]; [|exact Hab].
  destruct (sizesGet _ _) as [previewSize|]; [|exact Hab].
  destruct (_ || _); [exact Hab|].
  unfold tryDrawField.
  destruct (resolveFont_sim (fontNameOf field) a b Hab) as [Hr Hs].
  destruct (resolveFont env (fontNameOf field) a) as [a1 ra].
  destruct (resolveFont env (fontNameOf field) b) as [b1 rb].
  cbn [fst snd] in *. subst rb.
  destruct ra as [customFont|]; [|exact Hs].
  destruct (textArgs _ _ _ _ _ _) as [op|]; [|exact Hs].
  destruct (drawTextOk env op); [|exact Hs].
  destruct Hs as (Hf1 & Hd1 & Ha1 & Hb1).
  unfold sameRow, withOp. cbn. rewrite Hf1, Hd1. now repeat split.
Qed.

Lemma drawFields_sim fields :
  forall a b,
    sameRow env a b ->
    sameRow env (drawFields env previewSizes row fields a)
                (drawFields env previewSizes row fields b).
Proof.
  induction fields as [|field rest IH]; intros a b Hab; [exact Hab|].
  rewrite !drawFields_cons. now apply IH, drawField_sim.
Qed.

End Independence.

(** ** Fields that fail *)

Section Skipping.
Variable env : Env.
Variable previewSizes : PreviewSizes.
Variable row : Obj JsVal.







End Skipping.



Section Batch.
Variable env : Env.
Variable templateBytes : Bytes.
Variable fields : list PDFField.t.
Variable previewSizes : PreviewSizes.

(** The buffer of a row does not depend on what the cache holds, and the
    row leaves a cache that agrees with [fetch]. *)
Lemma processRow_sim row cache :
  cacheOk env cache ->
  snd (processRow env templateBytes fields previewSizes row cache)
  = snd (processRow env templateBytes fields previewSizes row []) /\
  cacheOk env (fst (processRow env templateBytes fields previewSizes row cache)).
Proof.
  intros Hok. unfold processRow.
  destruct (load env templateBytes) as [pages|]; [|now split].
  cbn [fst snd].
  destruct (drawFields_sim env previewSizes row fields
              (mkState cache [] (mkDoc pages [] []))
              (mkState [] [] (mkDoc pages [] [])))
    as (_ & Hd & Ha & _).
  { unfold sameRow. cbn. repeat split; trivial. apply cacheOk_nil. }
  now rewrite Hd.
Qed.

Lemma rowOutcomes_alone rows :
  forall cache,
    cacheOk env cache ->
    rowOutcomes env templateBytes fields previewSizes rows cache
    = map (fun row =>
             snd (processRow env templateBytes fields previewSizes row []))
          rows.
Proof.
  induction rows as [|row rest IH]; intros cache Hok; cbn; [reflexivity|].
  destruct (processRow_sim row cache Hok) as [Hs Hc].
  destruct (processRow env templateBytes fields previewSizes row cache)
    as [cache' out].
  cbn [fst snd] in *. now rewrite Hs, IH.
Qed.

Lemma rowOutcomes_no_template rows :
  load env templateBytes = None ->
  forall cache,
    produced (rowOutcomes env templateBytes fields previewSizes rows cache) = [].
Proof.
  intros Hload. induction rows as [|row rest IH]; intros cache; cbn; [reflexivity|].
  unfold processRow at 1. rewrite Hload. cbn. apply IH.
Qed.

Lemma rowOutcomes_all rows :
  (forall doc, save env doc <> None) ->
  load env templateBytes <> None ->
  forall cache,
    List.length
      (produced (rowOutcomes env templateBytes fields previewSizes rows cache))
    = List.length rows.
Proof.
  intros Hsave Hload.
  induction rows as [|row rest IH]; intros cache; cbn; [reflexivity|].
  unfold processRow at 1.
  destruct (load env templateBytes) as [pages|]; [|now contradiction Hload].
  match goal with
  | |- context [save env ?d] =>
      destruct (save env d) as [pdfBytes|] eqn:E; [|now apply Hsave in E]
  end.
  cbn. now rewrite IH.
Qed.

End Batch.

(** X5.  When the font cache agrees with [fetch] at the call (it does when
    empty), the buffer that a row yields is the one it yields when
    processed alone with an empty cache: it depends on the template, the
    fields, the preview sizes and that row only.  The result for a batch is
    the result for its first rows followed by the result for the others. *)
Theorem rows_are_independent
    (env : Env) (templateFile : Bytes) (excelData : ExcelData.t)
    (fields : list PDFField.t) (previewSizes : PreviewSizes)
    (cache : FontCache) :
  cacheOk env cache ->
  generatePDFs env templateFile excelData fields previewSizes cache
  = produced (map (fun row =>
                     snd (processRow env templateFile fields previewSizes row []))
                  (ExcelData.rows excelData)) /\
  (forall first others : ExcelData.t,
      ExcelData.rows excelData = ExcelData.rows first ++ ExcelData.rows others ->
      generatePDFs env templateFile excelData fields previewSizes cache
      = generatePDFs env templateFile first fields previewSizes cache
        ++ generatePDFs env templateFile others fields previewSizes cache).
Proof.
  intros Hok.
  assert (E : forall data,
             generatePDFs env templateFile data fields previewSizes cache
             = produced (map (fun row =>
                                snd (processRow env templateFile fields
                                       previewSizes row []))
                             (ExcelData.rows data))).
  { intros data. unfold generatePDFs.
    rewrite generateLoop_produced. cbn [app].
    now rewrite rowOutcomes_alone. }
  split; [apply E|].
  intros first others Hrows.
  rewrite !E, Hrows, map_app. apply produced_app.
Qed.

Lemma rows_are_independent_witness :
  generatePDFs (Sample.env None (Some "C")) Sample.template
    (Sample.excelData ["A"; "C"; "B"; "D"])
    [Sample.field "Name" 1 false] Sample.previewSizes []
  = generatePDFs (Sample.env None (Some "C")) Sample.template
      (Sample.excelData ["A"; "C"])
      [Sample.field "Name" 1 false] Sample.previewSizes []
    ++ generatePDFs (Sample.env None (Some "C")) Sample.template
         (Sample.excelData ["B"; "D"])
         [Sample.field "Name" 1 false] Sample.previewSizes [].
Proof.
  apply (proj2 (rows_are_independent (Sample.env None (Some "C"))
                  Sample.template (Sample.excelData ["A"; "C"; "B"; "D"])
                  [Sample.field "Name" 1 false] Sample.previewSizes []
                  (cacheOk_nil (Sample.env None (Some "C"))))).
  reflexivity.
Defined.

(** X6.  A template that does not open makes every row fail: the result
    is the empty list, not an exception.  With a template that opens and a
    writer that serializes every document, the result has exactly one
    buffer per row, whatever the fields and the rows hold. *)
Theorem batch_all_or_nothing
    (env : Env) (templateFile : Bytes) (excelData : ExcelData.t)
    (fields : list PDFField.t) (previewSizes : PreviewSizes)
    (cache : FontCache) :
  (load env templateFile = None ->
   generatePDFs env templateFile excelData fields previewSizes cache = []) /\
  (load env templateFile <> None ->
   (forall doc, save env doc <> None) ->
   List.length (generatePDFs env templateFile excelData fields previewSizes cache)
   = List.length (ExcelData.rows excelData)).
Proof.
  unfold generatePDFs. rewrite generateLoop_produced. cbn [app]. split.
  - intros Hload. now apply rowOutcomes_no_template.
  - intros Hload Hsave. now apply rowOutcomes_all.
Qed.

Lemma batch_all_or_nothing_witness :
  generatePDFs Sample2.envNoTemplate Sample.template
    (Sample.excelData ["A"; "B"]) [Sample.field "Name" 1 false]
    Sample.previewSizes [] = [] /\
  List.length (generatePDFs (Sample.env (Some "B") None) Sample.template
                 (Sample.excelData ["A"; "B"; ""])
                 [Sample.field "Name" 1 false; Sample.field "Name" 7 false]
                 Sample.previewSizes [])
  = 3%nat.
Proof.
  split.
  - apply (proj1 (batch_all_or_nothing Sample2.envNoTemplate Sample.template
                    (Sample.excelData ["A"; "B"]) [Sample.field "Name" 1 false]
                    Sample.previewSizes [])).
    reflexivity.
  - apply (proj2 (batch_all_or_nothing (Sample.env (Some "B") None)
                    Sample.template (Sample.excelData ["A"; "B"; ""])
                    [Sample.field "Name" 1 false; Sample.field "Name" 7 false]
                    Sample.previewSizes [])).
    + discriminate.
    + apply sample_save_total.
Defined.

(** ** More on [hexToRgb] *)

Section ColorMore.
Import Color.

Lemma hexVal_lower (i : nat) :
  (i < 16)%nat -> hexVal (nth i lowerDigits "0"%char) = Z.of_nat i.
Proof.
  intros H.
  do 16 (destruct i as [|i]; [reflexivity|]). lia.
Qed.

Lemma hexVal_upper (i : nat) :
  (i < 16)%nat -> hexVal (nth i upperDigits "0"%char) = Z.of_nat i.
Proof.
  intros H.
  do 16 (destruct i as [|i]; [reflexivity|]). lia.
Qed.

Lemma hexRe_exec_no_hash (s : string) :
  (forall rest, s <> String "#" rest) -> hexRe_exec s = matchGroups s.
Proof.
  intros H. unfold hexRe_exec. destruct s as [|c s]; [reflexivity|].
  destruct (Ascii.eqb_spec c "#") as [->|Hc].
  - now contradiction (H s).
  - destruct c as [[] [] [] [] [] [] [] []]; try reflexivity.
    now contradiction Hc.
Qed.

End ColorMore.

(** X7.  The leading [#] is optional: a colour string that does not itself
    start with [#] gives the same colour with and without one.  The two
    digits of a channel count 16 and 1 times their value, the letters
    [a]-[f] counting 10 to 15 in either case, and the channel is that
    number over 255.  An absent fill is black. *)
Theorem hexToRgb_reads_hex :
  (forall s : string,
      (forall rest, s <> String "#" rest) ->
      Color.hexToRgb (Some (String "#" s)) = Color.hexToRgb (Some s)) /\
  (forall hi lo : nat,
      (hi < 16)%nat -> (lo < 16)%nat ->
      forall h l : ascii,
        (h = nth hi lowerDigits "0"%char \/ h = nth hi upperDigits "0"%char) ->
        (l = nth lo lowerDigits "0"%char \/ l = nth lo upperDigits "0"%char) ->
        Color.parseInt16 (h, l) = Z.of_nat (16 * hi + lo)) /\
  (forall c1 c2 c3 c4 c5 c6 : ascii,
      forallb Color.isHexDigit [c1; c2; c3; c4; c5; c6] = true ->
      Color.hexToRgb
        (Some (string_of_list_ascii [c1; c2; c3; c4; c5; c6]))
      = Color.mkRgb (inject_Z (Color.parseInt16 (c1, c2)) / 255)
                    (inject_Z (Color.parseInt16 (c3, c4)) / 255)
                    (inject_Z (Color.parseInt16 (c5, c6)) / 255)) /\
  (Color.r (Color.hexToRgb None) == 0 /\ Color.g (Color.hexToRgb None) == 0 /\
   Color.b (Color.hexToRgb None) == 0).
Proof.
  split; [|split; [|split]].
  - intros s Hs. unfold Color.hexToRgb.
    rewrite (hexRe_exec_no_hash s Hs). unfold Color.hexRe_exec.
    destruct (Color.matchGroups s) as [gs|]; [reflexivity|].
    now rewrite matchGroups_hash.
  - intros hi lo Hhi Hlo h l Hh Hl. unfold Color.parseInt16. cbn [fst snd].
    assert (Eh : Color.hexVal h = Z.of_nat hi).
    { destruct Hh as [-> | ->]; [now apply hexVal_lower | now apply hexVal_upper]. }
    assert (El : Color.hexVal l = Z.of_nat lo).
    { destruct Hl as [-> | ->]; [now apply hexVal_lower | now apply hexVal_upper]. }
    rewrite Eh, El. lia.
  - intros c1 c2 c3 c4 c5 c6 H. unfold Color.hexToRgb.
    assert (Hm : Color.matchGroups (string_of_list_ascii [c1; c2; c3; c4; c5; c6])
                 = Some ((c1, c2), (c3, c4), (c5, c6))).
    { cbn [string_of_list_ascii Color.matchGroups]. now rewrite H. }
    rewrite hexRe_exec_no_hash.
    + now rewrite Hm.
    + intros rest E. cbn [string_of_list_ascii] in E. injection E as -> _.
      cbn in H. discriminate H.
  - repeat split; reflexivity.
Qed.

Lemma hexToRgb_reads_hex_witness :
  Color.hexToRgb (Some "#1aF0c3") = Color.hexToRgb (Some "1aF0c3") /\
  Color.parseInt16 ("F"%char, "a"%char) = 250%Z.
Proof.
  destruct hexToRgb_reads_hex as (Hash & Digits & _ & _).
  split.
  - apply Hash. intros rest. discriminate.
  - apply (Digits 15%nat 10%nat); [lia | lia | now right | now left].
Defined.

(** ** More on [parseExcelFile] and [validateExcelFile] *)

Section ParseMore.
Variable env : Env.

Lemma combine_snd {A B : Type} (l1 : list A) :
  forall l2 : list B,
    List.length l1 = List.length l2 -> map snd (combine l1 l2) = l2.
Proof.
  induction l1 as [|a l1 IH]; intros [|b l2] H; try discriminate; cbn.
  - reflexivity.
  - f_equal. apply IH. now injection H.
Qed.

Lemma combine_fst {A B : Type} (l1 : list A) :
  forall l2 : list B,
    List.length l1 = List.length l2 -> map fst (combine l1 l2) = l1.
Proof.
  induction l1 as [|a l1 IH]; intros [|b l2] H; try discriminate; cbn.
  - reflexivity.
  - f_equal. apply IH. now injection H.
Qed.

End ParseMore.

(** X8.  [validateExcelFile] accepts exactly the files of one of the two
    Excel MIME types whose size is at most 10 * 1024 * 1024 bytes, that
    size included.  A file of another type gets the message about the
    type whatever its size; the message about the size is for a file of
    an accepted type only. *)
Theorem validateExcelFile_accepts (file : File.t) :
  (validateExcelFile file = None <->
   In (File.type file) validTypes /\ (File.size file <= 10485760)%N) /\
  (~ In (File.type file) validTypes ->
   validateExcelFile file
   = Some "Please select a valid Excel file (.xlsx or .xls)") /\
  (In (File.type file) validTypes -> (10485760 < File.size file)%N ->
   validateExcelFile file = Some "File size must be less than 10MB").
Proof.
  assert (Hin : existsb (String.eqb (File.type file)) validTypes = true
                <-> In (File.type file) validTypes).
  { rewrite existsb_exists. split.
    - intros [t [Ht E]]. apply String.eqb_eq in E. now subst.
    - intros H. exists (File.type file). split; [exact H | apply String.eqb_refl]. }
  unfold validateExcelFile.
  change (10 * 1024 * 1024)%N with 10485760%N.
  destruct (existsb (String.eqb (File.type file)) validTypes) eqn:E; cbn [negb].
  - assert (Ht : In (File.type file) validTypes) by now apply Hin.
    destruct (N.ltb_spec 10485760 (File.size file)) as [Hs|Hs].
    + split; [|split]; [split; [discriminate | intros [_ H]; lia] | tauto | reflexivity].
    + split; [|split]; [split; [now split | reflexivity] | tauto | intros _ H; lia].
  - assert (Ht : ~ In (File.type file) validTypes).
    { intros H. apply Hin in H. discriminate. }
    split; [|split]; [split; [discriminate | tauto] | reflexivity | tauto].
Qed.

Lemma validateExcelFile_accepts_witness :
  validateExcelFile (File.mk "rows.xls" "application/vnd.ms-excel" 10485760)
  = None /\
  validateExcelFile (File.mk "rows.xls" "application/vnd.ms-excel" 10485761)
  = Some "File size must be less than 10MB" /\
  validateExcelFile (File.mk "rows.csv" "text/csv" 12)
  = Some "Please select a valid Excel file (.xlsx or .xls)".
Proof.
  split; [|split].
  - apply (proj1 (validateExcelFile_accepts
                    (File.mk "rows.xls" "application/vnd.ms-excel" 10485760))).
    split; [right; left; reflexivity | cbn; lia].
  - apply (proj2 (proj2 (validateExcelFile_accepts
                    (File.mk "rows.xls" "application/vnd.ms-excel" 10485761)))).
    + right; left; reflexivity.
    + cbn. lia.
  - apply (proj1 (proj2 (validateExcelFile_accepts
                    (File.mk "rows.csv" "text/csv" 12)))).
    cbn. intros [H|[H|[]]]; discriminate H.
Defined.

Section Positions.
Variable env : Env.

Lemma NoDup_map_nth_error {A B : Type} (f : A -> B) (l : list A) (i j : nat) (a b : A) :
  NoDup (map f l) ->
  nth_error l i = Some a -> nth_error l j = Some b -> i <> j -> f b <> f a.
Proof.
  intros Hnd Hi Hj Hne E.
  apply Hne. apply (proj1 (NoDup_nth_error (map f l)) Hnd).
  - rewrite length_map. apply nth_error_Some. rewrite Hi. discriminate.
  - rewrite !nth_error_map, Hi, Hj. cbn. now rewrite E.
Qed.

(** With column names that differ, each column other than [__proto__]
    has its own property, which holds the cell at the column's position. *)
Lemma toRowObj_get (headers raw : list JsVal) (i : nat) (header : JsVal) :
  NoDup (map (toString env) headers) ->
  nth_error headers i = Some header ->
  toString env header <> "__proto__" ->
  objGet (toRowObj env headers raw) (toString env header)
  = Some (jsOr (cellAt raw i) (JStr "")).
Proof.
  intros Hnd Hn Hproto. unfold toRowObj.
  rewrite (fillRow_get env headers [] raw 0 i header Hn Hproto); [reflexivity|].
  intros j h Hj Hh.
  apply (NoDup_map_nth_error (toString env) headers i j header h Hnd Hn Hh). lia.
Qed.

(** The shape of a row object. *)
Lemma toRowObj_keeps (headers raw : list JsVal) :
  NoDup (objKeys (toRowObj env headers raw)) /\
  StronglySorted keyBefore (objKeys (toRowObj env headers raw)) /\
  (forall k, In k (objKeys (toRowObj env headers raw)) <->
             In k (map (toString env) headers) /\ k <> "__proto__") /\
  (forall v, In v (objValues (toRowObj env headers raw)) ->
             truthy v = true \/ v = JStr "") /\
  (List.length (toRowObj env headers raw) <= List.length headers)%nat.
Proof.
  destruct (fillRow_keeps env headers [] raw 0) as (Hnd & Hs & Hk & Hv & Hl).
  { constructor. }
  { constructor. }
  { intros v []. }
  fold (toRowObj env headers raw) in Hnd, Hs, Hk, Hv, Hl.
  split; [exact Hnd|]. split; [exact Hs|]. split; [|split; [exact Hv | exact Hl]].
  intros k. rewrite Hk. cbn [objKeys map In]. tauto.
Qed.

Lemma protoGet_other (k : string) :
  ~ In k prototypeNames -> protoGet k = Prim JUndefined.
Proof.
  intros Hnot. unfold protoGet.
  destruct (String.eqb_spec k "__proto__") as [->|_].
  { exfalso. apply Hnot. cbn. tauto. }
  destruct (existsb (String.eqb k) prototypeNames) eqn:E; [|reflexivity].
  exfalso. apply Hnot. apply existsb_exists in E.
  destruct E as [k' [Hin E]]. apply String.eqb_eq in E. now subst.
Qed.

Lemma protoGet_member (k : string) :
  In k prototypeNames -> k <> "__proto__" -> protoGet k = Builtin k.
Proof.
  intros Hin Hne. unfold protoGet.
  apply String.eqb_neq in Hne. rewrite Hne.
  assert (E : existsb (String.eqb k) prototypeNames = true).
  { apply existsb_exists. exists k. split; [exact Hin | apply String.eqb_refl]. }
  now rewrite E.
Qed.

End Positions.

(** X9.  A row object has one property per distinct column name other
    than [__proto__], for which the assignment stores nothing, and no
    other property: its keys are pairwise distinct, so it never has more
    properties than there are headers.  Each value is truthy or the empty
    string; 0, [false], [null] and [undefined] are never stored.  Reading
    [__proto__] gives [Object.prototype]; reading another name that is not
    a column gives the member of [Object.prototype] of that name, if
    there is one, and [undefined] otherwise. *)
Theorem row_object_shape (env : Env) (headers raw : list JsVal) :
  let row := toRowObj env headers raw in
  let names := map (toString env) headers in
  NoDup (objKeys row) /\
  (forall k, In k (objKeys row) <-> In k names /\ k <> "__proto__") /\
  (forall v, In v (objValues row) -> truthy v = true \/ v = JStr "") /\
  (List.length row <= List.length headers)%nat /\
  rowGet row "__proto__" = ObjectPrototype /\
  (forall k, ~ In k names -> In k prototypeNames -> k <> "__proto__" ->
             rowGet row k = Builtin k) /\
  (forall k, ~ In k names -> ~ In k prototypeNames ->
             rowGet row k = Prim JUndefined).
Proof.
  intros row names.
  destruct (toRowObj_keeps env headers raw) as (Hnd & _ & Hk & Hv & Hl).
  fold row in Hnd, Hk, Hv, Hl. fold names in Hk.
  assert (Hout : forall k, ~ In k names -> objGet row k = None).
  { intros k Hnot. apply objGet_notin. rewrite Hk. tauto. }
  split; [exact Hnd|]. split; [exact Hk|]. split; [exact Hv|].
  split; [exact Hl|]. split; [|split].
  - unfold rowGet. rewrite objGet_notin; [reflexivity|].
    rewrite Hk. tauto.
  - intros k Hnot Hin Hne. unfold rowGet. rewrite (Hout k Hnot).
    now apply protoGet_member.
  - intros k Hnot Hproto. unfold rowGet. rewrite (Hout k Hnot).
    now apply protoGet_other.
Qed.

Lemma row_object_shape_witness :
  rowGet (toRowObj (Sample.env None None)
            [JStr "A"; JStr "B"; JStr "A"] [JNum 1; JNum 0; JNum 2]) "C"
  = Prim JUndefined /\
  rowGet (toRowObj (Sample.env None None)
            [JStr "A"; JStr "B"; JStr "A"] [JNum 1; JNum 0; JNum 2])
         "constructor"
  = Builtin "constructor".
Proof.
  pose proof (row_object_shape (Sample.env None None)
                [JStr "A"; JStr "B"; JStr "A"] [JNum 1; JNum 0; JNum 2]) as T.
  cbv zeta in T. destruct T as (_ & _ & _ & _ & _ & Hmember & Hother).
  split.
  - apply Hother.
    + cbn. intros [H|[H|[H|[]]]]; discriminate H.
    + cbn. intros H.
      repeat (destruct H as [H|H]; [discriminate H|]). exact H.
  - apply Hmember.
    + cbn. intros [H|[H|[H|[]]]]; discriminate H.
    + cbn. now left.
    + discriminate.
Defined.

(** X10.  With column names that differ from each other, the row object
    has for each column other than [__proto__] a property that holds the
    cell at the column's position (or the empty string for a falsy cell).
    The properties are listed with the array indices first, in ascending
    order, then the other names in sheet order.  The row is kept exactly
    when the cell at the position of one of the columns other than
    [__proto__] is truthy: cells beyond the last header do not count, and
    a row that holds only zeros is dropped. *)
Theorem distinct_names_rows (env : Env) (headers raw : list JsVal) :
  NoDup (map (toString env) headers) ->
  let row := toRowObj env headers raw in
  (forall i header,
      nth_error headers i = Some header ->
      toString env header <> "__proto__" ->
      objGet row (toString env header) = Some (jsOr (cellAt raw i) (JStr ""))) /\
  StronglySorted keyBefore (objKeys row) /\
  filter (fun k => negb (isArrayIndex k)) (objKeys row)
  = filter (fun k => negb (isArrayIndex k) && negb (String.eqb k "__proto__"))
           (map (toString env) headers) /\
  (keepRow row = true <->
   exists i header,
     nth_error headers i = Some header /\
     toString env header <> "__proto__" /\
     truthy (cellAt raw i) = true).
Proof.
  intros Hnd row.
  destruct (toRowObj_keeps env headers raw) as (Hkeys & Hsorted & Hk & _ & _).
  fold row in Hkeys, Hsorted, Hk.
  assert (Hget : forall i header,
             nth_error headers i = Some header ->
             toString env header <> "__proto__" ->
             objGet row (toString env header)
             = Some (jsOr (cellAt raw i) (JStr ""))).
  { intros i header Hn Hproto. now apply toRowObj_get. }
  split; [exact Hget|]. split; [exact Hsorted|]. split.
  - unfold row, toRowObj.
    rewrite (fillRow_created env headers [] raw 0 Hnd); [reflexivity|].
    reflexivity.
  - rewrite keepRow_true. split.
    + intros [v [Hv Hne]].
      unfold objValues in Hv. apply in_map_iff in Hv.
      destruct Hv as [[k v'] [E Hin]]. cbn in E. subst v'.
      assert (Hkey : In k (objKeys row)).
      { change k with (fst (k, v)). now apply in_map. }
      apply Hk in Hkey. destruct Hkey as [Hname Hproto].
      apply in_map_iff in Hname. destruct Hname as [header [<- Hh]].
      apply In_nth_error in Hh. destruct Hh as [i Hn].
      exists i, header. split; [exact Hn|]. split; [exact Hproto|].
      pose proof (In_objGet row _ _ Hkeys Hin) as Hfound.
      rewrite (Hget i header Hn Hproto) in Hfound. injection Hfound as <-.
      rewrite <- notEmptyStr_jsOr. now apply notEmptyStr_true.
    + intros (i & header & Hn & Hproto & Ht).
      exists (jsOr (cellAt raw i) (JStr "")). split.
      * apply (objGet_Some_values row (toString env header)).
        now apply Hget.
      * apply notEmptyStr_true. now rewrite notEmptyStr_jsOr.
Qed.

Lemma distinct_names_rows_witness :
  keepRow (toRowObj (Sample.env None None) [JStr "Name"; JStr "Qty"]
             [JNum 0; JNum 0; JStr "note"])
  = false /\
  objKeys (toRowObj (Sample.env None None)
             [JStr "b"; JStr "10"; JStr "__proto__"; JStr "2"; JStr "a"]
             [JNum 1; JNum 2; JNum 3; JNum 4; JNum 5])
  = ["2"; "10"; "b"; "a"].
Proof.
  assert (Hnd : NoDup (map (toString (Sample.env None None))
                           [JStr "Name"; JStr "Qty"])).
  { cbn. constructor; [|constructor; [|constructor]].
    - intros [H|[]]. discriminate H.
    - intros []. }
  pose proof (distinct_names_rows (Sample.env None None)
                [JStr "Name"; JStr "Qty"] [JNum 0; JNum 0; JStr "note"] Hnd)
    as T.
  cbv zeta in T. destruct T as (_ & _ & _ & Hkeep).
  split; [|reflexivity].
  apply not_true_is_false. intros E.
  apply Hkeep in E. destruct E as (i & header & Hn & _ & Ht).
  destruct i as [|[|[|i]]]; try discriminate Ht; discriminate Hn.
Defined.

(** X11.  The value stored under a column name is the cell at the
    column's position among the non-blank header cells, not the cell under
    the header: the header in sheet column [j] reads the cell at the
    number of truthy header cells to its left.  That number is [j] when
    no header cell to the left is blank, and less otherwise.  A column
    named [__proto__] reads [Object.prototype] whatever its cell holds.
    (Column names that differ from each other are assumed.) *)
Theorem column_reads_by_position
    (env : Env) (first raw : list JsVal) (j : nat) (header : JsVal) :
  nth_error first j = Some header ->
  truthy header = true ->
  NoDup (map (toString env) (filter truthy first)) ->
  let position := List.length (filter truthy (firstn j first)) in
  rowGet (toRowObj env (filter truthy first) raw) (toString env header)
  = (if String.eqb (toString env header) "__proto__" then ObjectPrototype
     else Prim (jsOr (cellAt raw position) (JStr ""))) /\
  (position <= j)%nat /\
  ((forall h, In h (firstn j first) -> truthy h = true) -> position = j) /\
  ((exists h, In h (firstn j first) /\ truthy h = false) -> (position < j)%nat).
Proof.
  intros Hn Ht Hnd position.
  assert (Hpos : nth_error (filter truthy first) position = Some header)
    by now apply nth_error_filter.
  assert (Hlen : (List.length (firstn j first) = j)%nat).
  { apply firstn_length_le. apply Nat.lt_le_incl, nth_error_Some.
    rewrite Hn. discriminate. }
  split; [|split; [|split]].
  - unfold rowGet.
    destruct (String.eqb_spec (toString env header) "__proto__") as [E|Hproto].
    + rewrite E. unfold toRowObj. now rewrite fillRow_proto.
    + now rewrite (toRowObj_get env _ raw position header Hnd Hpos Hproto).
  - unfold position. rewrite <- Hlen at 2. apply filter_length_le.
  - intros Hall. unfold position. now rewrite filter_all.
  - intros [h [Hin Hf]]. unfold position.
    pose proof (filter_length truthy (firstn j first)) as Hsum.
    assert (Hpos' : (0 < List.length (filter (fun x => negb (truthy x))
                                            (firstn j first)))%nat).
    { destruct (filter (fun x => negb (truthy x)) (firstn j first)) as [|a l] eqn:E.
      - exfalso.
        assert (Hin' : In h (filter (fun x => negb (truthy x)) (firstn j first))).
        { apply filter_In. split; [exact Hin | now rewrite Hf]. }
        now rewrite E in Hin'.
      - cbn. lia. }
    lia.
Qed.

Lemma column_reads_by_position_witness :
  rowGet (toRowObj (Sample.env None None)
            (filter truthy [JStr "Name"; JStr ""; JStr "City"])
            [JStr "Ada"; JNum 36; JStr "London"]) "City"
  = Prim (JNum 36).
Proof.
  assert (Hnd : NoDup (map (toString (Sample.env None None))
                           (filter truthy [JStr "Name"; JStr ""; JStr "City"]))).
  { cbn. constructor; [|constructor; [|constructor]].
    - intros [H|[]]. discriminate H.
    - intros []. }
  exact (proj1 (column_reads_by_position (Sample.env None None)
                  [JStr "Name"; JStr ""; JStr "City"]
                  [JStr "Ada"; JNum 36; JStr "London"] 2 (JStr "City")
                  eq_refl eq_refl Hnd)).
Defined.

(** X12.  [parseExcelFile] rejects exactly a sheet name that the workbook
    does not have and a sheet without any row.  Every other sheet parses,
    with [headers] and [columns] the same list and at most one row object
    per sheet row below the first.  A first row without a truthy cell
    gives no column and, whatever the sheet holds below it, no row. *)
Theorem parse_edges (env : Env) (workbook : Obj Sheet) (sheetName : string) :
  (parseExcelFile env workbook sheetName = inl (SheetNotFound sheetName) <->
   objGet workbook sheetName = None) /\
  (parseExcelFile env workbook sheetName = inl SheetEmpty <->
   objGet workbook sheetName = Some []) /\
  (forall first others,
      objGet workbook sheetName = Some (first :: others) ->
      exists data,
        parseExcelFile env workbook sheetName = inr data /\
        ExcelData.headers data = ExcelData.columns data /\
        (List.length (ExcelData.rows data) <= List.length others)%nat /\
        ((forall h, In h first -> truthy h = false) ->
         ExcelData.columns data = [] /\ ExcelData.rows data = [])).
Proof.
  unfold parseExcelFile.
  destruct (objGet workbook sheetName) as [[|first others]|].
  - split; [|split]; [split; discriminate | split; reflexivity | discriminate].
  - split; [|split]; [split; discriminate | split; discriminate |].
    intros first' others' [= <- <-].
    eexists. split; [reflexivity|]. cbn [ExcelData.headers ExcelData.columns ExcelData.rows].
    split; [reflexivity|]. split.
    + rewrite <- (length_map (toRowObj env (filter truthy first)) others).
      apply filter_length_le.
    + intros Hblank. rewrite (filter_none truthy first Hblank).
      split; [reflexivity|].
      apply filter_none. intros row Hrow.
      apply in_map_iff in Hrow. destruct Hrow as [raw [<- _]]. reflexivity.
  - split; [|split]; [split; reflexivity | split; discriminate | discriminate].
Qed.

Lemma parse_edges_witness :
  exists data,
    parseExcelFile (Sample.env None None)
      [("Sheet1", [[JStr ""; JNull]; [JStr "Ada"; JNum 36]; [JStr "Bo"; JNum 41]])]
      "Sheet1" = inr data /\
    ExcelData.columns data = [] /\ ExcelData.rows data = [].
Proof.
  destruct (proj2 (proj2 (parse_edges (Sample.env None None)
              [("Sheet1", [[JStr ""; JNull]; [JStr "Ada"; JNum 36];
                           [JStr "Bo"; JNum 41]])] "Sheet1"))
              [JStr ""; JNull] [[JStr "Ada"; JNum 36]; [JStr "Bo"; JNum 41]]
              eq_refl)
    as [data (Hparse & _ & _ & Hblank)].
  exists data. split; [exact Hparse|]. apply Hblank.
  intros h [<-|[<-|[]]]; reflexivity.
Defined.

(** ** More on [createZipArchive] *)

Section ZipMore.

Lemma objGet_named (baseFileName : string) (pdfBuffers : list Bytes) :
  forall (start i : nat),
    objGet (combine (map (zipFileName baseFileName)
                         (seq start (List.length pdfBuffers))) pdfBuffers)
           (zipFileName baseFileName (start + i))
    = nth_error pdfBuffers i.
Proof.
  induction pdfBuffers as [|pdfBytes rest IH]; intros start i; cbn.
  - now destruct i.
  - destruct (String.eqb_spec (zipFileName baseFileName start)
                              (zipFileName baseFileName (start + i))) as [E|Hne].
    + apply zipFileName_inj in E. assert (i = 0)%nat by lia. now subst.
    + destruct i as [|i].
      * rewrite Nat.add_0_r in Hne. now contradiction Hne.
      * cbn. replace (start + S i)%nat with (S start + i)%nat by lia. apply IH.
Qed.

Lemma NoDup_map_injective {A B : Type} (f : A -> B) (l : list A) :
  (forall a b, f a = f b -> a = b) -> NoDup l -> NoDup (map f l).
Proof.
  intros Hinj. induction 1 as [|a l Hnotin Hnd IH]; cbn; constructor.
  - intros Hin. apply in_map_iff in Hin. destruct Hin as [b [E Hb]].
    apply Hinj in E. now subst.
  - exact IH.
Qed.

End ZipMore.

(** X13.  What [createZipArchive] puts into the archive comes out under
    its name: in the file table that it packs, looking up the name made
    for position [i] gives the buffer at position [i], and nothing when
    the list is shorter.  No two buffers share a name, so none overwrites
    another: the table holds as many entries as there are buffers, with
    the buffers as contents, in order. *)
Theorem zip_lookup
    (env : Env) (pdfBuffers : list Bytes) (baseFileName : option string) :
  let base := match baseFileName with Some name => name | None => "document" end in
  exists files : Obj Bytes,
    createZipArchive env pdfBuffers baseFileName = zipGenerate env files /\
    objKeys files
    = map (zipFileName base) (seq 0 (List.length pdfBuffers)) /\
    objValues files = pdfBuffers /\
    (forall i,
        objGet files (zipFileName base i) = nth_error pdfBuffers i) /\
    NoDup (objKeys files) /\
    List.length files = List.length pdfBuffers.
Proof.
  intros base.
  exists (zipEntries pdfBuffers base).
  split; [reflexivity|].
  assert (Hlen : List.length (map (zipFileName base)
                                  (seq 0 (List.length pdfBuffers)))
                 = List.length pdfBuffers).
  { now rewrite length_map, length_seq. }
  assert (Hkeys : objKeys (zipEntries pdfBuffers base)
                  = map (zipFileName base) (seq 0 (List.length pdfBuffers))).
  { rewrite zipEntries_named. unfold objKeys.
    now rewrite combine_fst by exact Hlen. }
  split; [exact Hkeys|]. split; [|split; [|split]].
  - rewrite zipEntries_named. unfold objValues. now apply combine_snd.
  - intros i. rewrite zipEntries_named.
    apply (objGet_named base pdfBuffers 0 i).
  - rewrite Hkeys. apply NoDup_map_injective; [|apply seq_NoDup].
    intros i j. apply zipFileName_inj.
  - rewrite zipEntries_named, length_combine, Hlen. apply Nat.min_id.
Qed.

(** Two buffers that hold the same bytes keep their own entries. *)
Lemma zip_lookup_witness :
  exists files : Obj Bytes,
    createZipArchive (Sample.env None None)
      [[Byte.x01]; [Byte.x01]] (Some "Doc")
    = zipGenerate (Sample.env None None) files /\
    objKeys files = ["Doc_001.pdf"; "Doc_002.pdf"] /\
    objGet files "Doc_002.pdf" = Some [Byte.x01] /\
    objGet files "Doc_003.pdf" = None.
Proof.
  destruct (zip_lookup (Sample.env None None) [[Byte.x01]; [Byte.x01]]
              (Some "Doc")) as (files & Hzip & Hkeys & _ & Hget & _).
  exists files. split; [exact Hzip|]. split; [exact Hkeys|]. split.
  - exact (Hget 1%nat).
  - exact (Hget 2%nat).
Defined.

(** ** [Step2Editor]: [canvasStates] and [handleNext] *)

Section StatesFacts.

Lemma statesGet_set_same (states : CanvasStates) (k : nat) (st : PageState.t) :
  statesGet (statesSet states k st) k = Some st.
Proof.
  induction states as [|[k' st'] rest IH]; cbn.
  - now rewrite Nat.eqb_refl.
  - destruct (Nat.eqb k' k) eqn:E; cbn; now rewrite E.
Qed.

Lemma statesGet_set_other (states : CanvasStates) (k k' : nat) (st : PageState.t) :
  k <> k' -> statesGet (statesSet states k st) k' = statesGet states k'.
Proof.
  intros Hne. induction states as [|[k0 st0] rest IH]; cbn.
  - apply Nat.eqb_neq in Hne. now rewrite Hne.
  - destruct (Nat.eqb_spec k0 k) as [->|Hk0]; cbn.
    + apply Nat.eqb_neq in Hne. now rewrite Hne.
    + now rewrite IH.
Qed.

Lemma sizesGet_set_same (ps : PreviewSizes) (k : Z) (size : Size.t) :
  sizesGet (sizesSet ps k size) k = Some size.
Proof.
  induction ps as [|[k' s'] rest IH]; cbn.
  - now rewrite Z.eqb_refl.
  - destruct (Z.eqb k' k) eqn:E; cbn; now rewrite E.
Qed.

Lemma sizesGet_set_other (ps : PreviewSizes) (k k' : Z) (size : Size.t) :
  k <> k' -> sizesGet (sizesSet ps k size) k' = sizesGet ps k'.
Proof.
  intros Hne. induction ps as [|[k0 s0] rest IH]; cbn.
  - apply Z.eqb_neq in Hne. now rewrite Hne.
  - destruct (Z.eqb_spec k0 k) as [->|Hk0]; cbn.
    + apply Z.eqb_neq in Hne. now rewrite Hne.
    + now rewrite IH.
Qed.

Lemma statesGet_Some_max (states : CanvasStates) (k : nat) (st : PageState.t) :
  statesGet states k = Some st -> (k <= list_max (map fst states))%nat.
Proof.
  induction states as [|[k' st'] rest IH]; cbn [statesGet map fst];
    [discriminate|].
  change (list_max (k' :: map fst rest))
    with (Nat.max k' (list_max (map fst rest))).
  destruct (Nat.eqb_spec k' k) as [->|Hne].
  - intros _. lia.
  - intros H. apply IH in H. lia.
Qed.

(** [Object.keys] lists the pages that have an entry, each once, smaller
    numbers first. *)
Lemma stateKeys_In (states : CanvasStates) (k : nat) :
  In k (stateKeys states) <-> statesGet states k <> None.
Proof.
  unfold stateKeys. rewrite filter_In, in_seq. split.
  - intros [_ H]. now destruct (statesGet states k).
  - intros H. destruct (statesGet states k) as [st|] eqn:E; [|now contradiction H].
    apply statesGet_Some_max in E. split; [lia | reflexivity].
Qed.

Lemma stateKeys_NoDup (states : CanvasStates) : NoDup (stateKeys states).
Proof. unfold stateKeys. apply NoDup_filter, seq_NoDup. Qed.

Lemma filter_sorted (p : nat -> bool) (start len : nat) :
  StronglySorted lt (filter p (seq start len)).
Proof.
  revert start. induction len as [|len IH]; intros start; cbn; [constructor|].
  destruct (p start); [|apply IH].
  constructor; [apply IH|].
  apply Forall_forall. intros k Hk. apply filter_In in Hk.
  destruct Hk as [Hk _]. apply in_seq in Hk. lia.
Qed.

Lemma stateKeys_sorted (states : CanvasStates) :
  StronglySorted lt (stateKeys states).
Proof. apply filter_sorted. Qed.

End StatesFacts.

Section NextFacts.
Variable canvas : Editor.Canvas.
Variable currentPage : nat.
Variable final : CanvasStates.
Variable now : nat.

Lemma nextStep_nat (acc : list PDFField.t * PreviewSizes) (k : nat) :
  nextStep canvas currentPage final now acc (natToString k)
  = (fst acc ++ pageFields final now k,
     match sizeChoice canvas currentPage final k with
     | Some size => sizesSet (snd acc) (Z.of_nat k) size
     | None => snd acc
     end).
Proof.
  unfold nextStep, pageFields, sizeChoice. rewrite readNat_natToString.
  destruct (statesGet final k) as [st|].
  - destruct (Nat.eqb k currentPage); [reflexivity|].
    now destruct (nonZero (PageState.width st) && nonZero (PageState.height st)).
  - rewrite app_nil_r. now destruct (Nat.eqb k currentPage).
Qed.

Lemma fold_nextStep_fields (keys : list nat) :
  forall acc,
    fst (fold_left (nextStep canvas currentPage final now)
                   (map natToString keys) acc)
    = fst acc ++ flat_map (pageFields final now) keys.
Proof.
  induction keys as [|k keys IH]; intros acc; cbn.
  - now rewrite app_nil_r.
  - rewrite IH, nextStep_nat. cbn [fst]. now rewrite <- app_assoc.
Qed.

Lemma fold_nextStep_sizes_notin (keys : list nat) :
  forall acc k,
    ~ In k keys ->
    sizesGet (snd (fold_left (nextStep canvas currentPage final now)
                             (map natToString keys) acc)) (Z.of_nat k)
    = sizesGet (snd acc) (Z.of_nat k).
Proof.
  induction keys as [|k0 keys IH]; intros acc k Hk; cbn; [reflexivity|].
  rewrite IH by (intros H; apply Hk; now right).
  rewrite nextStep_nat. cbn [snd].
  destruct (sizeChoice canvas currentPage final k0); [|reflexivity].
  apply sizesGet_set_other. intros E. apply Nat2Z.inj in E.
  apply Hk. now left.
Qed.

Lemma fold_nextStep_sizes_in (keys : list nat) :
  forall acc k,
    NoDup keys -> In k keys ->
    sizesGet (snd (fold_left (nextStep canvas currentPage final now)
                             (map natToString keys) acc)) (Z.of_nat k)
    = match sizeChoice canvas currentPage final k with
      | Some size => Some size
      | None => sizesGet (snd acc) (Z.of_nat k)
      end.
Proof.
  induction keys as [|k0 keys IH]; intros acc k Hnd Hk; [destruct Hk|].
  inversion Hnd as [|? ? Hnotin Hnd']; subst. cbn.
  destruct Hk as [->|Hk].
  - rewrite fold_nextStep_sizes_notin by exact Hnotin.
    rewrite nextStep_nat. cbn [snd].
    destruct (sizeChoice canvas currentPage final k); [|reflexivity].
    apply sizesGet_set_same.
  - rewrite IH by assumption.
    destruct (sizeChoice canvas currentPage final k) as [size|]; [reflexivity|].
    rewrite nextStep_nat. cbn [snd].
    destruct (sizeChoice canvas currentPage final k0); [|reflexivity].
    apply sizesGet_set_other. intros E. apply Nat2Z.inj in E. now subst.
Qed.

End NextFacts.

Section FieldsOfFacts.
Import Editor.

Lemma fieldsOf_In (page now : nat) (objs : list FabricObject) (f : PDFField.t) :
  In f (fieldsOf page now objs) <->
  exists obj d,
    In obj objs /\ data obj = Some d /\ columnName d <> "" /\
    f = toField page now obj d.
Proof.
  unfold fieldsOf. rewrite in_flat_map. split.
  - intros [obj [Hobj Hf]]. destruct (data obj) as [d|] eqn:E; [|destruct Hf].
    destruct (String.eqb_spec (columnName d) "") as [|Hne]; [destruct Hf|].
    destruct Hf as [<-|[]]. now exists obj, d.
  - intros (obj & d & Hobj & Hd & Hne & ->). exists obj. split; [exact Hobj|].
    rewrite Hd. apply String.eqb_neq in Hne. rewrite Hne. now left.
Qed.

Lemma fieldsOf_page (page now : nat) (objs : list FabricObject) (f : PDFField.t) :
  In f (fieldsOf page now objs) -> PDFField.pageIndex f = Z.of_nat page.
Proof.
  intros H. apply fieldsOf_In in H. destruct H as (obj & d & _ & _ & _ & ->).
  reflexivity.
Qed.

Lemma pageFields_page (states : CanvasStates) (now page : nat) (f : PDFField.t) :
  In f (pageFields states now page) -> PDFField.pageIndex f = Z.of_nat page.
Proof.
  unfold pageFields. destruct (statesGet states page); [|intros []].
  apply fieldsOf_page.
Qed.

Lemma filter_page_same (l : list PDFField.t) (k : nat) :
  (forall f, In f l -> PDFField.pageIndex f = Z.of_nat k) ->
  filter (fun f => Z.eqb (PDFField.pageIndex f) (Z.of_nat k)) l = l.
Proof.
  intros H. apply filter_all. intros f Hf. rewrite (H f Hf). apply Z.eqb_refl.
Qed.

Lemma filter_page_other (l : list PDFField.t) (k k' : nat) :
  k <> k' ->
  (forall f, In f l -> PDFField.pageIndex f = Z.of_nat k') ->
  filter (fun f => Z.eqb (PDFField.pageIndex f) (Z.of_nat k)) l = [].
Proof.
  intros Hne H. apply filter_none. intros f Hf. rewrite (H f Hf).
  apply Z.eqb_neq. intros E. apply Nat2Z.inj in E. now apply Hne.
Qed.

(** The fields of one page, out of the fields of all pages. *)
Lemma filter_page_blocks (states : CanvasStates) (now : nat) (keys : list nat) :
  forall k,
    NoDup keys ->
    filter (fun f => Z.eqb (PDFField.pageIndex f) (Z.of_nat k))
           (flat_map (pageFields states now) keys)
    = if in_dec Nat.eq_dec k keys then pageFields states now k else [].
Proof.
  induction keys as [|k0 keys IH]; intros k Hnd; [reflexivity|].
  inversion Hnd as [|? ? Hnotin Hnd']; subst.
  cbn [flat_map]. rewrite filter_app, IH by exact Hnd'.
  destruct (Nat.eq_dec k0 k) as [->|Hne].
  - rewrite filter_page_same by apply pageFields_page.
    destruct (in_dec Nat.eq_dec k keys) as [Hin|_]; [now contradiction Hnotin|].
    destruct (in_dec Nat.eq_dec k (k :: keys)) as [_|Hout];
      [apply app_nil_r | exfalso; apply Hout; now left].
  - rewrite (filter_page_other _ k k0);
      [| intros E; now apply Hne | apply pageFields_page].
    cbn [app].
    destruct (in_dec Nat.eq_dec k keys) as [Hin|Hout];
      destruct (in_dec Nat.eq_dec k (k0 :: keys)) as [Hin'|Hout']; trivial.
    + exfalso. apply Hout'. now right.
    + destruct Hin' as [E|Hin']; [now contradiction Hne | now contradiction Hout].
Qed.

Lemma sorted_blocks (states : CanvasStates) (now : nat) (keys : list nat) :
  StronglySorted lt keys ->
  StronglySorted Z.le
    (map PDFField.pageIndex (flat_map (pageFields states now) keys)).
Proof.
  induction 1 as [|k keys Hsorted IH Hall]; cbn; [constructor|].
  rewrite map_app.
  assert (Hrest : forall z, In z (map PDFField.pageIndex
                                   (flat_map (pageFields states now) keys)) ->
                            (Z.of_nat k <= z)%Z).
  { intros z Hz. apply in_map_iff in Hz. destruct Hz as [f [<- Hf]].
    apply in_flat_map in Hf. destruct Hf as [k' [Hk' Hf]].
    rewrite (pageFields_page _ _ _ _ Hf).
    rewrite Forall_forall in Hall. specialize (Hall k' Hk'). lia. }
  assert (Hblock : forall l,
             (forall f, In f l -> PDFField.pageIndex f = Z.of_nat k) ->
             StronglySorted Z.le
               (map PDFField.pageIndex l
                ++ map PDFField.pageIndex (flat_map (pageFields states now) keys))).
  { induction l as [|f l IHl]; intros Hl; cbn; [exact IH|].
    constructor.
    - apply IHl. intros g Hg. apply Hl. now right.
    - apply Forall_forall. intros z Hz. rewrite (Hl f) by now left.
      apply in_app_or in Hz. destruct Hz as [Hz|Hz]; [|now apply Hrest].
      apply in_map_iff in Hz. destruct Hz as [g [<- Hg]].
      rewrite (Hl g) by now right. lia. }
  apply Hblock. apply pageFields_page.
Qed.

End FieldsOfFacts.

Section HandleNextFacts.
Import Editor.
Variable canvas : Canvas.
Variable currentPage : nat.
Variable canvasStates : CanvasStates.
Variable now : nat.

(** [handleNext] in closed form: the fields page by page, pages in
    ascending order, and for each page the size recorded for it. *)
Lemma handleNext_form (fields : list PDFField.t) (sizes : PreviewSizes) :
  handleNext (Some canvas) currentPage canvasStates now = Some (fields, sizes) ->
  let final := statesSet canvasStates currentPage (snapshot canvas currentPage) in
  fields = flat_map (pageFields final now) (stateKeys final) /\
  (forall k, sizesGet sizes (Z.of_nat k) = sizeChoice canvas currentPage final k).
Proof.
  intros H final. unfold handleNext, objectKeys in H. fold final in H.
  injection H as H.
  pose proof (fold_nextStep_fields canvas currentPage final now
                (stateKeys final) ([], [])) as Hf.
  rewrite H in Hf. cbn [fst app] in Hf. split; [exact Hf|].
  intros k. destruct (in_dec Nat.eq_dec k (stateKeys final)) as [Hin|Hout].
  - pose proof (fold_nextStep_sizes_in canvas currentPage final now
                  (stateKeys final) ([], []) k (stateKeys_NoDup final) Hin) as Hs.
    rewrite H in Hs. cbn [snd] in Hs. rewrite Hs.
    now destruct (sizeChoice canvas currentPage final k).
  - pose proof (fold_nextStep_sizes_notin canvas currentPage final now
                  (stateKeys final) ([], []) k Hout) as Hs.
    rewrite H in Hs. cbn [snd] in Hs. rewrite Hs. cbn.
    assert (Hget : statesGet final k = None).
    { destruct (statesGet final k) eqn:E; [|reflexivity].
      exfalso. apply Hout, stateKeys_In. rewrite E. discriminate. }
    unfold sizeChoice. rewrite Hget.
    destruct (Nat.eqb_spec k currentPage) as [->|]; [|reflexivity].
    unfold final in Hget. now rewrite statesGet_set_same in Hget.
Qed.

End HandleNextFacts.

(** X14.  [handleNext] records for the current page the size of the live
    canvas, whatever was stored for that page before, and for every other
    page the stored size if its width and height are both non-zero, and
    nothing otherwise.  Hence a field handed over has a preview size
    unless it is on another page whose stored width or height is zero;
    such a field is later skipped by [generatePDFs]. *)
Theorem handleNext_preview_sizes
    (canvas : Editor.Canvas) (currentPage : nat) (canvasStates : CanvasStates)
    (now : nat) (fields : list PDFField.t) (sizes : PreviewSizes) :
  handleNext (Some canvas) currentPage canvasStates now = Some (fields, sizes) ->
  sizesGet sizes (Z.of_nat currentPage)
  = Some (Size.mk (Editor.getWidth canvas) (Editor.getHeight canvas)) /\
  (forall k,
      k <> currentPage ->
      sizesGet sizes (Z.of_nat k)
      = match statesGet canvasStates k with
        | Some st =>
            if nonZero (PageState.width st) && nonZero (PageState.height st)
            then Some (Size.mk (PageState.width st) (PageState.height st))
            else None
        | None => None
        end) /\
  (forall f,
      In f fields ->
      sizesGet sizes (PDFField.pageIndex f) = None ->
      exists k st,
        PDFField.pageIndex f = Z.of_nat k /\ k <> currentPage /\
        statesGet canvasStates k = Some st /\
        nonZero (PageState.width st) && nonZero (PageState.height st) = false).
Proof.
  intros H. destruct (handleNext_form _ _ _ _ _ _ H) as [Hf Hs].
  cbv zeta in Hf, Hs.
  set (final := statesSet canvasStates currentPage
                  (snapshot canvas currentPage)) in *.
  assert (Hother : forall k, k <> currentPage ->
            sizeChoice canvas currentPage final k
            = match statesGet canvasStates k with
              | Some st =>
                  if nonZero (PageState.width st) && nonZero (PageState.height st)
                  then Some (Size.mk (PageState.width st) (PageState.height st))
                  else None
              | None => None
              end).
  { intros k Hk. unfold sizeChoice, final.
    rewrite statesGet_set_other by (intros E; now apply Hk).
    apply Nat.eqb_neq in Hk. now rewrite Hk. }
  split; [|split].
  - rewrite Hs. unfold sizeChoice. now rewrite Nat.eqb_refl.
  - intros k Hk. rewrite Hs. now apply Hother.
  - intros f Hin Hnone. rewrite Hf in Hin. apply in_flat_map in Hin.
    destruct Hin as [k [_ Hin]].
    pose proof (pageFields_page _ _ _ _ Hin) as Hpage.
    rewrite Hpage, Hs in Hnone.
    destruct (Nat.eq_dec k currentPage) as [->|Hk].
    + unfold sizeChoice in Hnone. rewrite Nat.eqb_refl in Hnone. discriminate.
    + rewrite (Hother k Hk) in Hnone.
      unfold pageFields, final in Hin.
      rewrite statesGet_set_other in Hin by (intros E; now apply Hk).
      destruct (statesGet canvasStates k) as [st|] eqn:E; [|destruct Hin].
      exists k, st. repeat split; trivial.
      now destruct (nonZero (PageState.width st) && nonZero (PageState.height st)).
Qed.

(** X15.  The fields that [handleNext] hands over are ordered by page
    number.  Those of the current page are made from the objects on the
    live canvas that carry a column name and are tagged with the current
    page (a snapshot stored earlier for that page is not used, and a live
    object tagged with another page is left out); those of any other page
    are made from every object with a column name in that page's stored
    snapshot, whatever page it is tagged with. *)
Theorem handleNext_fields_by_page
    (canvas : Editor.Canvas) (currentPage : nat) (canvasStates : CanvasStates)
    (now : nat) (fields : list PDFField.t) (sizes : PreviewSizes) :
  handleNext (Some canvas) currentPage canvasStates now = Some (fields, sizes) ->
  StronglySorted Z.le (map PDFField.pageIndex fields) /\
  filter (fun f => Z.eqb (PDFField.pageIndex f) (Z.of_nat currentPage)) fields
  = fieldsOf currentPage now
      (filter (onPage currentPage) (Editor.getObjects canvas)) /\
  (forall k,
      k <> currentPage ->
      filter (fun f => Z.eqb (PDFField.pageIndex f) (Z.of_nat k)) fields
      = pageFields canvasStates now k).
Proof.
  intros H. destruct (handleNext_form _ _ _ _ _ _ H) as [Hf _].
  cbv zeta in Hf.
  set (final := statesSet canvasStates currentPage
                  (snapshot canvas currentPage)) in *.
  assert (Hpage : forall k,
            filter (fun f => Z.eqb (PDFField.pageIndex f) (Z.of_nat k)) fields
            = pageFields final now k).
  { intros k. rewrite Hf, filter_page_blocks by apply stateKeys_NoDup.
    destruct (in_dec Nat.eq_dec k (stateKeys final)) as [_|Hout]; [reflexivity|].
    unfold pageFields.
    destruct (statesGet final k) eqn:E; [|reflexivity].
    exfalso. apply Hout, stateKeys_In. rewrite E. discriminate. }
  split; [|split].
  - rewrite Hf. apply sorted_blocks, stateKeys_sorted.
  - rewrite Hpage. unfold pageFields, final.
    now rewrite statesGet_set_same.
  - intros k Hk. rewrite Hpage. unfold pageFields, final.
    now rewrite statesGet_set_other by (intros E; now apply Hk).
Qed.

Lemma handleNext_preview_sizes_witness :
  exists fields sizes,
    handleNext (Some Sample2.canvas) 1 Sample2.states 5
    = Some (fields, sizes) /\
    sizesGet sizes 1 = Some (Size.mk 300 400) /\
    sizesGet sizes 2 = Some (Size.mk 320 440) /\
    sizesGet sizes 3 = None.
Proof.
  destruct (handleNext (Some Sample2.canvas) 1 Sample2.states 5)
    as [[fields sizes]|] eqn:E; [|discriminate E].
  exists fields, sizes. split; [reflexivity|].
  destruct (handleNext_preview_sizes _ _ _ _ _ _ E) as (Hcur & Hother & _).
  split; [exact Hcur|]. split.
  - apply (Hother 2%nat). discriminate.
  - apply (Hother 3%nat). discriminate.
Defined.

Lemma handleNext_fields_by_page_witness :
  exists fields sizes,
    handleNext (Some Sample2.canvas) 1 Sample2.states 5
    = Some (fields, sizes) /\
    map PDFField.columnName
        (filter (fun f => Z.eqb (PDFField.pageIndex f) 1) fields) = ["Name"] /\
    map PDFField.columnName
        (filter (fun f => Z.eqb (PDFField.pageIndex f) 2) fields)
    = ["City"; "Zip"].
Proof.
  destruct (handleNext (Some Sample2.canvas) 1 Sample2.states 5)
    as [[fields sizes]|] eqn:E; [|discriminate E].
  exists fields, sizes. split; [reflexivity|].
  destruct (handleNext_fields_by_page _ _ _ _ _ _ E) as (_ & Hcur & Hother).
  split.
  - change 1%Z with (Z.of_nat 1). now rewrite Hcur.
  - change 2%Z with (Z.of_nat 2). rewrite (Hother 2%nat) by discriminate.
    reflexivity.
Defined.

Section DefaultsFacts.

Lemma numOr_nonzero (q d : Q) : ~ d == 0 -> ~ numOr q d == 0.
Proof.
  intros Hd. unfold numOr. destruct (Qeq_bool q 0) eqn:E; [exact Hd|].
  now apply Qeq_bool_neq.
Qed.

Lemma numOr_keeps (q d : Q) : ~ q == 0 -> numOr q d = q.
Proof.
  intros Hq. unfold numOr. destruct (Qeq_bool q 0) eqn:E; [|reflexivity].
  apply Qeq_bool_iff in E. now contradiction Hq.
Qed.

Lemma strOr_nonempty (s d : string) : d <> "" -> strOr s d <> "".
Proof.
  intros Hd. unfold strOr. destruct (String.eqb_spec s ""); assumption.
Qed.

Lemma freshId_nonempty (page : nat) (column : string) (now : nat) :
  freshId page column now <> "".
Proof. unfold freshId. cbn. discriminate. Qed.

End DefaultsFacts.

(** X16.  Every field that [handleNext] hands over has a column name, an
    id and a font family that are not empty, a font size and a horizontal
    scale that are not zero, and a fill colour.  So for these fields the
    fallbacks of [generatePDFs] (Inter, 12, 1) never apply: the text is
    drawn in the field's own family at the field's own size times its own
    scale. *)
Theorem handleNext_fields_complete
    (canvas : Editor.Canvas) (currentPage : nat) (canvasStates : CanvasStates)
    (now : nat) (fields : list PDFField.t) (sizes : PreviewSizes) :
  handleNext (Some canvas) currentPage canvasStates now = Some (fields, sizes) ->
  forall f,
    In f fields ->
    PDFField.columnName f <> "" /\ PDFField.id f <> "" /\
    PDFField.fontFamily f <> "" /\
    fontNameOf f = PDFField.fontFamily f /\
    ~ PDFField.fontSize f == 0 /\
    numOr (PDFField.fontSize f) 12 = PDFField.fontSize f /\
    (exists s, PDFField.scaleX f = Some s /\ ~ s == 0 /\
               optNumOr (PDFField.scaleX f) 1 = s) /\
    (exists c, PDFField.fill f = Some c /\ c <> "") /\
    (0 <= PDFField.pageIndex f)%Z.
Proof.
  intros H f Hin. destruct (handleNext_form _ _ _ _ _ _ H) as [Hf _].
  cbv zeta in Hf. rewrite Hf in Hin. apply in_flat_map in Hin.
  destruct Hin as [k [_ Hin]]. unfold pageFields in Hin.
  destruct (statesGet _ k) as [st|]; [|destruct Hin].
  apply fieldsOf_In in Hin. destruct Hin as (obj & d & _ & _ & Hcol & ->).
  assert (H12 : ~ 12 == 0) by discriminate.
  assert (H1 : ~ 1 == 0) by discriminate.
  assert (Hfam : strOr (Editor.fontFamily obj) "Inter" <> "")
    by (apply strOr_nonempty; discriminate).
  cbn [toField PDFField.columnName PDFField.id PDFField.fontFamily
       PDFField.fontSize PDFField.scaleX PDFField.fill PDFField.pageIndex].
  split; [exact Hcol|].
  split; [apply strOr_nonempty, freshId_nonempty|].
  split; [exact Hfam|]. split.
  { unfold fontNameOf. cbn [toField PDFField.fontFamily].
    apply String.eqb_neq in Hfam. now rewrite Hfam. }
  split; [now apply numOr_nonzero|].
  split; [apply numOr_keeps; now apply numOr_nonzero|]. split.
  { exists (numOr (Editor.scaleX obj) 1). split; [reflexivity|].
    split; [now apply numOr_nonzero|].
    cbn [optNumOr]. apply numOr_keeps. now apply numOr_nonzero. }
  split; [|lia].
  exists (strOr (Editor.fill obj) "#000000"). split; [reflexivity|].
  apply strOr_nonempty. discriminate.
Qed.

Lemma handleNext_fields_complete_witness :
  exists fields sizes,
    handleNext (Some Sample2.canvas) 1 Sample2.states 5 = Some (fields, sizes) /\
    match fields with
    | f :: _ => fontNameOf f = PDFField.fontFamily f /\ PDFField.id f <> ""
    | [] => False
    end.
Proof.
  destruct (handleNext (Some Sample2.canvas) 1 Sample2.states 5)
    as [[fields sizes]|] eqn:E; [|discriminate E].
  exists fields, sizes. split; [reflexivity|].
  pose proof (handleNext_fields_complete _ _ _ _ _ _ E) as Hall.
  destruct fields as [|f rest]; [vm_compute in E; discriminate E|].
  destruct (Hall f (or_introl eq_refl)) as (_ & Hid & _ & Hname & _).
  split; [exact Hname | exact Hid].
Defined.

(** ** [Step2Editor]: pages, drops and redraws *)

Section EditorFacts.
Import Editor.

Lemma handleNext_page (canvas : Canvas) (p : nat) (states : CanvasStates)
    (now : nat) (fields : list PDFField.t) (sizes : PreviewSizes) (k : nat) :
  handleNext (Some canvas) p states now = Some (fields, sizes) ->
  filter (fun f => Z.eqb (PDFField.pageIndex f) (Z.of_nat k)) fields
  = pageFields (statesSet states p (snapshot canvas p)) now k.
Proof.
  intros H. destruct (handleNext_form _ _ _ _ _ _ H) as [Hf _].
  cbv zeta in Hf.
  rewrite Hf, filter_page_blocks by apply stateKeys_NoDup.
  destruct (in_dec Nat.eq_dec k (stateKeys _)) as [_|Hout]; [reflexivity|].
  unfold pageFields.
  destruct (statesGet _ k) eqn:E; [|reflexivity].
  exfalso. apply Hout, stateKeys_In. rewrite E. discriminate.
Qed.

Lemma onPage_tagged (p : nat) (obj : FabricObject) :
  onPage p obj = true -> taggedFor p obj = true.
Proof.
  unfold onPage, taggedFor. destruct (data obj) as [d|]; [|discriminate].
  intros H. now apply andb_prop in H.
Qed.

Lemma filter_tagged_onPage (p : nat) (objs : list FabricObject) :
  filter (taggedFor p) (filter (onPage p) objs) = filter (onPage p) objs.
Proof.
  apply filter_all. intros obj H. apply filter_In in H.
  now apply onPage_tagged.
Qed.

(** Drops and redraws leave the page number and the stored snapshots as
    they are, and keep the canvas. *)
Lemma pageEvent_keeps (s : EditorState) (e : PageEvent) :
  currentPage (pageEvent s e) = currentPage s /\
  canvasStates (pageEvent s e) = canvasStates s /\
  (fabricCanvas s <> None -> fabricCanvas (pageEvent s e) <> None).
Proof.
  destruct e as [dt x y now lo | cw img]; cbn [pageEvent].
  - unfold addFieldToCanvas. destruct (fabricCanvas s) as [c|] eqn:E.
    + cbn. repeat split. discriminate.
    + rewrite E. now repeat split.
  - unfold resizeAndDraw. destruct (fabricCanvas s) as [c|] eqn:E.
    + destruct img as [image|]; [|rewrite E; repeat split; discriminate].
      destruct (nonZero _ && nonZero _); [|rewrite E; repeat split; discriminate].
      destruct (_ || _); [rewrite E; repeat split; discriminate|].
      cbn. repeat split. discriminate.
    + rewrite E. now repeat split.
Qed.

Lemma pageEvents_keep (events : list PageEvent) :
  forall s,
    currentPage (fold_left pageEvent events s) = currentPage s /\
    canvasStates (fold_left pageEvent events s) = canvasStates s /\
    (fabricCanvas s <> None -> fabricCanvas (fold_left pageEvent events s) <> None).
Proof.
  induction events as [|e events IH]; intros s; cbn; [now repeat split|].
  destruct (pageEvent_keeps s e) as (Hp & Hs & Hc).
  destruct (IH (pageEvent s e)) as (Hp' & Hs' & Hc').
  rewrite Hp', Hs', Hp, Hs. repeat split. auto.
Qed.

Lemma resizeAndDraw_drawable (cw : Q) (image : Size.t) (s : EditorState)
    (c : Canvas) :
  fabricCanvas s = Some c -> drawable cw image ->
  resizeAndDraw cw (Some image) s =
  mkEditor
    (Some (mkCanvas
             match statesGet (canvasStates s) (currentPage s) with
             | Some st => filter (taggedFor (currentPage s)) (PageState.objects st)
             | None => []
             end
             cw (Size.height image * (cw / Size.width image))))
    (currentPage s) (canvasStates s).
Proof.
  intros Hc (Hz & Hw & Hh). unfold resizeAndDraw.
  now rewrite Hc, Hz, Hw, Hh.
Qed.

End EditorFacts.

(** X17.  Leaving a page and coming back restores it: after [changePage]
    to another page, any drops and redraws there, [changePage] back and
    the redraw of the page, the canvas holds exactly the objects that
    were on it with a column name and the page's tag, in the same order,
    and the snapshots of the pages other than these two are untouched.
    Objects without a column name or tagged with another page do not
    come back. *)
Theorem navigation_round_trip
    (s : EditorState) (c : Editor.Canvas) (q : nat)
    (events : list PageEvent) (cw : Q) (image : Size.t) :
  fabricCanvas s = Some c ->
  q <> currentPage s ->
  drawable cw image ->
  let away := fold_left pageEvent events (changePage q s) in
  let back := resizeAndDraw cw (Some image) (changePage (currentPage s) away) in
  currentPage back = currentPage s /\
  fabricCanvas back
  = Some (Editor.mkCanvas
            (filter (onPage (currentPage s)) (Editor.getObjects c))
            cw (Size.height image * (cw / Size.width image))) /\
  (forall k, k <> currentPage s -> k <> q ->
             statesGet (canvasStates back) k = statesGet (canvasStates s) k).
Proof.
  intros Hc Hq Hdraw away back.
  assert (Hleft : changePage q s
                  = mkEditor (Some (Editor.mkCanvas [] (Editor.getWidth c)
                                                    (Editor.getHeight c)))
                             q
                             (statesSet (canvasStates s) (currentPage s)
                                        (snapshot c (currentPage s)))).
  { unfold changePage. rewrite Hc.
    apply Nat.eqb_neq in Hq. now rewrite Hq. }
  destruct (pageEvents_keep events (changePage q s)) as (Hp & Hs & Hcanvas).
  fold away in Hp, Hs, Hcanvas. rewrite Hleft in Hp, Hs, Hcanvas.
  cbn [currentPage canvasStates fabricCanvas] in Hp, Hs, Hcanvas.
  destruct (fabricCanvas away) as [ca|] eqn:Ea;
    [|exfalso; apply Hcanvas; [discriminate | reflexivity]].
  assert (Hback : changePage (currentPage s) away
                  = mkEditor (Some (Editor.mkCanvas [] (Editor.getWidth ca)
                                                    (Editor.getHeight ca)))
                             (currentPage s)
                             (statesSet (canvasStates away) q (snapshot ca q))).
  { unfold changePage. rewrite Ea, Hp.
    assert (E : Nat.eqb (currentPage s) q = false)
      by (apply Nat.eqb_neq; intros E; now apply Hq).
    now rewrite E. }
  unfold back. rewrite Hback.
  erewrite resizeAndDraw_drawable; [|reflexivity | exact Hdraw].
  cbn [currentPage canvasStates fabricCanvas].
  rewrite Hs.
  rewrite statesGet_set_other by exact Hq.
  rewrite statesGet_set_same. cbn [snapshot PageState.objects].
  rewrite filter_tagged_onPage.
  split; [reflexivity|]. split; [reflexivity|].
  intros k Hk Hkq.
  rewrite statesGet_set_other by (intros E; now apply Hkq).
  now rewrite statesGet_set_other by (intros E; now apply Hk).
Qed.

Lemma navigation_round_trip_witness :
  fabricCanvas
    (resizeAndDraw 600 (Some (Size.mk 1200 1600))
       (changePage 1
          (fold_left pageEvent
             [Redraw 600 (Some (Size.mk 1200 1600));
              DropField (handleDragStart "City" false) 5 6 7 (Size.mk 150 20)]
             (changePage 2 Sample2.editor))))
  = Some (Editor.mkCanvas [Sample2.box "Name" 1 10 20]
                          600 (1600 * (600 / 1200))).
Proof.
  apply (proj1 (proj2 (navigation_round_trip Sample2.editor Sample2.canvas 2
                         [Redraw 600 (Some (Size.mk 1200 1600));
                          DropField (handleDragStart "City" false) 5 6 7
                                    (Size.mk 150 20)]
                         600 (Size.mk 1200 1600) eq_refl
                         (fun E : 2%nat = 1%nat => O_S 0 (eq_add_S _ _ (eq_sym E)))
                         (conj eq_refl (conj eq_refl eq_refl))))).
Defined.

Section DropFacts.
Import Editor.

Lemma getData_dragged (column : string) (qr : bool) :
  getData (handleDragStart column qr) "columnName" = column /\
  String.eqb (getData (handleDragStart column qr) "isQRCode") "true" = qr.
Proof.
  unfold getData, handleDragStart. split.
  - rewrite objGet_objSet_other by discriminate.
    now rewrite objGet_objSet_same.
  - rewrite objGet_objSet_same. now destruct qr.
Qed.

Lemma numOr_zero (q : Q) : numOr q 0 == q.
Proof.
  unfold numOr. destruct (Qeq_bool q 0) eqn:E; [|reflexivity].
  apply Qeq_bool_iff in E. now rewrite E.
Qed.

Lemma fieldsOf_app (page now : nat) (l1 l2 : list FabricObject) :
  fieldsOf page now (l1 ++ l2) = fieldsOf page now l1 ++ fieldsOf page now l2.
Proof. unfold fieldsOf. apply flat_map_app. Qed.

(** Rounding to two decimals moves a number by half a hundredth at
    most. *)
Lemma toFixed2_close (q : Q) : Qabs (toFixed2 q - q) <= 1 # 200.
Proof.
  unfold toFixed2.
  pose proof (Qfloor_le (Qabs q * 100 + (1 # 2))) as Hlo.
  pose proof (Qlt_floor (Qabs q * 100 + (1 # 2))) as Hhi.
  rewrite inject_Z_plus in Hhi. change (inject_Z 1) with 1 in Hhi.
  set (n := inject_Z (Qfloor (Qabs q * 100 + (1 # 2)))) in *.
  apply Qabs_Qle_condition. unfold Qdiv. change (/ 100) with (1 # 100).
  destruct (Qle_bool 0 q) eqn:E.
  - apply Qle_bool_iff in E. rewrite (Qabs_pos q E) in Hlo, Hhi.
    split; lra.
  - assert (Hneg : q <= 0).
    { destruct (Qlt_le_dec q 0) as [H|H]; [now apply Qlt_le_weak|].
      apply Qle_bool_iff in H. congruence. }
    rewrite (Qabs_neg q Hneg) in Hlo, Hhi.
    split; lra.
Qed.

Lemma Qfloor_half (k : Z) : Qfloor (inject_Z k + (1 # 2)) = k.
Proof.
  pose proof (Qfloor_le (inject_Z k + (1 # 2))) as Hlo.
  pose proof (Qlt_floor (inject_Z k + (1 # 2))) as Hhi.
  assert (H1 : inject_Z (Qfloor (inject_Z k + (1 # 2))) < inject_Z (k + 1)).
  { rewrite inject_Z_plus. change (inject_Z 1) with 1. lra. }
  assert (H2 : inject_Z k < inject_Z (Qfloor (inject_Z k + (1 # 2)) + 1)) by lra.
  rewrite <- Zlt_Qlt in H1, H2. lia.
Qed.

(** A number of hundredths is its own rounding. *)
Lemma toFixed2_exact (q : Q) (m : Z) :
  q == inject_Z m / 100 -> toFixed2 q == q.
Proof.
  intros Hq. unfold Qdiv in Hq. change (/ 100) with (1 # 100) in Hq.
  unfold toFixed2, Qdiv. change (/ 100) with (1 # 100).
  destruct (Qle_bool 0 q) eqn:E.
  - apply Qle_bool_iff in E.
    assert (Ha : Qabs q * 100 + (1 # 2) == inject_Z m + (1 # 2)).
    { rewrite (Qabs_pos q E). lra. }
    rewrite Ha, Qfloor_half. lra.
  - assert (Hneg : q <= 0).
    { destruct (Qlt_le_dec q 0) as [H|H]; [now apply Qlt_le_weak|].
      apply Qle_bool_iff in H. congruence. }
    assert (Ha : Qabs q * 100 + (1 # 2) == inject_Z (- m) + (1 # 2)).
    { rewrite (Qabs_neg q Hneg), inject_Z_opp. lra. }
    rewrite Ha, Qfloor_half, inject_Z_opp. lra.
Qed.

End DropFacts.

(** X18.  A redraw of the current page puts on the canvas what the page's
    last snapshot holds and nothing else: a field dropped since the page
    was last left is discarded, as if it had never been dropped.  On a
    page that has no snapshot yet the canvas comes out empty, and
    [handleNext] then hands over no field for the page. *)
Theorem redraw_discards_drops
    (s : EditorState) (c : Editor.Canvas) (dataTransfer : Obj string)
    (x y : Q) (now : nat) (laidOut : Size.t) (cw : Q) (image : Size.t) :
  fabricCanvas s = Some c ->
  drawable cw image ->
  let dropped := addFieldToCanvas dataTransfer x y now laidOut s in
  resizeAndDraw cw (Some image) dropped = resizeAndDraw cw (Some image) s /\
  (statesGet (canvasStates s) (currentPage s) = None ->
   fabricCanvas (resizeAndDraw cw (Some image) dropped)
   = Some (Editor.mkCanvas [] cw (Size.height image * (cw / Size.width image))) /\
   forall later fields sizes,
     handleNext (fabricCanvas (resizeAndDraw cw (Some image) dropped))
                (currentPage s) (canvasStates s) later = Some (fields, sizes) ->
     filter (fun f => Z.eqb (PDFField.pageIndex f) (Z.of_nat (currentPage s)))
            fields = []).
Proof.
  intros Hc Hdraw dropped.
  assert (Hd : dropped
               = mkEditor
                   (Some (Editor.mkCanvas
                            (Editor.getObjects c
                             ++ [Editor.mkObject
                                   (Some (Editor.mkData
                                            (freshId (currentPage s)
                                               (getData dataTransfer "columnName") now)
                                            (getData dataTransfer "columnName")
                                            (String.eqb
                                               (getData dataTransfer "isQRCode")
                                               "true")
                                            (currentPage s)))
                                   (toFixed2 x) (toFixed2 y)
                                   (toFixed2 (Size.width laidOut))
                                   (toFixed2 (Size.height laidOut))
                                   1 1 0 12 "#000000" "Inter"
                                   (Some AlignLeft) (Some WeightNormal)
                                   (Some StyleNormal)])
                            (Editor.getWidth c) (Editor.getHeight c)))
                   (currentPage s) (canvasStates s)).
  { unfold dropped, addFieldToCanvas. now rewrite Hc. }
  assert (E : resizeAndDraw cw (Some image) dropped
              = resizeAndDraw cw (Some image) s).
  { rewrite Hd.
    erewrite resizeAndDraw_drawable; [|reflexivity | exact Hdraw].
    now rewrite (resizeAndDraw_drawable cw image s c Hc Hdraw). }
  split; [exact E|].
  intros Hnone. rewrite E.
  rewrite (resizeAndDraw_drawable cw image s c Hc Hdraw), Hnone.
  cbn [fabricCanvas]. split; [reflexivity|].
  intros later fields sizes H.
  rewrite (handleNext_page _ _ _ _ _ _ (currentPage s) H).
  unfold pageFields. rewrite statesGet_set_same. reflexivity.
Qed.

Lemma redraw_discards_drops_witness :
  resizeAndDraw 600 (Some (Size.mk 1200 1600))
    (addFieldToCanvas (handleDragStart "City" true) 5 6 7 (Size.mk 150 20)
                      Sample2.editor)
  = resizeAndDraw 600 (Some (Size.mk 1200 1600)) Sample2.editor.
Proof.
  apply (proj1 (redraw_discards_drops Sample2.editor Sample2.canvas
                  (handleDragStart "City" true) 5 6 7 (Size.mk 150 20)
                  600 (Size.mk 1200 1600) eq_refl
                  (conj eq_refl (conj eq_refl eq_refl)))).
Defined.

(** X19.  A field dragged from the column list and dropped on the canvas
    is handed over by [handleNext] as the last field of the current page,
    after those already there: bound to the dragged column, flagged as a
    code exactly when dragged as one, on the current page, with font size
    12, family Inter, fill [#000000], scale 1, angle 0 and the id made at
    the drop.  Its position is the drop point as fabric serializes it,
    rounded to two decimals: within half a hundredth of the drop point,
    and the drop point itself when that is a number of hundredths. *)
Theorem drop_is_handed_over
    (s : EditorState) (c : Editor.Canvas) (column : string) (qr : bool)
    (x y : Q) (now : nat) (laidOut : Size.t)
    (later : nat) (fields : list PDFField.t) (sizes : PreviewSizes) :
  fabricCanvas s = Some c ->
  column <> "" ->
  let dropped :=
    addFieldToCanvas (handleDragStart column qr) x y now laidOut s in
  handleNext (fabricCanvas dropped) (currentPage dropped)
             (canvasStates dropped) later = Some (fields, sizes) ->
  exists f,
    filter (fun f => Z.eqb (PDFField.pageIndex f) (Z.of_nat (currentPage s)))
           fields
    = fieldsOf (currentPage s) later
        (filter (onPage (currentPage s)) (Editor.getObjects c)) ++ [f] /\
    PDFField.columnName f = column /\ PDFField.isQRCode f = qr /\
    PDFField.pageIndex f = Z.of_nat (currentPage s) /\
    PDFField.id f = freshId (currentPage s) column now /\
    PDFField.x f == toFixed2 x /\ PDFField.y f == toFixed2 y /\
    Qabs (PDFField.x f - x) <= 1 # 200 /\
    Qabs (PDFField.y f - y) <= 1 # 200 /\
    (forall m : Z, x == inject_Z m / 100 -> PDFField.x f == x) /\
    (forall m : Z, y == inject_Z m / 100 -> PDFField.y f == y) /\
    PDFField.fontSize f = 12 /\ PDFField.fontFamily f = "Inter" /\
    PDFField.fill f = Some "#000000" /\
    PDFField.scaleX f = Some 1 /\ PDFField.angle f = Some 0.
Proof.
  intros Hc Hcol dropped H.
  destruct (getData_dragged column qr) as [Hname Hqr].
  unfold dropped, addFieldToCanvas in H. rewrite Hc, Hname, Hqr in H.
  cbn [fabricCanvas currentPage canvasStates] in H.
  pose proof (handleNext_page _ _ _ _ _ _ (currentPage s) H) as Hpage.
  unfold pageFields in Hpage. rewrite statesGet_set_same in Hpage.
  cbn [snapshot PageState.objects Editor.getObjects] in Hpage.
  rewrite filter_app, fieldsOf_app in Hpage.
  assert (Hid : String.eqb (freshId (currentPage s) column now) "" = false)
    by apply String.eqb_neq, freshId_nonempty.
  apply String.eqb_neq in Hcol.
  cbn [filter onPage Editor.data Editor.columnName Editor.pageIndex] in Hpage.
  rewrite Hcol, Nat.eqb_refl in Hpage.
  cbn [negb andb fieldsOf flat_map Editor.data Editor.columnName app] in Hpage.
  rewrite Hcol in Hpage. cbn [negb app] in Hpage.
  eexists. split; [exact Hpage|].
  cbn [toField PDFField.columnName PDFField.isQRCode PDFField.pageIndex
       PDFField.id PDFField.x PDFField.y PDFField.fontSize PDFField.fontFamily
       PDFField.fill PDFField.scaleX PDFField.angle
       Editor.id Editor.columnName Editor.isQRCode Editor.left Editor.top
       Editor.fontSize Editor.fontFamily Editor.fill Editor.scaleX Editor.angle].
  unfold strOr at 1. rewrite Hid.
  do 4 (split; [reflexivity|]).
  split; [apply numOr_zero|]. split; [apply numOr_zero|].
  split; [rewrite numOr_zero; apply toFixed2_close|].
  split; [rewrite numOr_zero; apply toFixed2_close|].
  split; [intros m Hm; rewrite numOr_zero; now apply (toFixed2_exact x m)|].
  split; [intros m Hm; rewrite numOr_zero; now apply (toFixed2_exact y m)|].
  repeat split; reflexivity.
Qed.

Lemma drop_is_handed_over_witness :
  exists fields sizes f,
    handleNext
      (fabricCanvas (addFieldToCanvas (handleDragStart "City" true)
                       (10007 # 1000) 6 7 (Size.mk 150 20) Sample2.editor))
      1 Sample2.states 9 = Some (fields, sizes) /\
    filter (fun g => Z.eqb (PDFField.pageIndex g) 1) fields
    = fieldsOf 1 9 [Sample2.box "Name" 1 10 20] ++ [f] /\
    PDFField.columnName f = "City" /\ PDFField.isQRCode f = true /\
    PDFField.x f == 1001 # 100 /\ PDFField.y f == 6.
Proof.
  destruct (handleNext
              (fabricCanvas (addFieldToCanvas (handleDragStart "City" true)
                               (10007 # 1000) 6 7 (Size.mk 150 20)
                               Sample2.editor))
              1 Sample2.states 9) as [[fields sizes]|] eqn:E; [|discriminate E].
  destruct (drop_is_handed_over Sample2.editor Sample2.canvas "City" true
              (10007 # 1000) 6 7 (Size.mk 150 20) 9 fields sizes eq_refl)
    as (f & Hpage & Hcol & Hqr & _ & _ & Hx & _ & _ & _ & _ & Hy & _).
  - discriminate.
  - exact E.
  - exists fields, sizes, f. split; [reflexivity|].
    split; [exact Hpage|]. split; [exact Hcol|]. split; [exact Hqr|].
    split.
    + rewrite Hx. reflexivity.
    + apply (Hy 600%Z). reflexivity.
Defined.

(** ** [Home]: the steps of the wizard *)

Section WizardFacts.
Import Wizard.
Variable env : Env.

(** While a call waits, no callback reaches a handler. *)
Lemma step_loading (s : Session) (e : Event) :
  isLoading (app s) = true -> (forall i, e <> Settled i) -> step env s e = s.
Proof.
  intros Hl He. unfold step, render. rewrite Hl.
  destruct e as [excel pdf sheet|i| | |]; try reflexivity.
  now contradiction (He i).
Qed.

(** What is on screen when no call waits. *)
Lemma render_idle (s : Session) :
  sessionOk s -> isLoading (app s) = false ->
  (currentStep (app s) = 1%nat /\ render (app s) = Upload) \/
  (exists data file,
      excelData (app s) = Some data /\ pdfFile (app s) = Some file /\
      ((currentStep (app s) = 2%nat /\ render (app s) = EditorScreen data file) \/
       (currentStep (app s) = 3%nat /\
        render (app s)
        = Generate data file (fields (app s)) (previewSizes (app s))))).
Proof.
  intros (_ & Hs & Hd) Hl. unfold render. rewrite Hl.
  destruct Hs as [Hs|[Hs|Hs]]; rewrite Hs in *; [left; now split| |].
  - destruct Hd as [Hx Hp]; [lia|].
    destruct (excelData (app s)) as [data|]; [|now contradiction Hx].
    destruct (pdfFile (app s)) as [file|]; [|now contradiction Hp].
    right. exists data, file. repeat split. now left.
  - destruct Hd as [Hx Hp]; [lia|].
    destruct (excelData (app s)) as [data|]; [|now contradiction Hx].
    destruct (pdfFile (app s)) as [file|]; [|now contradiction Hp].
    right. exists data, file. repeat split. now right.
Qed.

Lemma step_keeps (s : Session) (e : Event) :
  sessionOk s -> sessionOk (step env s e).
Proof.
  intros Hok. pose proof Hok as (Hw & Hs & Hd).
  destruct Hw as [[Hw Hl] | [call [Hw Hl]]].
  - (* nothing waits *)
    destruct e as [excel pdf sheet|i|configuredFields sizes| |].
    + destruct (render_idle s Hok Hl)
        as [[Hstep Hr] | (data & file & Ex & Ep & [[Hstep Hr] | [Hstep Hr]])];
        unfold step; rewrite Hr; [|exact Hok | exact Hok].
      unfold sessionOk. cbn. rewrite Hw. cbn.
      split; [right; eexists; now split|]. split; [exact Hs | exact Hd].
    + unfold step. rewrite Hw. now destruct i.
    + destruct (render_idle s Hok Hl)
        as [[Hstep Hr] | (data & file & Ex & Ep & [[Hstep Hr] | [Hstep Hr]])];
        unfold step; rewrite Hr; [exact Hok | | exact Hok].
      unfold sessionOk. cbn. rewrite Ex, Ep.
      split; [left; now split|]. split; [tauto|]. intros _. split; discriminate.
    + destruct (render_idle s Hok Hl)
        as [[Hstep Hr] | (data & file & Ex & Ep & [[Hstep Hr] | [Hstep Hr]])];
        unfold step; rewrite Hr; [exact Hok | | exact Hok].
      unfold sessionOk. cbn.
      split; [left; now split|]. split; [tauto|]. intros H. now contradiction H.
    + destruct (render_idle s Hok Hl)
        as [[Hstep Hr] | (data & file & Ex & Ep & [[Hstep Hr] | [Hstep Hr]])];
        unfold step; rewrite Hr; [exact Hok | exact Hok |].
      unfold sessionOk. cbn.
      split; [left; now split|]. split; [tauto|]. intros H. now contradiction H.
  - (* a call waits *)
    destruct e as [excel pdf sheet|i|configuredFields sizes| |];
      try (rewrite step_loading by (trivial; discriminate); exact Hok).
    unfold step. rewrite Hw. destruct i as [|i]; cbn [nth_error].
    + cbn [firstn skipn app]. unfold handleFilesUploaded_resume.
      destruct (parseExcelFile env (excel call) (sheet call)) as [err|data].
      * unfold sessionOk. cbn. split; [left; now split|]. split; [exact Hs | exact Hd].
      * unfold sessionOk. cbn. split; [left; now split|]. split; [tauto|].
        intros _. split; discriminate.
    + now destruct i.
Qed.

Lemma run_keeps (events : list Event) :
  forall s, sessionOk s -> sessionOk (fold_left (step env) events s).
Proof.
  induction events as [|e events IH]; intros s H; [exact H|].
  cbn. apply IH. now apply step_keeps.
Qed.

Lemma start_ok : sessionOk start.
Proof.
  unfold sessionOk. cbn. split; [left; now split|]. split; [tauto|].
  intros H. now contradiction H.
Qed.

End WizardFacts.

(** X20.  Whatever callbacks the step components raise and whenever the
    parsing of a sheet settles, the wizard is on step 1, 2 or 3 and past
    step 1 only with a parsed sheet and a template in hand.  [Home] never
    renders an empty page: it shows the processing notice exactly while a
    call of [handleFilesUploaded] waits for the parser, which is at most
    one call at a time, and one of the three step components otherwise.
    While the notice shows no callback does anything.  A sheet that does
    not parse brings the wizard back to where it was, with no data set
    and nothing to show for the failure; a sheet that parses opens the
    editor on it.  Going back from the editor keeps the parsed sheet and
    the template; the reset clears everything. *)
Theorem wizard_never_blank (env : Env) (events : list Wizard.Event) :
  let s := Wizard.run env events in
  (Wizard.currentStep (Wizard.app s) = 1
   \/ Wizard.currentStep (Wizard.app s) = 2
   \/ Wizard.currentStep (Wizard.app s) = 3)%nat /\
  (List.length (Wizard.awaiting s) <= 1)%nat /\
  Wizard.render (Wizard.app s) <> Wizard.Blank /\
  (Wizard.render (Wizard.app s) = Wizard.Processing <-> Wizard.awaiting s <> []) /\
  (forall excel pdf sheet,
      Wizard.render (Wizard.app s) = Wizard.Upload ->
      let during := Wizard.step env s (Wizard.FilesUploaded excel pdf sheet) in
      Wizard.render (Wizard.app during) = Wizard.Processing /\
      (forall e, (forall i, e <> Wizard.Settled i) ->
                 Wizard.step env during e = during) /\
      (forall err,
          parseExcelFile env excel sheet = inl err ->
          Wizard.step env during (Wizard.Settled 0) = s) /\
      (forall data,
          parseExcelFile env excel sheet = inr data ->
          Wizard.render (Wizard.app (Wizard.step env during (Wizard.Settled 0)))
          = Wizard.EditorScreen data pdf)) /\
  (forall data pdf,
      Wizard.render (Wizard.app s) = Wizard.EditorScreen data pdf ->
      let back := Wizard.app (Wizard.step env s Wizard.Back) in
      Wizard.excelData back = Some data /\
      Wizard.pdfFile back = Some pdf /\
      Wizard.render back = Wizard.Upload) /\
  (forall data pdf fields sizes,
      Wizard.render (Wizard.app s) = Wizard.Generate data pdf fields sizes ->
      Wizard.step env s Wizard.Reset = Wizard.start).
Proof.
  intros s.
  destruct (run_keeps env events Wizard.start (start_ok)) as (Hw & Hs & Hd).
  fold (Wizard.run env events) in Hw, Hs, Hd. fold s in Hw, Hs, Hd.
  assert (Hstep : Wizard.isLoading (Wizard.app s) = false ->
                  Wizard.render (Wizard.app s) <> Wizard.Blank /\
                  Wizard.render (Wizard.app s) <> Wizard.Processing).
  { intros Hl. unfold Wizard.render. rewrite Hl.
    destruct Hs as [Hs|[Hs|Hs]]; rewrite Hs; try (split; discriminate).
    - destruct Hd as [Hx Hp]; [lia|].
      destruct (Wizard.excelData (Wizard.app s)); [|now contradiction Hx].
      destruct (Wizard.pdfFile (Wizard.app s)); [|now contradiction Hp].
      split; discriminate.
    - destruct Hd as [Hx Hp]; [lia|].
      destruct (Wizard.excelData (Wizard.app s)); [|now contradiction Hx].
      destruct (Wizard.pdfFile (Wizard.app s)); [|now contradiction Hp].
      split; discriminate. }
  assert (Hidle : Wizard.render (Wizard.app s) <> Wizard.Processing ->
                  Wizard.awaiting s = [] /\
                  Wizard.isLoading (Wizard.app s) = false).
  { intros Hr. destruct Hw as [Hw | [call [_ Hl]]]; [exact Hw|].
    exfalso. apply Hr. unfold Wizard.render. now rewrite Hl. }
  split; [exact Hs|]. split; [|split; [|split]].
  - destruct Hw as [[-> _] | [call [-> _]]]; cbn; lia.
  - destruct Hw as [[_ Hl] | [call [_ Hl]]]; [now apply Hstep|].
    unfold Wizard.render. rewrite Hl. discriminate.
  - destruct Hw as [[Hw Hl] | [call [Hw Hl]]].
    + rewrite Hw. split; [|tauto]. intros Hr. now apply Hstep in Hr.
    + rewrite Hw. unfold Wizard.render. rewrite Hl.
      split; [discriminate | reflexivity].
  - split; [|split].
    + intros excel pdf sheet Hr during.
      destruct Hidle as [Hw0 Hl]; [rewrite Hr; discriminate|].
      assert (Hduring : during
                        = Wizard.mkSession
                            (Wizard.handleFilesUploaded_start (Wizard.app s))
                            [Wizard.mkWaiting excel pdf sheet]).
      { unfold during, Wizard.step. now rewrite Hr, Hw0. }
      split; [now rewrite Hduring|]. split; [|split].
      * intros e He. apply step_loading; [now rewrite Hduring | exact He].
      * intros err Hparse. rewrite Hduring.
        unfold Wizard.step. cbn.
        unfold Wizard.handleFilesUploaded_resume. rewrite Hparse. cbn.
        destruct s as [[st pf xd fl ps ld] waiting]. cbn in *. now subst.
      * intros data Hparse. rewrite Hduring.
        unfold Wizard.step. cbn.
        unfold Wizard.handleFilesUploaded_resume. now rewrite Hparse.
    + intros data pdf Hr back.
      destruct Hidle as [Hw0 Hl]; [rewrite Hr; discriminate|].
      unfold back, Wizard.step. rewrite Hr.
      unfold Wizard.render in Hr. rewrite Hl in Hr.
      destruct (Wizard.currentStep (Wizard.app s)) as [|[|[|[|n]]]];
        destruct (Wizard.excelData (Wizard.app s)) as [d|] eqn:Ex;
        destruct (Wizard.pdfFile (Wizard.app s)) as [f|] eqn:Ep;
        try discriminate Hr.
      injection Hr as -> ->.
      unfold Wizard.handleBackToUpload, Wizard.render. cbn.
      rewrite Ex, Ep, Hl. now repeat split.
    + intros data pdf fields sizes Hr.
      destruct Hidle as [Hw0 Hl]; [rewrite Hr; discriminate|].
      unfold Wizard.step. rewrite Hr, Hw0. reflexivity.
Qed.

(** X21.  When the template does not open, [handleGenerate] still packs
    the archive: if packing succeeds the component shows the completion
    panel and downloads an archive without any entry, while the panel
    counts one created document per dataset row. *)
Theorem handleGenerate_without_template
    (env : Env) (pdfFile : Bytes) (excelData : ExcelData.t)
    (fields : list PDFField.t) (previewSizes : PreviewSizes) (cache : FontCache) :
  load env pdfFile = None ->
  generatePDFs env pdfFile excelData fields previewSizes cache = [] /\
  (forall zipBlob,
      zipGenerate env [] = Some zipBlob ->
      Step3.handleGenerate env pdfFile excelData fields previewSizes cache
      = (Step3.mkUi false 100 true None, Some zipBlob)) /\
  (zipGenerate env [] = None ->
   Step3.isComplete
     (fst (Step3.handleGenerate env pdfFile excelData fields previewSizes cache))
   = false) /\
  Step3.documentsCreated excelData = List.length (ExcelData.rows excelData).
Proof.
  intros Hload.
  assert (E : generatePDFs env pdfFile excelData fields previewSizes cache = []).
  { unfold generatePDFs. rewrite generateLoop_produced. cbn [app].
    now apply rowOutcomes_no_template. }
  split; [exact E|].
  unfold Step3.handleGenerate, createZipArchive. rewrite E.
  change (zipEntries [] "FormWeaver_Documents") with (@nil (string * Bytes)).
  split; [|split].
  - intros zipBlob Hz. now rewrite Hz.
  - intros Hz. now rewrite Hz.
  - reflexivity.
Qed.

Lemma handleGenerate_without_template_witness :
  Step3.handleGenerate Sample2.envNoTemplate Sample.template
    (Sample.excelData ["A"; "B"]) [Sample.field "Name" 1 false]
    Sample.previewSizes []
  = (Step3.mkUi false 100 true None, Some []) /\
  Step3.documentsCreated (Sample.excelData ["A"; "B"]) = 2%nat.
Proof.
  destruct (handleGenerate_without_template Sample2.envNoTemplate
              Sample.template (Sample.excelData ["A"; "B"])
              [Sample.field "Name" 1 false] Sample.previewSizes [] eq_refl)
    as (_ & Hdone & _ & Hcount).
  split; [now apply Hdone | exact Hcount].
Defined.

Lemma wizard_never_blank_witness :
  Wizard.render
    (Wizard.app
       (Wizard.step (Sample.env None None)
          (Wizard.run (Sample.env None None) [Wizard.Back; Wizard.Reset])
          (Wizard.FilesUploaded [("Sheet1", [])] Sample.template "Sheet1")))
  = Wizard.Processing /\
  Wizard.step (Sample.env None None)
    (Wizard.step (Sample.env None None)
       (Wizard.run (Sample.env None None) [Wizard.Back; Wizard.Reset])
       (Wizard.FilesUploaded [("Sheet1", [])] Sample.template "Sheet1"))
    (Wizard.Settled 0)
  = Wizard.run (Sample.env None None) [Wizard.Back; Wizard.Reset] /\
  Wizard.excelData
    (Wizard.app
       (Wizard.step (Sample.env None None)
          (Wizard.run (Sample.env None None)
             [Wizard.FilesUploaded [("Sheet1", [[JStr "Name"]; [JStr "Ada"]])]
                Sample.template "Sheet1";
              Wizard.Back;
              Wizard.Settled 0])
          Wizard.Back))
  = Some (ExcelData.mk [JStr "Name"] [JStr "Name"] [[("Name", JStr "Ada")]]).
Proof.
  destruct (wizard_never_blank (Sample.env None None)
              [Wizard.Back; Wizard.Reset]) as (_ & _ & _ & _ & Hup & _).
  destruct (Hup [("Sheet1", [])] Sample.template "Sheet1" eq_refl)
    as (Hshow & _ & Hfail & _).
  split; [exact Hshow|]. split; [exact (Hfail SheetEmpty eq_refl)|].
  destruct (wizard_never_blank (Sample.env None None)
              [Wizard.FilesUploaded
                 [("Sheet1", [[JStr "Name"]; [JStr "Ada"]])]
                 Sample.template "Sheet1";
               Wizard.Back;
               Wizard.Settled 0]) as (_ & _ & _ & _ & _ & Hback & _).
  apply (Hback _ Sample.template). reflexivity.
Defined.

(** ** Without a font *)

Section NoFont.
Variable env : Env.
Variable previewSizes : PreviewSizes.
Variable row : Obj JsVal.
Hypothesis Hno : noFont env.

Lemma resolveFont_noFont fontName st :
  cacheOk env (stCache st) ->
  stFonts st = [] ->
  snd (resolveFont env fontName st) = None /\
  stFonts (fst (resolveFont env fontName st)) = [] /\
  stDoc (fst (resolveFont env fontName st)) = stDoc st /\
  cacheOk env (stCache (fst (resolveFont env fontName st))).
Proof.
  intros Hok Hfonts. unfold resolveFont. rewrite Hfonts. cbn [objGet].
  destruct (getFontBytes_ok env fontName _ Hok) as [Hr Hc].
  destruct (getFontBytes env fontName (stCache st)) as [cache' r].
  cbn [fst snd] in Hr, Hc. unfold noFont in Hno. rewrite <- Hr in Hno.
  destruct r as [bytes|].
  - rewrite Hno. cbn. now repeat split.
  - cbn. now repeat split.
Qed.

Lemma drawField_noFont field st :
  cacheOk env (stCache st) ->
  stFonts st = [] ->
  stFonts (drawField env previewSizes row field st) = [] /\
  stDoc (drawField env previewSizes row field st) = stDoc st /\
  cacheOk env (stCache (drawField env previewSizes row field st)).
Proof.
  intros Hok Hfonts.
  destruct (drawField_outcome env previewSizes row field st)
    as [-> | (page & pv & st1 & r & _ & _ & _ & _ & _ & Hr & Hout)];
    [now repeat split|].
  destruct (resolveFont_noFont (fontNameOf field) st Hok Hfonts)
    as (Hnone & Hf & Hd & Hc).
  rewrite Hr in Hnone, Hf, Hd, Hc. cbn [fst snd] in Hnone, Hf, Hd, Hc.
  destruct Hout as [-> | (customFont & t & -> & _)]; [now repeat split|].
  discriminate Hnone.
Qed.

Lemma drawFields_noFont fields :
  forall st,
    cacheOk env (stCache st) ->
    stFonts st = [] ->
    stDoc (drawFields env previewSizes row fields st) = stDoc st.
Proof.
  induction fields as [|field rest IH]; intros st Hok Hfonts; [reflexivity|].
  rewrite drawFields_cons.
  destruct (drawField_noFont field st Hok Hfonts) as (Hf & Hd & Hc).
  now rewrite IH.
Qed.

End NoFont.

(** X22.  When no font can be had (the font file is not served, or what
    is served cannot be embedded), [generatePDFs] draws nothing at all:
    every row is serialized from the template as it was opened, so the
    batch holds one copy of the untouched template per row that
    serializes, and no error is raised. *)
Theorem no_font_no_text
    (env : Env) (templateFile : Bytes) (excelData : ExcelData.t)
    (fields : list PDFField.t) (previewSizes : PreviewSizes)
    (cache : FontCache) (pages : list Size.t) :
  noFont env ->
  cacheOk env cache ->
  load env templateFile = Some pages ->
  (forall row,
      snd (processRow env templateFile fields previewSizes row cache)
      = save env (mkDoc pages [] [])) /\
  generatePDFs env templateFile excelData fields previewSizes cache
  = produced (map (fun _ => save env (mkDoc pages [] []))
                  (ExcelData.rows excelData)).
Proof.
  intros Hno Hok Hload.
  assert (Hrow : forall row c,
            cacheOk env c ->
            snd (processRow env templateFile fields previewSizes row c)
            = save env (mkDoc pages [] [])).
  { intros row c Hc. unfold processRow. rewrite Hload. cbn [snd].
    now rewrite (drawFields_noFont env previewSizes row Hno fields
                   (mkState c [] (mkDoc pages [] [])) Hc eq_refl). }
  split; [intros row; now apply Hrow|].
  unfold generatePDFs. rewrite generateLoop_produced.
  rewrite rowOutcomes_alone by exact Hok.
  rewrite app_nil_l. f_equal. apply map_ext.
  intros row. apply Hrow, cacheOk_nil.
Qed.

Lemma no_font_no_text_witness :
  generatePDFs Sample2.envNoFont Sample.template
    (Sample.excelData ["A"; "B"]) [Sample.field "Name" 1 false]
    Sample.previewSizes []
  = [[Byte.x25]; [Byte.x25]].
Proof.
  rewrite (proj2 (no_font_no_text Sample2.envNoFont Sample.template
                    (Sample.excelData ["A"; "B"]) [Sample.field "Name" 1 false]
                    Sample.previewSizes [] [Size.mk 600 800]
                    I (cacheOk_nil Sample2.envNoFont) eq_refl)).
  reflexivity.
Defined.

(** X23.  When a column name other than [__proto__] occurs more than once
    among the headers, the row object has one property for it, and that
    property holds the cell of the last column of that name (or the empty
    string when that cell is falsy), whatever the cells of the earlier
    columns of that name hold.  For the name [__proto__] the row object
    has no property, and reading it gives [Object.prototype] whatever the
    cells hold. *)
Theorem last_column_wins
    (env : Env) (headers raw : list JsVal) (i : nat) (header : JsVal) :
  nth_error headers i = Some header ->
  (forall j h, (i < j)%nat -> nth_error headers j = Some h ->
               toString env h <> toString env header) ->
  let name := toString env header in
  rowGet (toRowObj env headers raw) name
  = (if String.eqb name "__proto__" then ObjectPrototype
     else Prim (jsOr (cellAt raw i) (JStr ""))) /\
  (forall raw' : list JsVal,
      cellAt raw' i = cellAt raw i ->
      rowGet (toRowObj env headers raw') name
      = rowGet (toRowObj env headers raw) name) /\
  List.length (filter (String.eqb name) (objKeys (toRowObj env headers raw)))
  = (if String.eqb name "__proto__" then 0 else 1)%nat.
Proof.
  intros Hn Hlast name.
  assert (Hget : forall r, rowGet (toRowObj env headers r) name
                           = if String.eqb name "__proto__" then ObjectPrototype
                             else Prim (jsOr (cellAt r i) (JStr ""))).
  { intros r. unfold rowGet.
    destruct (String.eqb_spec name "__proto__") as [E|Hproto].
    - rewrite E. unfold toRowObj. now rewrite fillRow_proto.
    - unfold toRowObj, name.
      now rewrite (fillRow_get env headers [] r 0 i header Hn Hproto Hlast). }
  split; [apply Hget|]. split.
  - intros raw' Hsame. now rewrite !Hget, Hsame.
  - destruct (toRowObj_keeps env headers raw) as (Hnd & _ & Hk & _).
    destruct (String.eqb_spec name "__proto__") as [E|Hproto].
    + rewrite filter_none; [reflexivity|].
      intros k Hin. apply String.eqb_neq. intros <-.
      apply Hk in Hin. now destruct Hin as [_ Hne].
    + assert (Hin : In name (objKeys (toRowObj env headers raw))).
      { apply Hk. split; [|exact Hproto].
        apply in_map. now apply nth_error_In in Hn. }
      revert Hnd Hin. generalize (objKeys (toRowObj env headers raw)).
      induction l as [|k l IH]; intros Hnd Hin; [destruct Hin|].
      inversion Hnd as [|? ? Hnotin Hnd']; subst. cbn [filter].
      destruct (String.eqb_spec name k) as [E|Hne].
      * subst k. cbn. f_equal.
        rewrite filter_none; [reflexivity|].
        intros k Hk'. apply String.eqb_neq. intros E. subst k.
        now apply Hnotin.
      * destruct Hin as [E|Hin]; [now contradiction Hne; symmetry|].
        now apply IH.
Qed.

Lemma last_column_wins_witness :
  rowGet (toRowObj (Sample.env None None)
            [JStr "Name"; JStr "Qty"; JStr "Name"]
            [JStr "Ada"; JNum 2; JStr "Bo"]) "Name"
  = Prim (JStr "Bo").
Proof.
  refine (proj1 (last_column_wins (Sample.env None None)
                   [JStr "Name"; JStr "Qty"; JStr "Name"]
                   [JStr "Ada"; JNum 2; JStr "Bo"] 2 (JStr "Name")
                   eq_refl _)).
  intros [|[|[|j]]] h Hj Hh; try lia. destruct j; discriminate Hh.
Defined.
